(** * card-world: an infinite-canvas note board

    A shallow embedding of the board's engineering core:
    - [World]            (src/cards.js, second class): pan / zoom transform,
    - [CardManager]      (src/cards.js, first class): cards, selection, drag
                         and neighbour snapping,
    - [UndoRedoManager]  (src/undoredo.js): the linear snapshot history,
    - [Sidebar]          (src/sidebar.js): only what [applyState] reaches,
    - [Storage]          (src/storage.js): persistence and import.

    Number model.  A JavaScript number is modelled by a rational ([Q]): the
    arithmetic is exact, and [Infinity] / [NaN] have no counterpart, so every
    statement that goes through a division says that the divisor is not zero.
    Card ids are the positive integers that [nextId] hands out.  The browser
    is taken as given: [Math.exp] and the measured [offsetHeight] of a card
    element are parameters, [Date.now()] is an argument. *)

From Stdlib Require Import QArith Qabs Qminmax Lqa ZArith PArith List String Bool Lia.
From Stdlib Require Import Sorting.Sorted.
From Stdlib Require Import Qround.
Import ListNotations.

Open Scope Q_scope.

(* ================================================================== *)
(** * JavaScript values the code relies on                           *)
(* ================================================================== *)

(** Truthiness of a number: everything but zero. *)
Definition truthyQ (q : Q) : bool := negb (Qeq_bool q 0).

(** Truthiness of a string: everything but the empty string. *)
Definition truthyS (s : string) : bool :=
  match s with EmptyString => false | _ => true end.

(** [a || d] where [a] may be [undefined]. *)
Definition js_or {A : Type} (truthy : A -> bool) (a : option A) (d : A) : A :=
  match a with
  | Some v => if truthy v then v else d
  | None => d
  end.

(** [a < b] on numbers. *)
Definition Qltb (a b : Q) : bool := negb (Qle_bool b a).

(** [a !== b] on numbers. *)
Definition Qneqb (a b : Q) : bool := negb (Qeq_bool a b).

(** [arr.slice(0, e)]: a negative end counts from the back. *)
Definition slice0 {A : Type} (l : list A) (e : Z) : list A :=
  if (e <? 0)%Z
  then firstn (Z.to_nat (Z.max 0 (Z.of_nat (List.length l) + e))) l
  else firstn (Z.to_nat e) l.

(** [arr[i]] with a number index: [undefined] out of range. *)
Definition js_nth {A : Type} (l : list A) (i : Z) : option A :=
  if (i <? 0)%Z then None else nth_error l (Z.to_nat i).

(* ================================================================== *)
(** * Cards                                                          *)
(* ================================================================== *)

(** A card's height: a number or the sentinel ['auto']. *)
Inductive Height : Type :=
| auto
| px (h : Q).

(** The record [createCard] stores in the board. *)
Record Card : Type := mkCard {
  card_id : positive;
  card_x : Q;
  card_y : Q;
  card_width : Q;
  card_height : Height;
  card_content : string
}.

(** The argument of [createCard]: any field may be missing. *)
Record CardData : Type := mkCardData {
  data_id : option positive;
  data_x : option Q;
  data_y : option Q;
  data_width : option Q;
  data_height : option Height;
  data_content : option string
}.

(** A stored card passed back to [createCard] has every field. *)
Definition dataOfCard (c : Card) : CardData :=
  mkCardData (Some (card_id c)) (Some (card_x c)) (Some (card_y c))
             (Some (card_width c)) (Some (card_height c))
             (Some (card_content c)).

(** ** Insertion-ordered [Map] and [Set]

    [new Map()] iterates in insertion order and [set] on an existing key
    keeps the key's place; [new Set()] likewise ignores a second [add]. *)

Section InsertionOrdered.
Context {V : Type}.

Fixpoint map_get (m : list (positive * V)) (k : positive) : option V :=
  match m with
  | [] => None
  | (k', v) :: m' => if Pos.eqb k k' then Some v else map_get m' k
  end.

Definition map_has (m : list (positive * V)) (k : positive) : bool :=
  match map_get m k with Some _ => true | None => false end.

Fixpoint map_set (m : list (positive * V)) (k : positive) (v : V)
  : list (positive * V) :=
  match m with
  | [] => [(k, v)]
  | (k', v') :: m' =>
      if Pos.eqb k k' then (k, v) :: m' else (k', v') :: map_set m' k v
  end.

Fixpoint map_delete (m : list (positive * V)) (k : positive)
  : list (positive * V) :=
  match m with
  | [] => []
  | (k', v') :: m' =>
      if Pos.eqb k k' then m' else (k', v') :: map_delete m' k
  end.

(** A plain object with integer keys: [for..in], [Object.values] and
    [Object.keys] enumerate such keys in ascending order. *)
Fixpoint obj_set (o : list (positive * V)) (k : positive) (v : V)
  : list (positive * V) :=
  match o with
  | [] => [(k, v)]
  | (k', v') :: o' =>
      match Pos.compare k k' with
      | Eq => (k, v) :: o'
      | Lt => (k, v) :: (k', v') :: o'
      | Gt => (k', v') :: obj_set o' k v
      end
  end.
End InsertionOrdered.

Definition set_has (s : list positive) (k : positive) : bool :=
  existsb (Pos.eqb k) s.

Definition set_add (s : list positive) (k : positive) : list positive :=
  if set_has s k then s else s ++ [k].

Definition set_delete (s : list positive) (k : positive) : list positive :=
  filter (fun k' => negb (Pos.eqb k k')) s.

(** ** The card manager's state (constructor of [CardManager]) *)

Record Point : Type := mkPoint { pt_x : Q; pt_y : Q }.

Record CardManager : Type := mkCardManager {
  cards : list (positive * Card);
  nextId : positive;
  activeCard : option positive;
  selectedCards : list positive;
  isDraggingCard : bool;
  draggedCard : option positive;          (* the element's data-card-id *)
  dragOffset : Point;
  multiDragOffsets : list (positive * Point);
  dragStartPositions : list (positive * Point);
  snapIndicators : option Q * option Q;
  isCtrlPressed : bool
}.

Definition SNAP_DISTANCE : Q := 5.

Definition newCardManager : CardManager :=
  mkCardManager [] 1%positive None [] false None (mkPoint 0 0) [] []
                (None, None) false.

(** ** Snapping (CardManager.applySnapping) *)

(** One entry of [xAlignments] / [yAlignments]. *)
Record Alignment : Type := mkAlignment {
  draggedPos : Q;
  targetPos : Q;
  snapLine : Q
}.

(** The running state of one axis: [minXDist], [snappedX], [snapLineX]. *)
Record AxisSnap : Type := mkAxisSnap {
  minDist : Q;
  snapped : Q;
  line : option Q
}.

(** The body of [xAlignments.forEach(align => ...)] for input coordinate
    [p]. *)
Definition snapStep (p : Q) (st : AxisSnap) (align : Alignment) : AxisSnap :=
  let dist := Qabs (draggedPos align - targetPos align) in
  if Qltb dist SNAP_DISTANCE && Qltb dist (minDist st)
  then mkAxisSnap dist (p + (targetPos align - draggedPos align))
                  (Some (snapLine align))
  else st.

(** [cardHeight] after the [=== 'auto'] test: the element's measured
    height for an auto card (every card in the board has its element). *)
Definition resolveHeight (offsetHeight : positive -> Q) (elementId : positive)
  (h : Height) : Q :=
  match h with
  | auto => offsetHeight elementId
  | px v => v
  end.

Definition xAlignments (x : Q) (draggedCardData cardData : Card)
  : list Alignment :=
  [ mkAlignment x (card_x cardData) (card_x cardData);
    mkAlignment x (card_x cardData + card_width cardData)
                  (card_x cardData + card_width cardData);
    mkAlignment (x + card_width draggedCardData) (card_x cardData)
                (card_x cardData);
    mkAlignment (x + card_width draggedCardData)
                (card_x cardData + card_width cardData)
                (card_x cardData + card_width cardData) ].

Definition yAlignments (y draggedHeight cardHeight : Q) (cardData : Card)
  : list Alignment :=
  [ mkAlignment y (card_y cardData) (card_y cardData);
    mkAlignment y (card_y cardData + cardHeight) (card_y cardData + cardHeight);
    mkAlignment (y + draggedHeight) (card_y cardData) (card_y cardData);
    mkAlignment (y + draggedHeight) (card_y cardData + cardHeight)
                (card_y cardData + cardHeight) ].

Record SnapResult : Type := mkSnapResult {
  snap_x : Q;
  snap_y : Q;
  snapLineX : option Q;
  snapLineY : option Q
}.

(** The [for (const [id, cardData] of this.cards)] loop, both axes carried
    along. *)
Fixpoint snapLoop (offsetHeight : positive -> Q) (x y : Q)
  (draggedCardData : Card) (excludeCards : list positive)
  (entries : list (positive * Card)) (sx sy : AxisSnap)
  : AxisSnap * AxisSnap :=
  match entries with
  | [] => (sx, sy)
  | (id, cardData) :: rest =>
      if set_has excludeCards id
      then snapLoop offsetHeight x y draggedCardData excludeCards rest sx sy
      else
        let cardHeight := resolveHeight offsetHeight id (card_height cardData) in
        let draggedHeight :=
          resolveHeight offsetHeight (card_id draggedCardData)
                        (card_height draggedCardData) in
        let sx' := fold_left (snapStep x)
                     (xAlignments x draggedCardData cardData) sx in
        let sy' := fold_left (snapStep y)
                     (yAlignments y draggedHeight cardHeight cardData) sy in
        snapLoop offsetHeight x y draggedCardData excludeCards rest sx' sy'
  end.

Definition applySnapping (offsetHeight : positive -> Q) (cm : CardManager)
  (x y : Q) (draggedCardData : Card) (excludeCards : list positive)
  : SnapResult :=
  let '(sx, sy) :=
    snapLoop offsetHeight x y draggedCardData excludeCards (cards cm)
      (mkAxisSnap (SNAP_DISTANCE + 1) x None)
      (mkAxisSnap (SNAP_DISTANCE + 1) y None) in
  mkSnapResult (snapped sx) (snapped sy) (line sx) (line sy).

(* ================================================================== *)
(** * World: pan and zoom (class World)                              *)
(* ================================================================== *)

Record World : Type := mkWorld {
  isDragging : bool;
  startX : Q;
  startY : Q;
  translateX : Q;
  translateY : Q;
  targetScale : Q;
  targetTX : Q;
  targetTY : Q;
  rafId : bool;                 (* [rafId !== null]: a frame is scheduled *)
  scale : Q
}.

Definition DAMPING : Q := 2 # 10.

(** The constructor's values; [init] then calls [centerView]. *)
Definition newWorld : World :=
  mkWorld false 0 0 0 0 1 0 0 false 1.

Record MouseEvent : Type := mkMouseEvent {
  clientX : Q;
  clientY : Q;
  button : Z
}.

(** [viewport.getBoundingClientRect()]. *)
Record Rect : Type := mkRect {
  rect_left : Q;
  rect_top : Q;
  rect_width : Q;
  rect_height : Q
}.

Definition centerView (rect : Rect) (w : World) : World :=
  mkWorld (isDragging w) (startX w) (startY w)
          (rect_width rect / 2) (rect_height rect / 2)
          (targetScale w) (rect_width rect / 2) (rect_height rect / 2)
          (rafId w) (scale w).






Section Wheel.
(** [Math.exp], as the runtime computes it. *)
Variable Math_exp : Q -> Q.

End Wheel.

(** One frame of [animate]: lerp, then keep or drop the frame request. *)
Definition animate (w : World) : World :=
  let tx := translateX w + (targetTX w - translateX w) * DAMPING in
  let ty := translateY w + (targetTY w - translateY w) * DAMPING in
  let sc := scale w + (targetScale w - scale w) * DAMPING in
  let done :=
    Qltb (Qabs (targetTX w - tx)) (1 # 100)
    && Qltb (Qabs (targetTY w - ty)) (1 # 100)
    && Qltb (Qabs (targetScale w - sc)) (1 # 10000) in
  mkWorld (isDragging w) (startX w) (startY w) tx ty
          (targetScale w) (targetTX w) (targetTY w) (negb done) sc.

Definition screenToWorld (w : World) (screenX screenY : Q) : Point :=
  mkPoint ((screenX - translateX w) / scale w)
          ((screenY - translateY w) / scale w).

Definition worldToScreen (w : World) (worldX worldY : Q) : Point :=
  mkPoint (worldX * scale w + translateX w)
          (worldY * scale w + translateY w).


(** The persisted [worldState] object: any field may be missing. *)
Record WorldState : Type := mkWorldState {
  ws_translateX : option Q;
  ws_translateY : option Q;
  ws_scale : option Q;
  ws_targetTX : option Q;
  ws_targetTY : option Q;
  ws_targetScale : option Q
}.

(** Storage.getWorldState. *)
Definition getWorldState (w : World) : WorldState :=
  mkWorldState (Some (translateX w)) (Some (translateY w)) (Some (scale w))
               (Some (targetTX w)) (Some (targetTY w)) (Some (targetScale w)).

(** Storage.applyWorldState, for a [worldState] that is present. *)
Definition applyWorldState (ws : WorldState) (w : World) : World :=
  let '(tx, ttx) :=
    match ws_translateX ws with
    | Some v => (v, js_or truthyQ (ws_targetTX ws) v)
    | None => (translateX w, targetTX w)
    end in
  let '(ty, tty) :=
    match ws_translateY ws with
    | Some v => (v, js_or truthyQ (ws_targetTY ws) v)
    | None => (translateY w, targetTY w)
    end in
  let '(sc, tsc) :=
    match ws_scale ws with
    | Some v => (v, js_or truthyQ (ws_targetScale ws) v)
    | None => (scale w, targetScale w)
    end in
  mkWorld (isDragging w) (startX w) (startY w) tx ty tsc ttx tty (rafId w) sc.

(** [reset] of the application sets both scales to 1. *)
Definition resetScale (w : World) : World :=
  mkWorld (isDragging w) (startX w) (startY w) (translateX w) (translateY w)
          1 (targetTX w) (targetTY w) (rafId w) 1.

(* ================================================================== *)
(** * Card store operations (class CardManager)                      *)
(* ================================================================== *)

Definition with_cards (cm : CardManager) (cs : list (positive * Card))
  : CardManager :=
  mkCardManager cs (nextId cm) (activeCard cm) (selectedCards cm)
    (isDraggingCard cm) (draggedCard cm) (dragOffset cm)
    (multiDragOffsets cm) (dragStartPositions cm) (snapIndicators cm)
    (isCtrlPressed cm).

Definition with_nextId (cm : CardManager) (n : positive) : CardManager :=
  mkCardManager (cards cm) n (activeCard cm) (selectedCards cm)
    (isDraggingCard cm) (draggedCard cm) (dragOffset cm)
    (multiDragOffsets cm) (dragStartPositions cm) (snapIndicators cm)
    (isCtrlPressed cm).

Definition with_activeCard (cm : CardManager) (a : option positive)
  : CardManager :=
  mkCardManager (cards cm) (nextId cm) a (selectedCards cm)
    (isDraggingCard cm) (draggedCard cm) (dragOffset cm)
    (multiDragOffsets cm) (dragStartPositions cm) (snapIndicators cm)
    (isCtrlPressed cm).

Definition with_selectedCards (cm : CardManager) (s : list positive)
  : CardManager :=
  mkCardManager (cards cm) (nextId cm) (activeCard cm) s
    (isDraggingCard cm) (draggedCard cm) (dragOffset cm)
    (multiDragOffsets cm) (dragStartPositions cm) (snapIndicators cm)
    (isCtrlPressed cm).

Definition with_snapIndicators (cm : CardManager) (s : option Q * option Q)
  : CardManager :=
  mkCardManager (cards cm) (nextId cm) (activeCard cm) (selectedCards cm)
    (isDraggingCard cm) (draggedCard cm) (dragOffset cm)
    (multiDragOffsets cm) (dragStartPositions cm) s (isCtrlPressed cm).

(** The drag fields written together by [startDragging] / [endDragging]. *)
Definition with_drag (cm : CardManager) (dragging : bool)
  (el : option positive) (off : Point) (offs starts : list (positive * Point))
  : CardManager :=
  mkCardManager (cards cm) (nextId cm) (activeCard cm) (selectedCards cm)
    dragging el off offs starts (snapIndicators cm) (isCtrlPressed cm).

Definition defaultContent : string := "<p>New card content...</p>".

(** [{ ...base, ...data }]: a field present in [data] wins. *)
Definition spread (base : Card) (data : CardData) : Card :=
  mkCard (match data_id data with Some v => v | None => card_id base end)
         (match data_x data with Some v => v | None => card_x base end)
         (match data_y data with Some v => v | None => card_y base end)
         (match data_width data with Some v => v | None => card_width base end)
         (match data_height data with Some v => v | None => card_height base end)
         (match data_content data with
          | Some v => v | None => card_content base end).

(** CardManager.createCard: returns the stored record and the new state. *)
Definition createCard (data : CardData) (cm : CardManager)
  : Card * CardManager :=
  let '(id, next) :=
    match data_id data with
    | Some i => (i, nextId cm)
    | None => (nextId cm, Pos.succ (nextId cm))
    end in
  let cardData :=
    spread (mkCard id
                   (js_or truthyQ (data_x data) 0)
                   (js_or truthyQ (data_y data) 0)
                   (js_or truthyQ (data_width data) 300)
                   (match data_height data with Some h => h | None => auto end)
                   (js_or truthyS (data_content data) defaultContent))
           data in
  let cs := map_set (cards cm) id cardData in
  let next' := if Pos.leb next id then Pos.succ id else next in
  (cardData, with_nextId (with_cards cm cs) next').

(** CardManager.loadCards. *)
Definition loadCards (cardsData : list CardData) (cm : CardManager)
  : CardManager :=
  fold_left (fun acc cardData => snd (createCard cardData acc)) cardsData
            (with_selectedCards (with_cards cm []) []).

(** CardManager.getAllCards, [Array.from(this.cards.values())]. *)
Definition getAllCards (cm : CardManager) : list Card := map snd (cards cm).

(* ================================================================== *)
(** * History (class UndoRedoManager)                                *)
(* ================================================================== *)

(** What [captureCurrentState] returns.  [snap_cards] is a plain object
    keyed by card id. *)
Record Snapshot : Type := mkSnapshot {
  snap_cards : list (positive * Card);
  snap_selectedCards : list positive;
  snap_activeCard : option positive
}.

(** The [data] argument of [saveState], in the shapes the callers use. *)
Inductive EntryData : Type :=
| data_none
| data_drag (cardIds : list positive)
            (startPositions finalPositions : list (positive * Point))
| data_contentChange (cardId : positive) (oldContent newContent : string)
| data_cardIds (cardIds : list positive)
| data_cardId (cardId : positive)
| data_resizeWidth (cardId : positive) (oldWidth newWidth : Q)
| data_resizeHeight (cardId : positive) (oldHeight newHeight : Height).

Record HistoryEntry : Type := mkHistoryEntry {
  operation : string;
  timestamp : Z;
  state : Snapshot;
  data : EntryData
}.

Record PendingDrag : Type := mkPendingDrag {
  pd_operation : string;
  pd_cardIds : list positive;
  pd_startPositions : list (positive * Point);
  pd_timestamp : Z
}.

Record UndoRedoManager : Type := mkUndoRedoManager {
  history : list HistoryEntry;
  currentIndex : Z;
  isPerformingUndoRedo : bool;
  contentChangeTimeout : option (positive * string * string);
  pendingDragOperation : option PendingDrag
}.

Definition maxHistorySize : Z := 50.

Definition newUndoRedoManager : UndoRedoManager :=
  mkUndoRedoManager [] (-1) false None None.

Definition with_flag (m : UndoRedoManager) (b : bool) : UndoRedoManager :=
  mkUndoRedoManager (history m) (currentIndex m) b
                    (contentChangeTimeout m) (pendingDragOperation m).

Definition with_index (m : UndoRedoManager) (i : Z) : UndoRedoManager :=
  mkUndoRedoManager (history m) i (isPerformingUndoRedo m)
                    (contentChangeTimeout m) (pendingDragOperation m).

Definition with_pending (m : UndoRedoManager) (p : option PendingDrag)
  : UndoRedoManager :=
  mkUndoRedoManager (history m) (currentIndex m) (isPerformingUndoRedo m)
                    (contentChangeTimeout m) p.

Definition with_contentTimeout (m : UndoRedoManager)
  (t : option (positive * string * string)) : UndoRedoManager :=
  mkUndoRedoManager (history m) (currentIndex m) (isPerformingUndoRedo m)
                    t (pendingDragOperation m).

(** UndoRedoManager.captureCurrentState. *)
Definition captureCurrentState (cm : CardManager) : Snapshot :=
  mkSnapshot
    (fold_left
       (fun o (entry : positive * Card) =>
          let '(cardId, cardData) := entry in
          obj_set o cardId
            (mkCard (card_id cardData) (card_x cardData) (card_y cardData)
                    (card_width cardData) (card_height cardData)
                    (card_content cardData)))
       (cards cm) [])
    (selectedCards cm)
    (activeCard cm).

Definition canUndo (m : UndoRedoManager) : bool := (currentIndex m >? 0)%Z.

Definition canRedo (m : UndoRedoManager) : bool :=
  (currentIndex m <? Z.of_nat (List.length (history m)) - 1)%Z.

(** UndoRedoManager.saveState; [now] is [Date.now()]. *)
Definition saveState (now : Z) (op : string) (d : EntryData)
  (cm : CardManager) (m : UndoRedoManager) : UndoRedoManager :=
  if isPerformingUndoRedo m then m
  else
    let historyEntry := mkHistoryEntry op now (captureCurrentState cm) d in
    let h1 :=
      if (currentIndex m <? Z.of_nat (List.length (history m)) - 1)%Z
      then slice0 (history m) (currentIndex m + 1)
      else history m in
    let h2 := h1 ++ [historyEntry] in
    let i2 := (currentIndex m + 1)%Z in
    if (Z.of_nat (List.length h2) >? maxHistorySize)%Z
    then mkUndoRedoManager (tl h2) (i2 - 1) (isPerformingUndoRedo m)
                           (contentChangeTimeout m) (pendingDragOperation m)
    else mkUndoRedoManager h2 i2 (isPerformingUndoRedo m)
                           (contentChangeTimeout m) (pendingDragOperation m).

(** UndoRedoManager.saveDragState. *)
Definition saveDragState (now : Z) (op : string) (cardIds : list positive)
  (startPositions : list (positive * Point)) (m : UndoRedoManager)
  : UndoRedoManager :=
  if isPerformingUndoRedo m then m
  else with_pending m (Some (mkPendingDrag op cardIds startPositions now)).

(** The [finalPositions] object built by the first loop of
    [finishDragOperation]. *)
Definition finalPositionsOf (cm : CardManager) (cardIds : list positive)
  : list (positive * Point) :=
  fold_left
    (fun o cardId =>
       match map_get (cards cm) cardId with
       | Some card => obj_set o cardId (mkPoint (card_x card) (card_y card))
       | None => o
       end)
    cardIds [].

(** The [hasChanged] loop of [finishDragOperation]. *)
Definition hasChanged (cardIds : list positive)
  (startPositions finalPositions : list (positive * Point)) : bool :=
  existsb
    (fun cardId =>
       match map_get startPositions cardId, map_get finalPositions cardId with
       | Some start, Some final =>
           Qneqb (pt_x start) (pt_x final) || Qneqb (pt_y start) (pt_y final)
       | _, _ => false
       end)
    cardIds.

(** UndoRedoManager.finishDragOperation. *)
Definition finishDragOperation (now : Z) (cm : CardManager)
  (m : UndoRedoManager) : UndoRedoManager :=
  match pendingDragOperation m with
  | Some pending =>
      if isPerformingUndoRedo m then m
      else
        let finalPositions := finalPositionsOf cm (pd_cardIds pending) in
        let m1 :=
          if hasChanged (pd_cardIds pending) (pd_startPositions pending)
                        finalPositions
          then saveState now (pd_operation pending)
                 (data_drag (pd_cardIds pending) (pd_startPositions pending)
                            finalPositions)
                 cm m
          else m in
        with_pending m1 None
  | None => m
  end.

(** UndoRedoManager.saveContentState: (re)arms the debounce timer. *)
Definition saveContentState (cardId : positive) (oldContent newContent : string)
  (m : UndoRedoManager) : UndoRedoManager :=
  if isPerformingUndoRedo m then m
  else with_contentTimeout m (Some (cardId, oldContent, newContent)).

(** The timer callback armed by [saveContentState]. *)
Definition contentTimeoutFires (now : Z) (cm : CardManager)
  (m : UndoRedoManager) : UndoRedoManager :=
  match contentChangeTimeout m with
  | Some (cardId, oldContent, newContent) =>
      let m1 :=
        if String.eqb oldContent newContent then m
        else saveState now "content_change"
               (data_contentChange cardId oldContent newContent) cm m in
      with_contentTimeout m1 None
  | None => m
  end.

(** UndoRedoManager.clearHistory. *)
Definition clearHistory (m : UndoRedoManager) : UndoRedoManager :=
  mkUndoRedoManager [] (-1) (isPerformingUndoRedo m) None None.

(** UndoRedoManager.initialize. *)
Definition initialize (now : Z) (cm : CardManager) (m : UndoRedoManager)
  : UndoRedoManager :=
  saveState now "initial_state" data_none cm m.

(* ================================================================== *)
(** * Sidebar and Storage, as far as the core reaches them           *)
(* ================================================================== *)

(** [currentCard] holds the card object handed to [open]; of it only [id]
    and [content] are read back. *)
Record Sidebar : Type := mkSidebar {
  isOpen : bool;
  currentCard : option Card;
  lastSavedContent : string;
  sidebarContentTimeout : bool     (* [contentChangeTimeout] is armed *)
}.

Definition newSidebar : Sidebar := mkSidebar false None "" false.

(** The document [saveData] writes under [STORAGE_KEY]. *)
Record Persisted : Type := mkPersisted {
  saved_cards : list CardData;
  saved_worldState : WorldState;
  saved_version : string;
  saved_timestamp : Z
}.

Record Storage : Type := mkStorage {
  localStorage : option Persisted;
  autoSaveTimeout : option (list Card)   (* armed by [saveCards] *)
}.

Definition newStorage : Storage := mkStorage None None.

Definition emptyWorldState : WorldState :=
  mkWorldState None None None None None None.

(** Storage.saveData.  [writable = false] is [localStorage.setItem]
    throwing: the [catch] logs and nothing is stored. *)
Definition saveData (now : Z) (writable : bool) (cs : list CardData)
  (ws : option WorldState) (s : Storage) : Storage :=
  if writable
  then mkStorage
         (Some (mkPersisted cs
                  (match ws with Some v => v | None => emptyWorldState end)
                  "1.0" now))
         (autoSaveTimeout s)
  else s.

(** Storage.saveCards: cancels the armed timer and arms a new one. *)
Definition saveCards (cs : list Card) (s : Storage) : Storage :=
  mkStorage (localStorage s) (Some cs).

(** The whole application: the five objects hung on [window]. *)
Record App : Type := mkApp {
  world : World;
  cardManager : CardManager;
  sidebar : Sidebar;
  storage : Storage;
  undoRedoManager : UndoRedoManager
}.

Definition newApp : App :=
  mkApp newWorld newCardManager newSidebar newStorage newUndoRedoManager.

Definition with_cardManager (a : App) (cm : CardManager) : App :=
  mkApp (world a) cm (sidebar a) (storage a) (undoRedoManager a).

Definition with_undoRedoManager (a : App) (m : UndoRedoManager) : App :=
  mkApp (world a) (cardManager a) (sidebar a) (storage a) m.

Definition with_storage (a : App) (s : Storage) : App :=
  mkApp (world a) (cardManager a) (sidebar a) s (undoRedoManager a).

Definition with_world (a : App) (w : World) : App :=
  mkApp w (cardManager a) (sidebar a) (storage a) (undoRedoManager a).

(** Sidebar.close. *)
Definition sidebarClose (a : App) : App :=
  let sb := sidebar a in
  let m1 :=
    if sidebarContentTimeout sb
    then match currentCard sb with
         | Some cur =>
             if negb (String.eqb (lastSavedContent sb) (card_content cur))
             then saveContentState (card_id cur) (lastSavedContent sb)
                                   (card_content cur) (undoRedoManager a)
             else undoRedoManager a
         | None => undoRedoManager a
         end
    else undoRedoManager a in
  mkApp (world a)
        (match activeCard (cardManager a) with
         | Some _ => with_activeCard (cardManager a) None
         | None => cardManager a
         end)
        (mkSidebar false None "" false)
        (storage a)
        m1.

(** Sidebar.open. *)
Definition sidebarOpen (cardData : Card) (sb : Sidebar) : Sidebar :=
  mkSidebar true (Some cardData) (card_content cardData)
            (sidebarContentTimeout sb).

(** CardManager.deleteCard. *)
Definition deleteCard (id : positive) (a : App) : App :=
  let cm := cardManager a in
  let cm1 :=
    with_selectedCards (with_cards cm (map_delete (cards cm) id))
                       (set_delete (selectedCards cm) id) in
  let a1 := with_cardManager a cm1 in
  let a2 :=
    match activeCard cm1 with
    | Some act =>
        if Pos.eqb act id
        then sidebarClose (with_cardManager a1 (with_activeCard cm1 None))
        else a1
    | None => a1
    end in
  with_storage a2 (saveCards (getAllCards (cardManager a2)) (storage a2)).

(* ================================================================== *)
(** * Restoring a snapshot: applyState, undo, redo                   *)
(* ================================================================== *)

(** The [try] block of [applyState], run with the guard flag already set. *)
Definition applyStateBody (st : Snapshot) (a : App) : App :=
  let cm0 := with_selectedCards (with_cards (cardManager a) []) [] in
  let cm1 :=
    fold_left (fun acc cardData => snd (createCard (dataOfCard cardData) acc))
              (map snd (snap_cards st)) cm0 in
  let cm2 :=
    with_selectedCards cm1 (fold_left set_add (snap_selectedCards st) []) in
  let a2 := with_cardManager a cm2 in
  let a3 :=
    match snap_activeCard st with
    | Some act =>
        if map_has (cards cm2) act
        then with_cardManager a2 (with_activeCard cm2 (Some act))
        else sidebarClose (with_cardManager a2 (with_activeCard cm2 None))
    | None => sidebarClose (with_cardManager a2 (with_activeCard cm2 None))
    end in
  with_storage a3 (saveCards (getAllCards (cardManager a3)) (storage a3)).

(** UndoRedoManager.applyState: flag up, body, flag down in [finally]. *)
Definition applyState (st : Snapshot) (a : App) : App :=
  let a1 := with_undoRedoManager a (with_flag (undoRedoManager a) true) in
  let a2 := applyStateBody st a1 in
  with_undoRedoManager a2 (with_flag (undoRedoManager a2) false).

(** UndoRedoManager.undo.  The answer is [Some b] for [return b]; [None]
    stands for the [TypeError] raised when [history[currentIndex]] is
    [undefined]. *)
Definition undo (a : App) : option bool * App :=
  let m := undoRedoManager a in
  if negb (canUndo m) then (Some false, a)
  else
    let a1 := with_undoRedoManager a (with_index m (currentIndex m - 1)) in
    match js_nth (history m) (currentIndex m - 1) with
    | Some stateToRestore => (Some true, applyState (state stateToRestore) a1)
    | None => (None, a1)
    end.

(** UndoRedoManager.redo. *)
Definition redo (a : App) : option bool * App :=
  let m := undoRedoManager a in
  if negb (canRedo m) then (Some false, a)
  else
    let a1 := with_undoRedoManager a (with_index m (currentIndex m + 1)) in
    match js_nth (history m) (currentIndex m + 1) with
    | Some stateToRestore => (Some true, applyState (state stateToRestore) a1)
    | None => (None, a1)
    end.

(* ================================================================== *)
(** * The drag gesture (startDragging, updateCardDrag, endDragging)  *)
(* ================================================================== *)

Definition positionOf (c : Card) : Point := mkPoint (card_x c) (card_y c).

(** [cardData.x = nx; cardData.y = ny] on the object stored in the map. *)
Definition moveCard (cs : list (positive * Card)) (cardId : positive)
  (nx ny : Q) : list (positive * Card) :=
  match map_get cs cardId with
  | Some c =>
      map_set cs cardId
        (mkCard (card_id c) nx ny (card_width c) (card_height c)
                (card_content c))
  | None => cs
  end.

(** The [selectedCards.forEach] of [startDragging]: start positions and
    pointer offsets of the selected cards that exist. *)
Definition dragEntries (cs : list (positive * Card)) (mouse : Point)
  (ids : list positive)
  : list (positive * Point) * list (positive * Point) :=
  fold_left
    (fun (acc : list (positive * Point) * list (positive * Point)) selectedId =>
       match map_get cs selectedId with
       | Some selectedCard =>
           (map_set (fst acc) selectedId (positionOf selectedCard),
            map_set (snd acc) selectedId
              (mkPoint (pt_x mouse - card_x selectedCard)
                       (pt_y mouse - card_y selectedCard)))
       | None => acc
       end)
    ids ([], []).

(** CardManager.startDragging on the element of card [cardId].  The answer
    [None] is the [TypeError] of reading [cardData.x] off a missing card. *)
Definition startDragging (now : Z) (cardId : positive) (e : MouseEvent)
  (a : App) : option unit * App :=
  let cm := cardManager a in
  let mouseWorldPos := screenToWorld (world a) (clientX e) (clientY e) in
  if set_has (selectedCards cm) cardId
  then
    let cardIds := selectedCards cm in
    let '(startPositions, offsets) :=
      dragEntries (cards cm) mouseWorldPos cardIds in
    let op := if (1 <? List.length cardIds)%nat
              then "multi_card_move"%string else "card_move"%string in
    (Some tt,
     mkApp (world a)
           (with_drag cm true (Some cardId) (dragOffset cm) offsets
                      startPositions)
           (sidebar a) (storage a)
           (saveDragState now op cardIds startPositions (undoRedoManager a)))
  else
    match map_get (cards cm) cardId with
    | Some cardData =>
        (Some tt,
         mkApp (world a)
               (with_drag cm true (Some cardId)
                  (mkPoint (pt_x mouseWorldPos - card_x cardData)
                           (pt_y mouseWorldPos - card_y cardData))
                  [] [(cardId, positionOf cardData)])
               (sidebar a) (storage a)
               (saveDragState now "card_move" [cardId]
                  [(cardId, positionOf cardData)] (undoRedoManager a)))
    | None =>
        (None,
         with_cardManager a (with_drag cm true (Some cardId) (dragOffset cm)
                                       [] []))
    end.

(** [applySnapping] called with [this.cards.get(id)]: a missing dragged
    card is only dereferenced inside the loop body. *)
Definition applySnappingAt (offsetHeight : positive -> Q) (cm : CardManager)
  (x y : Q) (draggedId : positive) (excludeCards : list positive)
  : option SnapResult :=
  match map_get (cards cm) draggedId with
  | Some draggedCardData =>
      Some (applySnapping offsetHeight cm x y draggedCardData excludeCards)
  | None =>
      if forallb (fun entry : positive * Card =>
                    set_has excludeCards (fst entry)) (cards cm)
      then Some (mkSnapResult x y None None)
      else None
  end.

(** The [multiDragOffsets.forEach] of [updateCardDrag]. *)
Definition moveGroup (cs : list (positive * Card)) (mouse : Point)
  (deltaX deltaY : Q) (offsets : list (positive * Point))
  : list (positive * Card) :=
  fold_left
    (fun acc (entry : positive * Point) =>
       let '(cardId, offset) := entry in
       moveCard acc cardId
                (pt_x mouse - pt_x offset + deltaX)
                (pt_y mouse - pt_y offset + deltaY))
    offsets cs.

(** CardManager.updateCardDrag. *)
Definition updateCardDrag (offsetHeight : positive -> Q) (e : MouseEvent)
  (a : App) : option unit * App :=
  let cm := cardManager a in
  match draggedCard cm with
  | None => (Some tt, a)
  | Some draggedCardId =>
      let mouseWorldPos := screenToWorld (world a) (clientX e) (clientY e) in
      match multiDragOffsets cm with
      | _ :: _ =>
          match map_get (multiDragOffsets cm) draggedCardId with
          | Some draggedOffset =>
              let newX := pt_x mouseWorldPos - pt_x draggedOffset in
              let newY := pt_y mouseWorldPos - pt_y draggedOffset in
              match applySnappingAt offsetHeight cm newX newY draggedCardId
                                    (selectedCards cm) with
              | Some snappedTo =>
                  let deltaX := snap_x snappedTo - newX in
                  let deltaY := snap_y snappedTo - newY in
                  let cs := moveGroup (cards cm) mouseWorldPos deltaX deltaY
                                      (multiDragOffsets cm) in
                  (Some tt,
                   with_cardManager a
                     (with_snapIndicators (with_cards cm cs)
                        (snapLineX snappedTo, snapLineY snappedTo)))
              | None => (None, a)
              end
          | None =>
              (Some tt,
               with_cardManager a (with_snapIndicators cm (None, None)))
          end
      | [] =>
          match map_get (cards cm) draggedCardId with
          | Some cardData =>
              let newX := pt_x mouseWorldPos - pt_x (dragOffset cm) in
              let newY := pt_y mouseWorldPos - pt_y (dragOffset cm) in
              let snappedTo :=
                applySnapping offsetHeight cm newX newY cardData
                              [draggedCardId] in
              (Some tt,
               with_cardManager a
                 (with_snapIndicators
                    (with_cards cm
                       (moveCard (cards cm) draggedCardId
                                 (snap_x snappedTo) (snap_y snappedTo)))
                    (snapLineX snappedTo, snapLineY snappedTo)))
          | None =>
              (* [applySnapping] may still return when its loop body never
                 runs; the indicators are then cleared before
                 [cardData.x = newX] raises *)
              match applySnappingAt offsetHeight cm
                      (pt_x mouseWorldPos - pt_x (dragOffset cm))
                      (pt_y mouseWorldPos - pt_y (dragOffset cm))
                      draggedCardId [draggedCardId] with
              | Some _ =>
                  (None,
                   with_cardManager a (with_snapIndicators cm (None, None)))
              | None => (None, a)
              end
          end
      end
  end.

(** CardManager.endDragging. *)
Definition endDragging (now : Z) (a : App) : App :=
  let cm := cardManager a in
  let a1 :=
    match draggedCard cm with
    | Some _ =>
        mkApp (world a)
              (with_drag cm (isDraggingCard cm) None (dragOffset cm) [] [])
              (sidebar a)
              (saveCards (getAllCards cm) (storage a))
              (finishDragOperation now cm (undoRedoManager a))
    | None => a
    end in
  let cm1 := cardManager a1 in
  with_cardManager a1
    (with_snapIndicators
       (with_drag cm1 false (draggedCard cm1) (dragOffset cm1)
                  (multiDragOffsets cm1) (dragStartPositions cm1))
       (None, None)).

(** A run of pointer movements of one gesture; it stops at the first
    movement that raises. *)
Fixpoint dragMoves (offsetHeight : positive -> Q) (es : list MouseEvent)
  (a : App) : option unit * App :=
  match es with
  | [] => (Some tt, a)
  | e :: es' =>
      match updateCardDrag offsetHeight e a with
      | (Some _, a') => dragMoves offsetHeight es' a'
      | (None, a') => (None, a')
      end
  end.

(* ================================================================== *)
(** * Import (Storage.importData and its caller)                     *)
(* ================================================================== *)

(** The [cards] property of the parsed document, as the validation
    [data.cards && Array.isArray(data.cards)] sees it. *)
Inductive CardsField : Type :=
| cards_missing                           (* [undefined] *)
| cards_notArray                          (* any value but an array *)
| cards_array (entries : list CardData).

(** What the [FileReader] and [JSON.parse] make of the uploaded file. *)
Inductive ImportInput : Type :=
| file_unreadable                         (* [reader.onerror] *)
| json_unparsable (message : string)      (* [JSON.parse] throws *)
| json_null                               (* the text [null] *)
| json_document (cardsField : CardsField) (worldState : option WorldState).

Inductive JsError : Type :=
| Error (message : string)
| SyntaxError (message : string)
| TypeError.

(** How the promise returned by [importData] settles. *)
Inductive Settled : Type :=
| resolved
| rejected (reason : JsError).

(** Storage.importData: the settled promise and the state it leaves. *)
Definition importData (now : Z) (writable : bool) (file : ImportInput)
  (a : App) : Settled * App :=
  match file with
  | file_unreadable => (rejected (Error "Failed to read file"), a)
  | json_unparsable message => (rejected (SyntaxError message), a)
  | json_null => (rejected TypeError, a)
  | json_document (cards_array entries) worldState =>
      let s1 := saveData now writable entries worldState (storage a) in
      let cm1 := loadCards entries (cardManager a) in
      let w1 := match worldState with
                | Some ws => applyWorldState ws (world a)
                | None => world a
                end in
      (resolved, mkApp w1 cm1 (sidebar a) s1 (undoRedoManager a))
  | json_document _ _ => (rejected (Error "Invalid data format"), a)
  end.

(** The document passed validation. *)
Definition validDocument (file : ImportInput) : bool :=
  match file with
  | json_document (cards_array _) _ => true
  | _ => false
  end.


(* ================================================================== *)
(** * Running the application                                        *)
(* ================================================================== *)

(** Any change the user makes to the card store between two history
    calls. *)
Definition appEdit (cm : CardManager) (a : App) : App :=
  with_cardManager a cm.

(** [window.undoRedoManager.saveState(op, d)] on the live board. *)
Definition appSave (now : Z) (op : string) (d : EntryData) (a : App) : App :=
  with_undoRedoManager a
    (saveState now op d (cardManager a) (undoRedoManager a)).

Inductive HistoryOp : Type :=
| op_edit (cm : CardManager)
| op_saveState (now : Z) (op : string) (d : EntryData)
| op_undo
| op_redo
| op_clearHistory
| op_initialize (now : Z).

Definition historyStep (a : App) (o : HistoryOp) : App :=
  match o with
  | op_edit cm => appEdit cm a
  | op_saveState now op d => appSave now op d a
  | op_undo => snd (undo a)
  | op_redo => snd (redo a)
  | op_clearHistory =>
      with_undoRedoManager a (clearHistory (undoRedoManager a))
  | op_initialize now =>
      with_undoRedoManager a
        (initialize now (cardManager a) (undoRedoManager a))
  end.

Definition runHistory (ops : list HistoryOp) (a : App) : App :=
  fold_left historyStep ops a.

(** [k] calls of [undo] (of [redo]) in a row, with every answer. *)
Fixpoint undoTimes (k : nat) (a : App) : list (option bool) * App :=
  match k with
  | O => ([], a)
  | S k' =>
      let '(r, a1) := undo a in
      let '(rs, a2) := undoTimes k' a1 in
      (r :: rs, a2)
  end.

Fixpoint redoTimes (k : nat) (a : App) : list (option bool) * App :=
  match k with
  | O => ([], a)
  | S k' =>
      let '(r, a1) := redo a in
      let '(rs, a2) := redoTimes k' a1 in
      (r :: rs, a2)
  end.

(** One [saveState] per board of the list, the board being whatever the
    user made of it before the call. *)
Definition saveAll (boards : list (Z * string * EntryData * CardManager))
  (a : App) : App :=
  fold_left
    (fun acc (call : Z * string * EntryData * CardManager) =>
       let '(now, op, d, cm) := call in
       appSave now op d (appEdit cm acc))
    boards a.

(** The index is a valid position of the history, the history respects
    its capacity and no restore is in progress. *)
Definition historyOk (m : UndoRedoManager) : Prop :=
  (Z.of_nat (List.length (history m)) <= maxHistorySize)%Z
  /\ (-1 <= currentIndex m <= Z.of_nat (List.length (history m)) - 1)%Z
  /\ isPerformingUndoRedo m = false.

(* ================================================================== *)
(** * Well-formed boards and snapshots                               *)
(* ================================================================== *)

Definition keyLt {V : Type} (p q : positive * V) : Prop :=
  (fst p < fst q)%positive.

(** The enumeration order of a plain object with integer keys. *)
Definition ascending {V : Type} (o : list (positive * V)) : Prop :=
  StronglySorted keyLt o.

(** A card sits under its own id. *)
Definition keyedById (entry : positive * Card) : Prop :=
  card_id (snd entry) = fst entry.

(** What [createCard], [moveCard] and the [Set] of selected ids maintain. *)
Definition boardOk (cm : CardManager) : Prop :=
  Forall keyedById (cards cm) /\ NoDup (selectedCards cm).

Definition snapshotOk (st : Snapshot) : Prop :=
  ascending (snap_cards st)
  /\ Forall keyedById (snap_cards st)
  /\ NoDup (snap_selectedCards st).

(** The active id [applyState] installs: the snapshot's, if that card
    exists among the recreated ones. *)
Definition restoredActive (st : Snapshot) : option positive :=
  match snap_activeCard st with
  | Some act => if map_has (snap_cards st) act then Some act else None
  | None => None
  end.

Definition captureStep (o : list (positive * Card)) (entry : positive * Card)
  : list (positive * Card) :=
  let '(cardId, cardData) := entry in
  obj_set o cardId
    (mkCard (card_id cardData) (card_x cardData) (card_y cardData)
            (card_width cardData) (card_height cardData)
            (card_content cardData)).

(** The entry a [saveState] call writes. *)
Definition entryOf (call : Z * string * EntryData * CardManager)
  : HistoryEntry :=
  let '(now, op, d, cm) := call in
  mkHistoryEntry op now (captureCurrentState cm) d.

Definition boardOf (call : Z * string * EntryData * CardManager)
  : CardManager := snd call.

(* ================================================================== *)
(** * Viewport invariants and runs                                   *)
(* ================================================================== *)


(** The viewport has settled: the current transform is the target. *)
Definition atRest (w : World) : Prop :=
  translateX w == targetTX w /\ translateY w == targetTY w
  /\ scale w == targetScale w.






(* ================================================================== *)
(** * Import outcomes                                                *)
(* ================================================================== *)


(* ================================================================== *)
(** * The snap resolver's specification                              *)
(* ================================================================== *)

(** The distance of an alignment candidate. *)
Definition alignDist (a : Alignment) : Q :=
  Qabs (draggedPos a - targetPos a).

(** The cards the loop does not skip, in iteration order. *)
Definition stationaryCards (entries : list (positive * Card))
  (excludeCards : list positive) : list (positive * Card) :=
  filter (fun entry => negb (set_has excludeCards (fst entry))) entries.

(** All candidates of an axis, in the order the loop meets them. *)
Definition xCandidates (entries : list (positive * Card)) (x : Q)
  (draggedCardData : Card) (excludeCards : list positive) : list Alignment :=
  flat_map (fun entry => xAlignments x draggedCardData (snd entry))
           (stationaryCards entries excludeCards).

Definition yCandidates (offsetHeight : positive -> Q)
  (entries : list (positive * Card)) (y : Q) (draggedCardData : Card)
  (excludeCards : list positive) : list Alignment :=
  flat_map
    (fun entry =>
       yAlignments y
         (resolveHeight offsetHeight (card_id draggedCardData)
                        (card_height draggedCardData))
         (resolveHeight offsetHeight (fst entry) (card_height (snd entry)))
         (snd entry))
    (stationaryCards entries excludeCards).


(** The same, with the running minimum in view. *)
Definition axisState (p : Q) (seen : list Alignment) (st : AxisSnap) : Prop :=
  ((forall a, In a seen -> ~ alignDist a < SNAP_DISTANCE)
   /\ st = mkAxisSnap (SNAP_DISTANCE + 1) p None)
  \/ (exists l1 w l2,
         seen = l1 ++ w :: l2
         /\ alignDist w < SNAP_DISTANCE
         /\ (forall a, In a l1 -> alignDist w < alignDist a)
         /\ (forall a, In a l2 -> alignDist w <= alignDist a)
         /\ st = mkAxisSnap (alignDist w) (p + (targetPos w - draggedPos w))
                            (Some (snapLine w))).

(* ================================================================== *)
(** * Drag gesture predicates                                        *)
(* ================================================================== *)

(** The card [c] put at ([nx], [ny]). *)
Definition placedAt (nx ny : Q) (c : Card) : Card :=
  mkCard (card_id c) nx ny (card_width c) (card_height c) (card_content c).



(** The ids [startDragging] hands to [saveDragState]. *)
Definition draggedIds (cm : CardManager) (cardId : positive) : list positive :=
  if set_has (selectedCards cm) cardId then selectedCards cm else [cardId].

Definition dragTag (ids : list positive) : string :=
  if (1 <? List.length ids)%nat then "multi_card_move" else "card_move".

(** Some dragged card is, at the end, somewhere else than at the start. *)
Definition someCardMoved (ids : list positive)
  (before after : list (positive * Card)) : Prop :=
  exists k c c',
    In k ids
    /\ map_get before k = Some c
    /\ map_get after k = Some c'
    /\ ~ (card_x c == card_x c' /\ card_y c == card_y c').

(* ================================================================== *)
(** * Concrete boards and events                                     *)
(* ================================================================== *)

(** Two auto-height cards side by side and a third one further out. *)
Definition cardA : Card := mkCard 1 0 0 300 auto "<p>A</p>".
Definition cardB : Card := mkCard 2 305 0 300 auto "<p>B</p>".
Definition cardC : Card := mkCard 3 610 400 300 (px 100) "<p>C</p>".

(** A and B selected, B active. *)
Definition demoBoard : CardManager :=
  mkCardManager [(1%positive, cardA); (2%positive, cardB); (3%positive, cardC)]
                4 (Some 2%positive) [1%positive; 2%positive] false None
                (mkPoint 0 0) [] [] (None, None) false.

(** The same cards with an active id that names no card, as [loadCards]
    leaves it behind: it clears cards and selection, not [activeCard]. *)
Definition staleBoard : CardManager :=
  with_selectedCards (with_activeCard demoBoard (Some 7%positive)) [].

Definition demoApp : App :=
  mkApp newWorld demoBoard newSidebar newStorage newUndoRedoManager.

Definition firstCall : Z * string * EntryData * CardManager :=
  (0%Z, "initial_state"%string, data_none, with_cards demoBoard []).

Definition lastCall : Z * string * EntryData * CardManager :=
  (1%Z, "create_card"%string, data_none, demoBoard).

Definition staleCall : Z * string * EntryData * CardManager :=
  (1%Z, "create_card"%string, data_none, staleBoard).

(** Every rendered auto-height card measures 100 pixels. *)
Definition flatLayout : positive -> Q := fun _ => 100.


Definition viewportRect : Rect := mkRect 0 0 800 600.





(** Pointer down on B at (310, 10), then two movements. *)
Definition pressB : MouseEvent := mkMouseEvent 310 10 0.
Definition dragEvents : list MouseEvent :=
  [ mkMouseEvent 311 11 0; mkMouseEvent 312 12 0 ].

Definition afterPress : App := snd (startDragging 5 2 pressB demoApp).
Definition afterMoves : App := snd (dragMoves flatLayout dragEvents afterPress).

Definition cardAt (a : App) (k : positive) : Card :=
  match map_get (cards (cardManager a)) k with
  | Some c => c
  | None => cardA
  end.

Definition fullHistoryOps : list HistoryOp :=
  repeat (op_saveState 0 "create_card" data_none) 50.

Definition afterFirstSave : App :=
  appSave 0 "initial_state" data_none demoApp.


(** One card, active, with the editing panel open on it. *)
Definition soloApp : App :=
  mkApp newWorld
        (mkCardManager [(1%positive, cardA)] 2 (Some 1%positive) [1%positive]
                       false None (mkPoint 0 0) [] [] (None, None) false)
        (sidebarOpen cardA newSidebar) newStorage newUndoRedoManager.

(** A panned and zoomed viewport. *)
Definition pannedWorld : World := mkWorld false 0 0 120 (-40) 2 120 (-40) false (3 # 2).


(* ================================================================== *)
(** * Selection (selectCard, clearSelection, clearMultiSelection)    *)
(* ================================================================== *)

Definition with_isCtrlPressed (cm : CardManager) (b : bool) : CardManager :=
  mkCardManager (cards cm) (nextId cm) (activeCard cm) (selectedCards cm)
    (isDraggingCard cm) (draggedCard cm) (dragOffset cm)
    (multiDragOffsets cm) (dragStartPositions cm) (snapIndicators cm) b.

(** [window.sidebar.open(this.cards.get(id))].  For a missing card the
    answer [None] is the [TypeError] of reading [content] off [undefined],
    raised after [isOpen] and [currentCard] have been written. *)
Definition sidebarOpenOn (cardData : option Card) (a : App)
  : option unit * App :=
  match cardData with
  | Some c =>
      (Some tt,
       mkApp (world a) (cardManager a) (sidebarOpen c (sidebar a))
             (storage a) (undoRedoManager a))
  | None =>
      (None,
       mkApp (world a) (cardManager a)
             (mkSidebar true None (lastSavedContent (sidebar a))
                        (sidebarContentTimeout (sidebar a)))
             (storage a) (undoRedoManager a))
  end.

(** CardManager.clearSelection. *)
Definition clearSelection (a : App) : App :=
  sidebarClose
    (with_cardManager a
       (with_activeCard (with_selectedCards (cardManager a) []) None)).

(** CardManager.clearMultiSelection. *)
Definition clearMultiSelection (cm : CardManager) : CardManager :=
  if (1 <? List.length (selectedCards cm))%nat
  then with_selectedCards cm
         (match activeCard cm with
          | Some act => set_add [] act
          | None => []
          end)
  else cm.

(** CardManager.selectCard; [cardId] is [parseInt(id)]. *)
Definition selectCard (cardId : positive) (isMultiSelect : bool) (a : App)
  : option unit * App :=
  let a1 :=
    if isMultiSelect then
      let cm := cardManager a in
      if set_has (selectedCards cm) cardId then
        let remainingSelected := set_delete (selectedCards cm) cardId in
        let cm1 := with_selectedCards cm remainingSelected in
        match activeCard cm with
        | Some act =>
            if Pos.eqb act cardId
            then with_cardManager a
                   (with_activeCard cm1
                      (match remainingSelected with
                       | first :: _ => Some first
                       | [] => None
                       end))
            else with_cardManager a cm1
        | None => with_cardManager a cm1
        end
      else
        with_cardManager a
          (with_activeCard
             (with_selectedCards cm (set_add (selectedCards cm) cardId))
             (Some cardId))
    else
      let a0 := clearSelection a in
      let cm0 := cardManager a0 in
      with_cardManager a0
        (with_activeCard
           (with_selectedCards cm0 (set_add (selectedCards cm0) cardId))
           (Some cardId)) in
  match activeCard (cardManager a1) with
  | Some act => sidebarOpenOn (map_get (cards (cardManager a1)) act) a1
  | None => (Some tt, a1)
  end.

(** The ['keydown'], ['keyup'] and ['blur'] listeners of
    [setupCtrlKeyTracking]; [ctrlOrMeta] is [e.ctrlKey || e.metaKey]. *)
Definition onCtrlKeyDown (ctrlOrMeta : bool) (cm : CardManager)
  : CardManager :=
  if ctrlOrMeta then with_isCtrlPressed cm true else cm.

Definition onCtrlKeyUp (ctrlOrMeta : bool) (cm : CardManager) : CardManager :=
  if negb ctrlOrMeta
  then clearMultiSelection (with_isCtrlPressed cm false)
  else cm.

Definition onWindowBlur (cm : CardManager) : CardManager :=
  clearMultiSelection (with_isCtrlPressed cm false).

(** The ['click'] listener on a card. *)
Definition onCardClick (cardId : positive) (a : App) : option unit * App :=
  selectCard cardId (isCtrlPressed (cardManager a)) a.

(** The ['mousedown'] listener on a card's handle or body, left button. *)
Definition onCardMouseDown (now : Z) (cardId : positive) (e : MouseEvent)
  (a : App) : option unit * App :=
  if negb (set_has (selectedCards (cardManager a)) cardId)
  then
    match selectCard cardId (isCtrlPressed (cardManager a)) a with
    | (Some _, a1) => startDragging now cardId e a1
    | (None, a1) => (None, a1)
    end
  else startDragging now cardId e a.

(** InfiniteCanvas.selectAllCards. *)
Definition selectAllCards (a : App) : option unit * App :=
  if negb (isCtrlPressed (cardManager a)) then (Some tt, a)
  else
    let a1 := clearSelection a in
    let cm1 := cardManager a1 in
    let cm2 :=
      with_selectedCards cm1
        (fold_left set_add (map fst (cards cm1)) (selectedCards cm1)) in
    match map fst (cards cm2) with
    | firstCardId :: _ =>
        sidebarOpenOn (map_get (cards cm2) firstCardId)
          (with_cardManager a1 (with_activeCard cm2 (Some firstCardId)))
    | [] => (Some tt, with_cardManager a1 cm2)
    end.

(* ================================================================== *)
(** * Editing the store (updateCard, duplicateCard, addNewCard)      *)
(* ================================================================== *)

(** [a !== b] on heights: a number never equals ['auto']. *)
Definition height_neqb (a b : Height) : bool :=
  match a, b with
  | auto, auto => false
  | px u, px v => Qneqb u v
  | _, _ => true
  end.

(** CardManager.updateCard; [nowW] and [nowH] are the clock readings of
    the two [saveState] calls.  Every card of [cards] has its element
    ([createCard] appends it, [deleteCard] removes both), so the branch
    [if (element)] is the one taken.  The sidebar's [currentCard] keeps
    the fields it was opened with: the listeners that call [updateCard]
    write the changed field to it themselves. *)
Definition updateCard (nowW nowH : Z) (id : positive) (updates : CardData)
  (a : App) : App :=
  match map_get (cards (cardManager a)) id with
  | None => a
  | Some oldData =>
      let cardData := spread oldData updates in
      let cm1 :=
        with_cards (cardManager a)
                   (map_set (cards (cardManager a)) id cardData) in
      let m1 :=
        match data_width updates with
        | Some _ =>
            if Qltb 5 (Qabs (card_width oldData - card_width cardData))
            then saveState nowW "resize_card"
                   (data_resizeWidth id (card_width oldData)
                                     (card_width cardData))
                   cm1 (undoRedoManager a)
            else undoRedoManager a
        | None => undoRedoManager a
        end in
      let m2 :=
        match data_height updates with
        | Some _ =>
            if height_neqb (card_height oldData) (card_height cardData)
            then saveState nowH "resize_card"
                   (data_resizeHeight id (card_height oldData)
                                      (card_height cardData))
                   cm1 m1
            else m1
        | None => m1
        end in
      mkApp (world a) cm1 (sidebar a)
            (saveCards (getAllCards cm1) (storage a)) m2
  end.

(** CardManager.duplicateCard.  The answer is [Some r] for [return r]
    ([r = None] being [undefined]); [None] is an exception out of
    [selectCard]. *)
Definition duplicateCard (id : positive) (a : App)
  : option (option Card) * App :=
  match map_get (cards (cardManager a)) id with
  | None => (Some None, a)
  | Some originalCard =>
      let cm := cardManager a in
      let duplicateData :=
        spread originalCard
          (mkCardData (Some (nextId cm)) (Some (card_x originalCard + 20))
                      (Some (card_y originalCard + 20)) None None None) in
      let '(newCard, cm1) :=
        createCard (dataOfCard duplicateData)
                   (with_nextId cm (Pos.succ (nextId cm))) in
      let a1 :=
        mkApp (world a) cm1 (sidebar a)
              (saveCards (getAllCards cm1) (storage a))
              (undoRedoManager a) in
      match selectCard (card_id newCard) false a1 with
      | (Some _, a2) => (Some (Some newCard), a2)
      | (None, a2) => (None, a2)
      end
  end.

(** What World.getVisibleBounds returns. *)
Record Bounds : Type := mkBounds {
  bounds_left : Q;
  bounds_top : Q;
  bounds_right : Q;
  bounds_bottom : Q;
  bounds_width : Q;
  bounds_height : Q
}.

(** World.getVisibleBounds. *)
Definition getVisibleBounds (rect : Rect) (w : World) : Bounds :=
  let topLeft := screenToWorld w 0 0 in
  let bottomRight := screenToWorld w (rect_width rect) (rect_height rect) in
  mkBounds (pt_x topLeft) (pt_y topLeft)
           (pt_x bottomRight) (pt_y bottomRight)
           (pt_x bottomRight - pt_x topLeft)
           (pt_y bottomRight - pt_y topLeft).

Definition newCardContent : string :=
  "<h2>New Card</h2><p>Double-click to edit this card content...</p>".

(** CardManager.addNewCard: [None] is an exception out of [selectCard]. *)
Definition addNewCard (now : Z) (rect : Rect) (a : App) : option Card * App :=
  let bounds := getVisibleBounds rect (world a) in
  let centerX := bounds_left bounds + bounds_width bounds / 2 in
  let centerY := bounds_top bounds + bounds_height bounds / 2 in
  let m1 := saveState now "create_card" data_none (cardManager a)
                      (undoRedoManager a) in
  let '(newCard, cm1) :=
    createCard (mkCardData None (Some (centerX - 150)) (Some (centerY - 75))
                           (Some 300) (Some auto) (Some newCardContent))
               (cardManager a) in
  let a1 :=
    mkApp (world a) cm1 (sidebar a)
          (saveCards (getAllCards cm1) (storage a)) m1 in
  match selectCard (card_id newCard) false a1 with
  | (Some _, a2) => (Some newCard, a2)
  | (None, a2) => (None, a2)
  end.

(* ================================================================== *)
(** * Keyboard shortcuts of the application (setupGlobalEvents)      *)
(* ================================================================== *)

(** [selectedIds.forEach(cardId => this.cardManager.deleteCard(cardId))]. *)
Definition deleteCards (ids : list positive) (a : App) : App :=
  fold_left (fun acc cardId => deleteCard cardId acc) ids a.

(** The [Delete] key; [confirmed] is the answer of [confirm]. *)
Definition onDeleteKey (now : Z) (confirmed : bool) (a : App) : App :=
  if negb (isOpen (sidebar a))
  then
    if (0 <? List.length (selectedCards (cardManager a)))%nat
    then
      if confirmed
      then
        let m1 :=
          saveState now "delete_cards"
                    (data_cardIds (selectedCards (cardManager a)))
                    (cardManager a) (undoRedoManager a) in
        deleteCards (selectedCards (cardManager a))
                    (with_undoRedoManager a m1)
      else a
    else a
  else a.



(** Ctrl/Cmd + S and ['beforeunload']: the live board and viewport are
    written at once. *)
Definition onSaveKey (now : Z) (writable : bool) (a : App) : App :=
  with_storage a
    (saveData now writable (map dataOfCard (getAllCards (cardManager a)))
              (Some (getWorldState (world a))) (storage a)).

(* ================================================================== *)
(** * The grid and the animation loop (class World)                  *)
(* ================================================================== *)


(** Rounding towards zero. *)
Definition Qtruncate (q : Q) : Z :=
  if Qle_bool 0 q then Qfloor q else Qceiling q.




(** The frames [requestAnimationFrame] runs once [kickAnimation] has
    scheduled the first: each frame schedules the next until [done]. *)
Fixpoint runAnimation (frames : nat) (w : World) : World :=
  match frames with
  | O => w
  | S frames' =>
      let w' := animate w in
      if rafId w' then runAnimation frames' w' else w'
  end.

(* ================================================================== *)
(** * History queries (getUndoOperation, getRedoOperation)           *)
(* ================================================================== *)



(* ================================================================== *)
(** * Typing in the editor (class Sidebar)                           *)
(* ================================================================== *)

(** The editor's ['text-change'] listener for a change the user made;
    [content] is [this.editor.root.innerHTML]. *)
Definition onTextChange (nowW nowH : Z) (content : string) (a : App) : App :=
  match currentCard (sidebar a) with
  | Some cur =>
      let a1 :=
        updateCard nowW nowH (card_id cur)
                   (mkCardData None None None None None (Some content)) a in
      let sb := sidebar a1 in
      mkApp (world a1) (cardManager a1)
            (mkSidebar (isOpen sb)
                       (Some (mkCard (card_id cur) (card_x cur) (card_y cur)
                                     (card_width cur) (card_height cur)
                                     content))
                       (lastSavedContent sb) true)
            (storage a1) (undoRedoManager a1)
  | None => a
  end.

(** The timer callback armed by [saveContentStateDebounced]. *)
Definition sidebarTimeoutFires (a : App) : App :=
  let sb := sidebar a in
  match currentCard sb with
  | Some cur =>
      if negb (String.eqb (lastSavedContent sb) (card_content cur))
      then mkApp (world a) (cardManager a)
                 (mkSidebar (isOpen sb) (currentCard sb) (card_content cur)
                            (sidebarContentTimeout sb))
                 (storage a)
                 (saveContentState (card_id cur) (lastSavedContent sb)
                                   (card_content cur) (undoRedoManager a))
      else a
  | None => a
  end.

(** The timer callback of the history's own debounce, on the live board. *)
Definition historyTimeoutFires (now : Z) (a : App) : App :=
  with_undoRedoManager a
    (contentTimeoutFires now (cardManager a) (undoRedoManager a)).

(** A burst of edits typed into the open editor. *)
Definition typeAll (nowW nowH : Z) (contents : list string) (a : App) : App :=
  fold_left (fun acc content => onTextChange nowW nowH content acc)
            contents a.

(* ================================================================== *)
(** * Resizing the sidebar (setupResizeHandle)                       *)
(* ================================================================== *)

(** The panel's geometry fields of the [Sidebar] object and the number
    whose decimal text [saveSidebarWidth] leaves under ['sidebar_width']. *)
Record SidebarPanel : Type := mkSidebarPanel {
  panel_width : Q;
  isResizing : bool;
  resizeStartX : Q;
  resizeStartWidth : Q;
  storedSidebarWidth : option Q
}.

Definition defaultWidth : Q := 420.
Definition minWidth : Q := 300.
Definition maxWidth : Q := 800.

(** The constructor's values, with nothing stored yet. *)
Definition newSidebarPanel : SidebarPanel :=
  mkSidebarPanel defaultWidth false 0 0 None.

(** Sidebar.loadSidebarWidth.  The stored text is the decimal text of a
    width, of which [parseInt] reads the digits before the point. *)
Definition loadSidebarWidth (p : SidebarPanel) : SidebarPanel :=
  match storedSidebarWidth p with
  | Some savedWidth =>
      mkSidebarPanel
        (Qmax minWidth (Qmin maxWidth (inject_Z (Qtruncate savedWidth))))
        (isResizing p) (resizeStartX p) (resizeStartWidth p)
        (storedSidebarWidth p)
  | None => p
  end.

(** Sidebar.saveSidebarWidth.  [writable = false] is
    [localStorage.setItem] throwing. *)
Definition saveSidebarWidth (writable : bool) (p : SidebarPanel)
  : SidebarPanel :=
  if writable
  then mkSidebarPanel (panel_width p) (isResizing p) (resizeStartX p)
                      (resizeStartWidth p) (Some (panel_width p))
  else p.

Inductive ResizeEvent : Type :=
| handleMouseDown (e : MouseEvent)
| documentMouseMove (e : MouseEvent)
| documentMouseUp (writable : bool)
| pageReload.

(** The three listeners of [setupResizeHandle]; [pageReload] is the
    constructor followed by [init] in a new page over the same storage. *)
Definition resizeStep (p : SidebarPanel) (ev : ResizeEvent) : SidebarPanel :=
  match ev with
  | handleMouseDown e =>
      if (button e =? 0)%Z
      then mkSidebarPanel (panel_width p) true (clientX e) (panel_width p)
                          (storedSidebarWidth p)
      else p
  | documentMouseMove e =>
      if isResizing p
      then
        let deltaX := resizeStartX p - clientX e in
        let newWidth :=
          Qmax minWidth (Qmin maxWidth (resizeStartWidth p + deltaX)) in
        mkSidebarPanel newWidth (isResizing p) (resizeStartX p)
                       (resizeStartWidth p) (storedSidebarWidth p)
      else p
  | documentMouseUp writable =>
      if isResizing p
      then saveSidebarWidth writable
             (mkSidebarPanel (panel_width p) false (resizeStartX p)
                             (resizeStartWidth p) (storedSidebarWidth p))
      else p
  | pageReload =>
      loadSidebarWidth
        (mkSidebarPanel defaultWidth false 0 0 (storedSidebarWidth p))
  end.

Definition runResize (evs : list ResizeEvent) (p : SidebarPanel)
  : SidebarPanel :=
  fold_left resizeStep evs p.

(* ================================================================== *)
(** * Start-up and reset (Storage.initialize, InfiniteCanvas.reset)  *)
(* ================================================================== *)

Definition dquote : string := String (Ascii.ascii_of_nat 34) EmptyString.

(** The content of the example card, a template literal. *)
Definition welcomeContent : string :=
  ("
                <h2 style=" ++ dquote ++ "color: #2563eb;" ++ dquote ++ ">Welcome to Infinite Canvas</h2>
                <p>This is your first card! You can:</p>
                <ul>
                    <li><strong>Double-click</strong> on any card to edit it</li>
                    <li><strong>Drag</strong> cards to move them around</li>
                    <li><strong>Pan</strong> by clicking and dragging on empty space</li>
                    <li><strong>Zoom</strong> with your mouse wheel</li>
                </ul>
                <p>Cards automatically snap to align with each other, and all changes are saved automatically to your browser's local storage.</p>
                <p><em>Double-click this card to start editing!</em></p>
            ")%string.

(** The one object of the array Storage.getDefaultCards returns. *)
Definition defaultCard : Card := mkCard 1 0 0 300 auto welcomeContent.

(** Storage.getDefaultCards. *)
Definition getDefaultCards : list CardData := [dataOfCard defaultCard].

(** Storage.loadData: [readable = false] is [localStorage.getItem] (or
    the parse) throwing, which the [catch] turns into [null]. *)
Definition loadData (readable : bool) (s : Storage) : option Persisted :=
  if readable then localStorage s else None.

(** Storage.clearData: [removable = false] is [removeItem] throwing. *)
Definition clearData (removable : bool) (s : Storage) : bool * Storage :=
  if removable then (true, mkStorage None (autoSaveTimeout s)) else (false, s).

(** Storage.exportData: the document the downloaded file holds, as the
    import reads it back ([None]: nothing is stored, no file is made).
    The file carries [version] and [timestamp] too; [importData] reads
    [cards] and [worldState] only. *)
Definition exportData (readable : bool) (s : Storage) : option ImportInput :=
  match loadData readable s with
  | Some data =>
      Some (json_document (cards_array (saved_cards data))
                          (Some (saved_worldState data)))
  | None => None
  end.

(** The [else] branch shared by Storage.initialize and
    loadApplicationState: the default cards are created and their save is
    scheduled. *)
Definition createDefaultCards (a : App) : App :=
  let cm1 :=
    fold_left (fun acc cardData => snd (createCard cardData acc))
              getDefaultCards (cardManager a) in
  mkApp (world a) cm1 (sidebar a) (saveCards [defaultCard] (storage a))
        (undoRedoManager a).

(** Storage.initialize: the boolean it returns, the world state whose
    application it schedules 100 ms later, and the state it leaves. *)
Definition storageInitialize (readable : bool) (a : App)
  : bool * option WorldState * App :=
  match loadData readable (storage a) with
  | Some savedData =>
      if (0 <? List.length (saved_cards savedData))%nat
      then (true, Some (saved_worldState savedData),
            with_cardManager a
              (loadCards (saved_cards savedData) (cardManager a)))
      else (false, None, createDefaultCards a)
  | None => (false, None, createDefaultCards a)
  end.

(** InfiniteCanvas.loadApplicationState. *)
Definition loadApplicationState (readable : bool) (rect : Rect) (a : App)
  : App :=
  match loadData readable (storage a) with
  | Some savedData =>
      if (0 <? List.length (saved_cards savedData))%nat
      then mkApp (applyWorldState (saved_worldState savedData) (world a))
                 (loadCards (saved_cards savedData) (cardManager a))
                 (sidebar a) (storage a) (undoRedoManager a)
      else createDefaultCards (with_world a (centerView rect (world a)))
  | None => createDefaultCards (with_world a (centerView rect (world a)))
  end.

(** InfiniteCanvas.reset, with the world state Storage.initialize may
    have scheduled; [confirmed] is the answer of [confirm]. *)
Definition appReset (now : Z) (confirmed removable readable : bool)
  (rect : Rect) (a : App) : option WorldState * App :=
  if confirmed
  then
    let s1 := snd (clearData removable (storage a)) in
    let cm1 := loadCards [] (cardManager a) in
    let w1 := resetScale (centerView rect (world a)) in
    let '(_, scheduled, a2) :=
      storageInitialize readable
        (mkApp w1 cm1 (sidebar a) s1 (undoRedoManager a)) in
    (scheduled,
     with_undoRedoManager a2
       (initialize now (cardManager a2)
                   (clearHistory (undoRedoManager a2))))
  else (None, a).

(* ================================================================== *)
(** * The single-selection variant of the card manager               *)
(* ================================================================== *)

(** The earlier [CardManager] kept beside [Storage]: no selection set, and
    the snap resolver skips the dragged card itself. *)
Module SingleSelect.

(** getCardActualHeight; [elementHeight] is the [offsetHeight] of the
    card's element, if the element exists. *)
Definition getCardActualHeight (elementHeight : positive -> option Q)
  (cardData : Card) : Q :=
  match card_height cardData with
  | auto =>
      match elementHeight (card_id cardData) with
      | Some h => h
      | None => 100
      end
  | px v => v
  end.

Fixpoint snapLoop (elementHeight : positive -> option Q) (x y : Q)
  (draggedCardData : Card) (entries : list (positive * Card))
  (sx sy : AxisSnap) : AxisSnap * AxisSnap :=
  match entries with
  | [] => (sx, sy)
  | (id, cardData) :: rest =>
      if Pos.eqb id (card_id draggedCardData)
      then snapLoop elementHeight x y draggedCardData rest sx sy
      else
        let draggedHeight :=
          getCardActualHeight elementHeight draggedCardData in
        let targetHeight := getCardActualHeight elementHeight cardData in
        let sx' := fold_left (snapStep x)
                     (xAlignments x draggedCardData cardData) sx in
        let sy' := fold_left (snapStep y)
                     (yAlignments y draggedHeight targetHeight cardData) sy in
        snapLoop elementHeight x y draggedCardData rest sx' sy'
  end.

Definition applySnapping (elementHeight : positive -> option Q)
  (cm : CardManager) (x y : Q) (draggedCardData : Card) : SnapResult :=
  let '(sx, sy) :=
    snapLoop elementHeight x y draggedCardData (cards cm)
      (mkAxisSnap (SNAP_DISTANCE + 1) x None)
      (mkAxisSnap (SNAP_DISTANCE + 1) y None) in
  mkSnapResult (snapped sx) (snapped sy) (line sx) (line sy).

End SingleSelect.

(* ================================================================== *)
(** * Invariants of the card store                                   *)
(* ================================================================== *)

(** The [Map] holds one entry per key, every card sits under its own id
    and [nextId] lies above every id in use. *)
Definition storeOk (cm : CardManager) : Prop :=
  NoDup (map fst (cards cm))
  /\ Forall keyedById (cards cm)
  /\ Forall (fun entry => (fst entry < nextId cm)%positive) (cards cm).

(** The active card, if any, is one of the selected cards, and the [Set]
    holds no id twice. *)
Definition selectionOk (cm : CardManager) : Prop :=
  NoDup (selectedCards cm)
  /\ match activeCard cm with
     | Some act => In act (selectedCards cm)
     | None => True
     end.


(** What a drag never changes of a card: everything but its position. *)
Definition cardShape (c : Card) : positive * Q * Height * string :=
  (card_id c, card_width c, card_height c, card_content c).

(** The six numbers of the viewport's transform agree. *)
Definition sameTransform (w1 w2 : World) : Prop :=
  translateX w1 == translateX w2 /\ translateY w1 == translateY w2
  /\ scale w1 == scale w2 /\ targetTX w1 == targetTX w2
  /\ targetTY w1 == targetTY w2 /\ targetScale w1 == targetScale w2.

(** The remaining distances of the animation are under its thresholds. *)
Definition settled (w : World) : Prop :=
  Qabs (targetTX w - translateX w) < 1 # 100
  /\ Qabs (targetTY w - translateY w) < 1 # 100
  /\ Qabs (targetScale w - scale w) < 1 # 10000.

(** The sidebar's width respects its bounds. *)
Definition widthOk (p : SidebarPanel) : Prop :=
  minWidth <= panel_width p /\ panel_width p <= maxWidth.

(* ================================================================== *)
(** * Further concrete runs                                          *)
(* ================================================================== *)

(** The demo application after its initial save, then a press on B and
    the two pointer movements. *)
Definition savedPress : App := snd (startDragging 5 2 pressB afterFirstSave).
Definition savedMoves : App := snd (dragMoves flatLayout dragEvents savedPress).

(* ================================================================== *)
(** * Properties of the history                                      *)
(* ================================================================== *)

Lemma saveContentState_guarded cardId o n m :
  isPerformingUndoRedo m = true -> saveContentState cardId o n m = m.
Proof. unfold saveContentState. now intros ->. Qed.

Lemma sidebarClose_guarded a :
  isPerformingUndoRedo (undoRedoManager a) = true ->
  undoRedoManager (sidebarClose a) = undoRedoManager a.
Proof.
  intros Hflag. unfold sidebarClose. cbn [undoRedoManager].
  destruct (sidebarContentTimeout (sidebar a)); [|reflexivity].
  destruct (currentCard (sidebar a)) as [cur|]; [|reflexivity].
  destruct (negb _); [|reflexivity].
  now apply saveContentState_guarded.
Qed.

Lemma applyStateBody_manager st a :
  isPerformingUndoRedo (undoRedoManager a) = true ->
  undoRedoManager (applyStateBody st a) = undoRedoManager a.
Proof.
  intros Hflag. unfold applyStateBody. cbn [undoRedoManager with_storage].
  destruct (snap_activeCard st) as [act|].
  - destruct (map_has _ act); [reflexivity|].
    now rewrite sidebarClose_guarded.
  - now rewrite sidebarClose_guarded.
Qed.

Lemma applyState_manager st a :
  undoRedoManager (applyState st a) = with_flag (undoRedoManager a) false.
Proof.
  unfold applyState. cbn [undoRedoManager with_undoRedoManager].
  now rewrite applyStateBody_manager.
Qed.

(** The manager after [undo]: untouched, or the index moved. *)
Lemma undo_manager a :
  let m := undoRedoManager a in
  undoRedoManager (snd (undo a)) =
    if negb (canUndo m) then m
    else match js_nth (history m) (currentIndex m - 1) with
         | Some _ => with_flag (with_index m (currentIndex m - 1)) false
         | None => with_index m (currentIndex m - 1)
         end.
Proof.
  cbv zeta. unfold undo.
  destruct (negb (canUndo (undoRedoManager a))); [reflexivity|].
  destruct (js_nth _ _); cbn [snd]; [|reflexivity].
  now rewrite applyState_manager.
Qed.

Lemma redo_manager a :
  let m := undoRedoManager a in
  undoRedoManager (snd (redo a)) =
    if negb (canRedo m) then m
    else match js_nth (history m) (currentIndex m + 1) with
         | Some _ => with_flag (with_index m (currentIndex m + 1)) false
         | None => with_index m (currentIndex m + 1)
         end.
Proof.
  cbv zeta. unfold redo.
  destruct (negb (canRedo (undoRedoManager a))); [reflexivity|].
  destruct (js_nth _ _); cbn [snd]; [|reflexivity].
  now rewrite applyState_manager.
Qed.

Lemma js_nth_Some {A : Type} (l : list A) (i : Z) :
  (0 <= i < Z.of_nat (List.length l))%Z -> exists v, js_nth l i = Some v.
Proof.
  intros Hi. unfold js_nth.
  destruct (Z.ltb_spec i 0); [lia|].
  destruct (nth_error l (Z.to_nat i)) eqn:E; [eauto|].
  apply nth_error_None in E. lia.
Qed.

Lemma js_nth_bound {A : Type} (l : list A) (i : Z) v :
  js_nth l i = Some v -> (0 <= i < Z.of_nat (List.length l))%Z.
Proof.
  unfold js_nth. destruct (Z.ltb_spec i 0); [discriminate|].
  intros E. assert (nth_error l (Z.to_nat i) <> None) as Hn by congruence.
  apply nth_error_Some in Hn. lia.
Qed.

Lemma js_nth_last {A : Type} (l : list A) (x : A) :
  js_nth (l ++ [x]) (Z.of_nat (List.length l)) = Some x.
Proof.
  unfold js_nth. destruct (Z.ltb_spec (Z.of_nat (List.length l)) 0); [lia|].
  rewrite Nat2Z.id, nth_error_app2, Nat.sub_diag by lia. reflexivity.
Qed.

Lemma slice0_length {A : Type} (l : list A) (e : Z) :
  (0 <= e <= Z.of_nat (List.length l))%Z ->
  Z.of_nat (List.length (slice0 l e)) = e.
Proof.
  intros He. unfold slice0. destruct (Z.ltb_spec e 0); [lia|].
  rewrite length_firstn. lia.
Qed.

(** After a [saveState] that is not suppressed the index is the last
    position, under the capacity. *)
Lemma saveState_at_end now op d cm m :
  historyOk m ->
  let m' := saveState now op d cm m in
  currentIndex m' = (Z.of_nat (List.length (history m')) - 1)%Z
  /\ (1 <= Z.of_nat (List.length (history m')) <= maxHistorySize)%Z
  /\ (Z.of_nat (List.length (history m'))
      <= Z.of_nat (List.length (history m)) + 1)%Z
  /\ isPerformingUndoRedo m' = false.
Proof.
  intros (Hcap & Hidx & Hflag). cbv zeta. unfold saveState. rewrite Hflag.
  set (e := mkHistoryEntry _ _ _ _).
  set (h1 := if (_ <? _)%Z then _ else _).
  assert (Z.of_nat (List.length h1) = currentIndex m + 1)%Z as Hh1.
  { subst h1. destruct (Z.ltb_spec (currentIndex m)
                          (Z.of_nat (List.length (history m)) - 1)).
    - apply slice0_length. lia.
    - lia. }
  assert (Z.of_nat (List.length (h1 ++ [e])) = currentIndex m + 2)%Z as Hh2.
  { rewrite length_app. cbn [List.length]. lia. }
  unfold maxHistorySize in *.
  destruct (Z.gtb_spec (Z.of_nat (List.length (h1 ++ [e]))) 50);
    cbn [history currentIndex isPerformingUndoRedo].
  - destruct (h1 ++ [e]) as [|e0 t] eqn:E; cbn [tl List.length] in *.
    + lia.
    + repeat split; lia.
  - repeat split; lia.
Qed.

Lemma undo_ok a :
  historyOk (undoRedoManager a) -> historyOk (undoRedoManager (snd (undo a))).
Proof.
  intros (Hcap & Hidx & Hflag). rewrite undo_manager. cbv zeta.
  unfold canUndo. destruct (Z.gtb_spec (currentIndex (undoRedoManager a)) 0);
    cbn [negb]; [|now repeat split].
  destruct (js_nth_Some (history (undoRedoManager a))
              (currentIndex (undoRedoManager a) - 1)) as [v ->]; [lia|].
  repeat split; cbn [history currentIndex with_flag with_index]; lia.
Qed.

Lemma redo_ok a :
  historyOk (undoRedoManager a) -> historyOk (undoRedoManager (snd (redo a))).
Proof.
  intros (Hcap & Hidx & Hflag). rewrite redo_manager. cbv zeta.
  unfold canRedo.
  destruct (Z.ltb_spec (currentIndex (undoRedoManager a))
              (Z.of_nat (List.length (history (undoRedoManager a))) - 1));
    cbn [negb]; [|now repeat split].
  destruct (js_nth_Some (history (undoRedoManager a))
              (currentIndex (undoRedoManager a) + 1)) as [v ->]; [lia|].
  repeat split; cbn [history currentIndex with_flag with_index]; lia.
Qed.

Lemma saveState_ok now op d cm m :
  historyOk m -> historyOk (saveState now op d cm m).
Proof.
  intros Hok. destruct (saveState_at_end now op d cm m Hok) as (Hi & Hl & _ & Hf).
  repeat split; try assumption; lia.
Qed.

Lemma historyStep_ok a o :
  historyOk (undoRedoManager a) -> historyOk (undoRedoManager (historyStep a o)).
Proof.
  intros Hok. destruct o; cbn [historyStep].
  - exact Hok.
  - now apply saveState_ok.
  - now apply undo_ok.
  - now apply redo_ok.
  - destruct Hok as (_ & _ & Hf).
    repeat split; cbn; try lia; try discriminate. exact Hf.
  - now apply saveState_ok.
Qed.

Lemma runHistory_ok ops a :
  historyOk (undoRedoManager a) ->
  historyOk (undoRedoManager (runHistory ops a)).
Proof.
  unfold runHistory. revert a.
  induction ops as [|o ops IH]; intros a Hok; cbn [fold_left].
  - exact Hok.
  - apply IH. now apply historyStep_ok.
Qed.

Lemma newApp_ok : historyOk (undoRedoManager newApp).
Proof. unfold historyOk, maxHistorySize. cbn. repeat split; lia. Qed.

(** C3.  Whatever sequence of board edits, saveState, undo, redo,
    clearHistory and initialize calls runs on a fresh application, the
    history holds at most 50 entries, the current index lies in
    [-1, length-1], canUndo answers true exactly when the index is positive
    and canRedo exactly when the index is below length-1; and a saveState
    issued with the index on slot 49 (the history is then full) drops the
    oldest entry, appends the new one and leaves the index on 49, that is
    one up for the append and one down for the eviction. *)
Theorem history_bounded_and_index_valid :
  forall ops : list HistoryOp,
    let m := undoRedoManager (runHistory ops newApp) in
    let len := Z.of_nat (List.length (history m)) in
    (len <= 50)%Z
    /\ (-1 <= currentIndex m <= len - 1)%Z
    /\ (canUndo m = true <-> (currentIndex m > 0)%Z)
    /\ (canRedo m = true <-> (currentIndex m < len - 1)%Z)
    /\ (forall now op d cm,
           currentIndex m = 49%Z ->
           history (saveState now op d cm m)
             = tl (history m)
                  ++ [mkHistoryEntry op now (captureCurrentState cm) d]
           /\ currentIndex (saveState now op d cm m)
             = (currentIndex m + 1 - 1)%Z).
Proof.
  intros ops m len.
  assert (historyOk m) as Hok by (apply runHistory_ok, newApp_ok).
  destruct Hok as (Hcap & Hidx & Hflag). unfold maxHistorySize in Hcap.
  fold len in Hcap, Hidx.
  split; [exact Hcap|]. split; [exact Hidx|].
  split; [unfold canUndo; rewrite Z.gtb_gt; reflexivity|].
  split; [unfold canRedo; fold len; rewrite Z.ltb_lt; reflexivity|].
  intros now op d cm H49.
  assert (len = 50%Z) as Hlen by lia.
  unfold saveState. rewrite Hflag. fold len. rewrite H49, Hlen.
  cbn [Z.ltb Z.sub Z.opp Z.add Z.compare Pos.compare Pos.compare_cont
       Z.pos_sub Pos.pred_double].
  replace ((49 <? 50 - 1)%Z) with false by reflexivity.
  rewrite length_app. cbn [List.length].
  replace (Z.of_nat (List.length (history m) + 1)) with 51%Z by (subst len; lia).
  unfold maxHistorySize.
  replace ((51 >? 50)%Z) with true by reflexivity.
  cbn [history currentIndex].
  destruct (history m) as [|e0 t] eqn:E; [subst len; cbn in Hlen; lia|].
  split; reflexivity.
Qed.


(** C10.  undo and redo leave the history list, the pending drag record
    and the armed content timer exactly as they were; called with the guard
    flag down, as every handler finds it, they return a manager that
    differs from the one before in the current index at most.
    The restore body runs with the guard flag up and, from first to last
    statement, leaves the manager untouched: a saveState, saveDragState,
    saveContentState or finishDragOperation reached while the flag is up
    returns at once. *)
Theorem undo_redo_touch_only_the_index :
  forall a : App,
    let m := undoRedoManager a in
    let mu := undoRedoManager (snd (undo a)) in
    let mr := undoRedoManager (snd (redo a)) in
    (history mu = history m
     /\ pendingDragOperation mu = pendingDragOperation m
     /\ contentChangeTimeout mu = contentChangeTimeout m)
    /\ (history mr = history m
        /\ pendingDragOperation mr = pendingDragOperation m
        /\ contentChangeTimeout mr = contentChangeTimeout m)
    /\ (isPerformingUndoRedo m = false ->
        mu = with_index m (currentIndex mu)
        /\ mr = with_index m (currentIndex mr))
    /\ (forall st,
           undoRedoManager
             (applyStateBody st (with_undoRedoManager a (with_flag m true)))
           = with_flag m true)
    /\ (forall now op d cm ids starts cardId o n,
           saveState now op d cm (with_flag m true) = with_flag m true
           /\ saveDragState now op ids starts (with_flag m true)
              = with_flag m true
           /\ saveContentState cardId o n (with_flag m true)
              = with_flag m true
           /\ finishDragOperation now cm (with_flag m true)
              = with_flag m true).
Proof.
  intros a m mu mr. subst mu mr.
  rewrite undo_manager, redo_manager. cbv zeta. fold m.
  split; [|split; [|split; [|split]]].
  - destruct (negb (canUndo m)); [now repeat split|].
    destruct (js_nth _ _); now repeat split.
  - destruct (negb (canRedo m)); [now repeat split|].
    destruct (js_nth _ _); now repeat split.
  - intros Hflag. destruct m as [h i f t p]. cbn in Hflag. subst f.
    split.
    + destruct (negb (canUndo _)); [reflexivity|].
      destruct (js_nth _ _); reflexivity.
    + destruct (negb (canRedo _)); [reflexivity|].
      destruct (js_nth _ _); reflexivity.
  - intros st. now rewrite applyStateBody_manager.
  - intros. unfold saveState, saveDragState, saveContentState,
      finishDragOperation.
    cbn [isPerformingUndoRedo with_flag pendingDragOperation].
    repeat split. now destruct (pendingDragOperation m).
Qed.

(* ================================================================== *)
(** * Snapshots and their restoration                                *)
(* ================================================================== *)

Section ObjectLemmas.
Context {V : Type}.
Implicit Types (o : list (positive * V)) (k : positive) (v : V).

Lemma obj_set_Forall (P : positive * V -> Prop) o k v :
  Forall P o -> P (k, v) -> Forall P (obj_set o k v).
Proof.
  induction o as [|[k' v'] o IH]; intros Ho Hk; cbn [obj_set].
  - now constructor.
  - inversion Ho; subst.
    destruct (Pos.compare k k'); repeat constructor; auto.
Qed.

Lemma obj_set_ascending o k v : ascending o -> ascending (obj_set o k v).
Proof.
  unfold ascending.
  induction o as [|[k' v'] o IH]; intros Ho; cbn [obj_set].
  - repeat constructor.
  - apply StronglySorted_inv in Ho. destruct Ho as [Hs Hall].
    destruct (Pos.compare_spec k k') as [Heq|Hlt|Hgt].
    + subst k'. constructor; [assumption|].
      eapply Forall_impl; [|exact Hall]. intros q Hq. exact Hq.
    + constructor; [now constructor|].
      constructor; [exact Hlt|].
      eapply Forall_impl; [|exact Hall]. intros q Hq.
      unfold keyLt in *. cbn [fst] in *. lia.
    + constructor; [now apply IH|].
      apply obj_set_Forall; [exact Hall|exact Hgt].
Qed.

Lemma obj_set_last o k v :
  Forall (fun p => (fst p < k)%positive) o -> obj_set o k v = o ++ [(k, v)].
Proof.
  induction o as [|[k' v'] o IH]; intros Ho; cbn [obj_set app].
  - reflexivity.
  - inversion Ho as [|? ? Hk Ho']; subst. cbn [fst] in Hk.
    rewrite (proj2 (Pos.compare_gt_iff k k')) by lia.
    now rewrite IH.
Qed.

Lemma map_set_last o k v :
  Forall (fun p => (fst p < k)%positive) o -> map_set o k v = o ++ [(k, v)].
Proof.
  induction o as [|[k' v'] o IH]; intros Ho; cbn [map_set app].
  - reflexivity.
  - inversion Ho as [|? ? Hk Ho']; subst. cbn [fst] in Hk.
    destruct (Pos.eqb_spec k k'); [lia|]. now rewrite IH.
Qed.

Lemma ascending_prefix_below (o1 o2 : list (positive * V)) p :
  ascending (o1 ++ p :: o2) ->
  Forall (fun q => (fst q < fst p)%positive) o1.
Proof.
  unfold ascending. induction o1 as [|q o1 IH]; cbn [app]; intros Hs.
  - constructor.
  - apply StronglySorted_inv in Hs. destruct Hs as [Hs Hall].
    constructor; [|now apply IH].
    rewrite Forall_app in Hall. destruct Hall as [_ Hall].
    now inversion Hall.
Qed.
End ObjectLemmas.

Lemma card_eta (c : Card) :
  mkCard (card_id c) (card_x c) (card_y c) (card_width c) (card_height c)
         (card_content c) = c.
Proof. now destruct c. Qed.

(** [createCard] on a stored card puts that very record under its id and
    touches neither the selection nor the active id. *)
Lemma createCard_stored (c : Card) (cm : CardManager) :
  let cm' := snd (createCard (dataOfCard c) cm) in
  cards cm' = map_set (cards cm) (card_id c) c
  /\ selectedCards cm' = selectedCards cm
  /\ activeCard cm' = activeCard cm.
Proof.
  cbv zeta. unfold createCard, dataOfCard, spread.
  cbn [data_id data_x data_y data_width data_height data_content snd
       cards selectedCards activeCard with_nextId with_cards card_id].
  now rewrite card_eta.
Qed.

(** Recreating the cards of an ascending, id-keyed object rebuilds the
    object's own list of entries. *)
Lemma recreate_cards (o2 : list (positive * Card)) :
  forall (o1 : list (positive * Card)) (cm : CardManager),
    ascending (o1 ++ o2) -> Forall keyedById o2 -> cards cm = o1 ->
    let cm' :=
      fold_left (fun acc cardData => snd (createCard (dataOfCard cardData) acc))
                (map snd o2) cm in
    cards cm' = o1 ++ o2
    /\ selectedCards cm' = selectedCards cm
    /\ activeCard cm' = activeCard cm.
Proof.
  induction o2 as [|[k c] o2 IH]; intros o1 cm Hasc Hid Hcm; cbv zeta;
    cbn [map fold_left snd].
  - now rewrite app_nil_r.
  - inversion Hid as [|? ? Hk Hid']; subst. unfold keyedById in Hk.
    cbn [fst snd] in Hk. subst k.
    destruct (createCard_stored c cm) as (Hc & Hs & Ha).
    specialize (IH (cards cm ++ [(card_id c, c)])
                   (snd (createCard (dataOfCard c) cm))).
    cbv zeta in IH. rewrite <- app_assoc in IH. cbn [app] in IH.
    destruct IH as (IHc & IHs & IHa).
    + exact Hasc.
    + exact Hid'.
    + rewrite Hc. apply map_set_last.
      exact (ascending_prefix_below _ _ _ Hasc).
    + rewrite IHc, IHs, IHa, Hs, Ha. now repeat split.
Qed.

Lemma captureCurrentState_unfold cm :
  captureCurrentState cm =
  mkSnapshot (fold_left captureStep (cards cm) []) (selectedCards cm)
             (activeCard cm).
Proof. reflexivity. Qed.

Lemma capture_fold_ok (cs : list (positive * Card)) :
  forall o, ascending o -> Forall keyedById o -> Forall keyedById cs ->
            ascending (fold_left captureStep cs o)
            /\ Forall keyedById (fold_left captureStep cs o).
Proof.
  induction cs as [|[k c] cs IH]; intros o Ho Hid Hcs; cbn [fold_left].
  - now split.
  - inversion Hcs as [|? ? Hk Hcs']; subst.
    apply IH; [| |exact Hcs']; unfold captureStep; rewrite card_eta.
    + now apply obj_set_ascending.
    + now apply obj_set_Forall.
Qed.

Lemma capture_fold_ascending (o2 : list (positive * Card)) :
  forall o1, ascending (o1 ++ o2) -> fold_left captureStep o2 o1 = o1 ++ o2.
Proof.
  induction o2 as [|[k c] o2 IH]; intros o1 Hasc; cbn [fold_left].
  - now rewrite app_nil_r.
  - unfold captureStep at 2. rewrite card_eta.
    rewrite obj_set_last by exact (ascending_prefix_below _ _ _ Hasc).
    rewrite IH; rewrite <- app_assoc; [reflexivity|exact Hasc].
Qed.

Lemma captureCurrentState_ok cm :
  boardOk cm -> snapshotOk (captureCurrentState cm).
Proof.
  intros [Hid Hsel]. rewrite captureCurrentState_unfold.
  destruct (capture_fold_ok (cards cm) []) as [Ha Hk];
    [constructor|constructor|assumption|].
  now repeat split.
Qed.

Lemma set_has_In s k : set_has s k = true <-> In k s.
Proof.
  unfold set_has. rewrite existsb_exists. split.
  - intros (x & Hin & Heq). apply Pos.eqb_eq in Heq. now subst.
  - intros Hin. exists k. split; [assumption|apply Pos.eqb_refl].
Qed.

Lemma set_add_all (s2 : list positive) :
  forall s1, NoDup (s1 ++ s2) -> fold_left set_add s2 s1 = s1 ++ s2.
Proof.
  induction s2 as [|k s2 IH]; intros s1 Hnd; cbn [fold_left].
  - now rewrite app_nil_r.
  - assert (set_has s1 k = false) as Hno.
    { destruct (set_has s1 k) eqn:E; [|reflexivity].
      apply set_has_In in E. apply NoDup_remove_2 in Hnd.
      exfalso. apply Hnd. apply in_or_app. now left. }
    unfold set_add at 2. rewrite Hno.
    rewrite IH; rewrite <- app_assoc; [reflexivity|exact Hnd].
Qed.

Lemma sidebarClose_board a :
  activeCard (cardManager a) = None ->
  cardManager (sidebarClose a) = cardManager a.
Proof. unfold sidebarClose. cbn [cardManager]. now intros ->. Qed.

(** The board the restore body leaves behind. *)
Lemma applyStateBody_board st a :
  snapshotOk st ->
  let cm' := cardManager (applyStateBody st a) in
  cards cm' = snap_cards st
  /\ selectedCards cm' = snap_selectedCards st
  /\ activeCard cm' = restoredActive st.
Proof.
  intros (Hasc & Hid & Hnd). cbv zeta. unfold applyStateBody.
  set (cm0 := with_selectedCards (with_cards (cardManager a) []) []).
  destruct (recreate_cards (snap_cards st) [] cm0) as (Hc & _ & _);
    [exact Hasc|exact Hid|reflexivity|].
  cbv zeta in Hc. cbn [app] in Hc.
  set (cm1 := fold_left _ (map snd (snap_cards st)) cm0) in *.
  rewrite (set_add_all (snap_selectedCards st) []) by exact Hnd.
  cbn [app]. unfold restoredActive.
  set (cm2 := with_selectedCards cm1 (snap_selectedCards st)).
  assert (cards cm2 = snap_cards st) as Hc2 by exact Hc.
  rewrite Hc2.
  assert (forall act,
             let cm3 := with_activeCard cm2 act in
             cards cm3 = snap_cards st
             /\ selectedCards cm3 = snap_selectedCards st
             /\ activeCard cm3 = act) as Hfinal
      by (intros act; repeat split; exact Hc).
  cbv zeta in Hfinal. cbn [cardManager with_storage].
  destruct (snap_activeCard st) as [act|];
    [destruct (map_has (snap_cards st) act)|];
    try (rewrite sidebarClose_board by reflexivity);
    apply Hfinal.
Qed.

Lemma applyState_board st a :
  snapshotOk st ->
  let cm' := cardManager (applyState st a) in
  cards cm' = snap_cards st
  /\ selectedCards cm' = snap_selectedCards st
  /\ activeCard cm' = restoredActive st.
Proof.
  intros Hok. unfold applyState. cbn [cardManager with_undoRedoManager].
  now apply applyStateBody_board.
Qed.

(** Capturing right after a restore gives the snapshot back, the active
    id being the restored one. *)
Lemma applyState_capture st a :
  snapshotOk st ->
  captureCurrentState (cardManager (applyState st a))
  = mkSnapshot (snap_cards st) (snap_selectedCards st) (restoredActive st).
Proof.
  intros Hok. destruct (applyState_board st a Hok) as (Hc & Hs & Ha).
  rewrite captureCurrentState_unfold, Hc, Hs, Ha.
  rewrite (capture_fold_ascending (snap_cards st) []); [reflexivity|].
  exact (proj1 Hok).
Qed.

(** A [saveState] issued at the end of the history: the new entry is the
    current one, and the length grows by one up to the capacity. *)
Lemma saveState_current now op d cm m :
  historyOk m ->
  currentIndex m = (Z.of_nat (List.length (history m)) - 1)%Z ->
  let m' := saveState now op d cm m in
  js_nth (history m') (currentIndex m')
  = Some (mkHistoryEntry op now (captureCurrentState cm) d)
  /\ Z.of_nat (List.length (history m'))
     = Z.min maxHistorySize (Z.of_nat (List.length (history m)) + 1).
Proof.
  intros (Hcap & _ & Hflag) Hend. cbv zeta. unfold saveState.
  rewrite Hflag.
  destruct (Z.ltb_spec (currentIndex m)
              (Z.of_nat (List.length (history m)) - 1)); [lia|].
  set (e := mkHistoryEntry _ _ _ _).
  rewrite length_app. cbn [List.length]. unfold maxHistorySize in *.
  destruct (Z.gtb_spec (Z.of_nat (List.length (history m) + 1)) 50);
    cbn [history currentIndex].
  - destruct (history m) as [|e0 t] eqn:E; cbn [List.length] in *; [lia|].
    cbn [app tl]. rewrite Hend.
    replace (Z.of_nat (S (List.length t)) - 1 + 1 - 1)%Z
      with (Z.of_nat (List.length t)) by lia.
    split; [apply js_nth_last|]. rewrite length_app. cbn [List.length]. lia.
  - rewrite Hend.
    replace (Z.of_nat (List.length (history m)) - 1 + 1)%Z
      with (Z.of_nat (List.length (history m))) by lia.
    split; [apply js_nth_last|]. rewrite length_app. cbn [List.length]. lia.
Qed.

Lemma saveAll_ok calls :
  forall a,
    historyOk (undoRedoManager a) ->
    currentIndex (undoRedoManager a)
      = (Z.of_nat (List.length (history (undoRedoManager a))) - 1)%Z ->
    let m' := undoRedoManager (saveAll calls a) in
    historyOk m'
    /\ currentIndex m' = (Z.of_nat (List.length (history m')) - 1)%Z
    /\ Z.of_nat (List.length (history m'))
       = Z.min maxHistorySize
               (Z.of_nat (List.length (history (undoRedoManager a)))
                + Z.of_nat (List.length calls)).
Proof.
  unfold saveAll.
  induction calls as [|[[[now op] d] cm] calls IH]; intros a Hok Hend;
    cbv zeta; cbn [fold_left].
  - split; [exact Hok|]. split; [exact Hend|].
    destruct Hok as (Hcap & _). cbn [List.length]. lia.
  - set (a1 := appSave now op d (appEdit cm a)).
    assert (undoRedoManager a1
            = saveState now op d cm (undoRedoManager a)) as Hm1 by reflexivity.
    pose proof (saveState_at_end now op d cm _ Hok) as (Hend1 & _ & _ & _).
    pose proof (saveState_ok now op d cm _ Hok) as Hok1.
    pose proof (saveState_current now op d cm _ Hok Hend) as (_ & Hlen1).
    cbv zeta in Hend1, Hlen1. rewrite <- Hm1 in Hend1, Hok1, Hlen1.
    destruct (IH a1 Hok1 Hend1) as (Hok2 & Hend2 & Hlen2).
    split; [exact Hok2|]. split; [exact Hend2|].
    rewrite Hlen2, Hlen1. cbn [List.length]. unfold maxHistorySize. lia.
Qed.

Lemma saveAll_board calls call a :
  cardManager (saveAll (calls ++ [call]) a) = boardOf call.
Proof.
  unfold saveAll. rewrite fold_left_app. cbn [fold_left].
  now destruct call as [[[now op] d] cm].
Qed.

Lemma undo_success a :
  historyOk (undoRedoManager a) ->
  (0 < currentIndex (undoRedoManager a))%Z ->
  exists e,
    js_nth (history (undoRedoManager a)) (currentIndex (undoRedoManager a) - 1)
      = Some e
    /\ undo a
       = (Some true,
          applyState (state e)
            (with_undoRedoManager a
               (with_index (undoRedoManager a)
                           (currentIndex (undoRedoManager a) - 1)))).
Proof.
  intros (Hcap & Hidx & Hflag) Hpos.
  destruct (js_nth_Some (history (undoRedoManager a))
              (currentIndex (undoRedoManager a) - 1)) as [e He]; [lia|].
  exists e. split; [exact He|].
  unfold undo, canUndo.
  destruct (Z.gtb_spec (currentIndex (undoRedoManager a)) 0); [|lia].
  cbn [negb]. now rewrite He.
Qed.

Lemma redo_success a :
  historyOk (undoRedoManager a) ->
  (currentIndex (undoRedoManager a)
   < Z.of_nat (List.length (history (undoRedoManager a))) - 1)%Z ->
  exists e,
    js_nth (history (undoRedoManager a)) (currentIndex (undoRedoManager a) + 1)
      = Some e
    /\ redo a
       = (Some true,
          applyState (state e)
            (with_undoRedoManager a
               (with_index (undoRedoManager a)
                           (currentIndex (undoRedoManager a) + 1)))).
Proof.
  intros (Hcap & Hidx & Hflag) Hroom.
  destruct (js_nth_Some (history (undoRedoManager a))
              (currentIndex (undoRedoManager a) + 1)) as [e He]; [lia|].
  exists e. split; [exact He|].
  unfold redo, canRedo.
  destruct (Z.ltb_spec (currentIndex (undoRedoManager a))
              (Z.of_nat (List.length (history (undoRedoManager a))) - 1));
    [|lia].
  cbn [negb]. now rewrite He.
Qed.

Lemma undoTimes_succeed k :
  forall a,
    historyOk (undoRedoManager a) ->
    (Z.of_nat k <= currentIndex (undoRedoManager a))%Z ->
    let m' := undoRedoManager (snd (undoTimes k a)) in
    fst (undoTimes k a) = repeat (Some true) k
    /\ history m' = history (undoRedoManager a)
    /\ currentIndex m' = (currentIndex (undoRedoManager a) - Z.of_nat k)%Z
    /\ historyOk m'.
Proof.
  induction k as [|k IH]; intros a Hok Hk; cbv zeta.
  - cbn [undoTimes fst snd repeat]. repeat split; try apply Hok. lia.
  - destruct (undo_success a Hok) as (e & He & Hundo); [lia|].
    cbn [undoTimes]. rewrite Hundo.
    set (a1 := applyState (state e) _).
    assert (undoRedoManager a1
            = with_flag (with_index (undoRedoManager a)
                           (currentIndex (undoRedoManager a) - 1)) false)
      as Hm1 by (subst a1; now rewrite applyState_manager).
    specialize (IH a1). cbv zeta in IH. rewrite Hm1 in IH.
    cbn [history currentIndex with_flag with_index] in IH.
    destruct (undoTimes k a1) as [rs a2] eqn:E. cbn [fst snd] in *.
    destruct IH as (Hr & Hh & Hi & Hok').
    + destruct Hok as (? & ? & ?).
      unfold historyOk.
      cbn [history currentIndex isPerformingUndoRedo with_flag with_index].
      repeat split; lia.
    + lia.
    + rewrite Hr. split; [reflexivity|].
      split; [exact Hh|]. split; [lia|exact Hok'].
Qed.

(** [k >= 1] redos that all succeed end in the restore of the entry they
    stop on. *)
Lemma redoTimes_succeed k :
  forall a,
    historyOk (undoRedoManager a) ->
    (currentIndex (undoRedoManager a) + Z.of_nat k
     <= Z.of_nat (List.length (history (undoRedoManager a))) - 1)%Z ->
    let m' := undoRedoManager (snd (redoTimes k a)) in
    fst (redoTimes k a) = repeat (Some true) k
    /\ history m' = history (undoRedoManager a)
    /\ currentIndex m' = (currentIndex (undoRedoManager a) + Z.of_nat k)%Z
    /\ historyOk m'
    /\ ((0 < k)%nat ->
        exists e a0,
          js_nth (history (undoRedoManager a))
                 (currentIndex (undoRedoManager a) + Z.of_nat k) = Some e
          /\ snd (redoTimes k a) = applyState (state e) a0).
Proof.
  induction k as [|k IH]; intros a Hok Hk; cbv zeta.
  - cbn [redoTimes fst snd repeat]. repeat split; try apply Hok; lia.
  - destruct (redo_success a Hok) as (e & He & Hredo); [lia|].
    cbn [redoTimes]. rewrite Hredo.
    set (a1 := applyState (state e) _).
    assert (undoRedoManager a1
            = with_flag (with_index (undoRedoManager a)
                           (currentIndex (undoRedoManager a) + 1)) false)
      as Hm1 by (subst a1; now rewrite applyState_manager).
    specialize (IH a1). cbv zeta in IH. rewrite Hm1 in IH.
    cbn [history currentIndex with_flag with_index] in IH.
    destruct (redoTimes k a1) as [rs a2] eqn:E. cbn [fst snd] in *.
    destruct IH as (Hr & Hh & Hi & Hok' & Hlast).
    + destruct Hok as (? & ? & ?).
      unfold historyOk.
      cbn [history currentIndex isPerformingUndoRedo with_flag with_index].
      repeat split; lia.
    + lia.
    + rewrite Hr. split; [reflexivity|].
      split; [exact Hh|]. split; [lia|]. split; [exact Hok'|].
      intros _. destruct k as [|k].
      * cbn [redoTimes] in E. inversion E; subst a2.
        exists e, (with_undoRedoManager a
                     (with_index (undoRedoManager a)
                        (currentIndex (undoRedoManager a) + 1))).
        split; [|reflexivity]. rewrite <- He. f_equal.
      * destruct Hlast as (e' & a0 & He' & Ha2); [lia|].
        exists e', a0. split; [|exact Ha2]. rewrite <- He'. f_equal. lia.
Qed.

Lemma undoTimes_stuck k :
  forall a,
    canUndo (undoRedoManager a) = false ->
    undoTimes k a = (repeat (Some false) k, a).
Proof.
  induction k as [|k IH]; intros a Hno; cbn [undoTimes repeat].
  - reflexivity.
  - unfold undo at 1. rewrite Hno. cbn [negb]. now rewrite IH.
Qed.

Lemma redoTimes_stuck k :
  forall a,
    canRedo (undoRedoManager a) = false ->
    redoTimes k a = (repeat (Some false) k, a).
Proof.
  induction k as [|k IH]; intros a Hno; cbn [redoTimes repeat].
  - reflexivity.
  - unfold redo at 1. rewrite Hno. cbn [negb]. now rewrite IH.
Qed.

Lemma undoTimes_add k1 k2 :
  forall a,
    undoTimes (k1 + k2) a
    = (fst (undoTimes k1 a) ++ fst (undoTimes k2 (snd (undoTimes k1 a))),
       snd (undoTimes k2 (snd (undoTimes k1 a)))).
Proof.
  induction k1 as [|k1 IH]; intros a; cbn [Nat.add undoTimes fst snd app].
  - now destruct (undoTimes k2 a).
  - destruct (undo a) as [r a1]. rewrite IH.
    destruct (undoTimes k1 a1) as [rs a2]. reflexivity.
Qed.

Lemma redoTimes_add k1 k2 :
  forall a,
    redoTimes (k1 + k2) a
    = (fst (redoTimes k1 a) ++ fst (redoTimes k2 (snd (redoTimes k1 a))),
       snd (redoTimes k2 (snd (redoTimes k1 a)))).
Proof.
  induction k1 as [|k1 IH]; intros a; cbn [Nat.add redoTimes fst snd app].
  - now destruct (redoTimes k2 a).
  - destruct (redo a) as [r a1]. rewrite IH.
    destruct (redoTimes k1 a1) as [rs a2]. reflexivity.
Qed.

Lemma state_entryOf call :
  state (entryOf call) = captureCurrentState (boardOf call).
Proof. now destruct call as [[[now op] d] cm]. Qed.

(** C1, as the code has it.  Take N saveState calls on a fresh
    application, each on whatever board the user has made, the last board
    being well formed, then N-1 undos and N-1 redos.  With K the smaller
    of N and the capacity 50, the first K-1 undos answer true and the
    others false, and so do the redos: all of them answer true when N is at
    most 50.  Afterwards the current entry is again the Nth, and the board
    captured then has the cards (id, x, y, width, height, content) and the
    selected ids of the Nth snapshot; its active id is the snapshot's when
    that id is none or names one of the snapshot's cards, and after a
    restore it is none otherwise. *)
Theorem undo_redo_round_trip :
  forall (calls : list (Z * string * EntryData * CardManager))
         (last : Z * string * EntryData * CardManager),
    boardOk (boardOf last) ->
    let k := List.length calls in
    let K := Nat.min k 49 in
    let a := saveAll (calls ++ [last]) newApp in
    let a1 := snd (undoTimes k a) in
    let a2 := snd (redoTimes k a1) in
    let latest := captureCurrentState (boardOf last) in
    let restored := captureCurrentState (cardManager a2) in
    fst (undoTimes k a) = repeat (Some true) K ++ repeat (Some false) (k - K)
    /\ fst (redoTimes k a1)
       = repeat (Some true) K ++ repeat (Some false) (k - K)
    /\ ((List.length (calls ++ [last]) <= 50)%nat ->
        fst (undoTimes k a) = repeat (Some true) k
        /\ fst (redoTimes k a1) = repeat (Some true) k)
    /\ js_nth (history (undoRedoManager a2)) (currentIndex (undoRedoManager a2))
       = Some (entryOf last)
    /\ snap_cards restored = snap_cards latest
    /\ snap_selectedCards restored = snap_selectedCards latest
    /\ ((forall act, snap_activeCard latest = Some act ->
                     map_has (snap_cards latest) act = true) ->
        snap_activeCard restored = snap_activeCard latest)
    /\ (calls <> [] -> snap_activeCard restored = restoredActive latest).
Proof.
  intros calls last Hboard k K a a1 a2 latest restored.
  (* the state after the saves *)
  pose proof (saveAll_ok calls newApp newApp_ok eq_refl) as (Hok0 & Hend0 & Hlen0).
  cbv zeta in Hok0, Hend0, Hlen0.
  cbn [newApp undoRedoManager newUndoRedoManager history List.length] in Hlen0.
  fold k in Hlen0.
  set (b := saveAll calls newApp) in *.
  assert (a = appSave (fst (fst (fst last))) (snd (fst (fst last)))
                      (snd (fst last)) (appEdit (boardOf last) b)) as Ha.
  { subst a b. unfold saveAll. rewrite fold_left_app. cbn [fold_left].
    now destruct last as [[[now op] d] cm]. }
  assert (undoRedoManager a
          = saveState (fst (fst (fst last))) (snd (fst (fst last)))
                      (snd (fst last)) (boardOf last) (undoRedoManager b))
    as Hma by (rewrite Ha; reflexivity).
  pose proof (saveState_ok (fst (fst (fst last))) (snd (fst (fst last)))
                (snd (fst last)) (boardOf last) _ Hok0) as Hok.
  pose proof (saveState_at_end (fst (fst (fst last))) (snd (fst (fst last)))
                (snd (fst last)) (boardOf last) _ Hok0) as (Hend & _).
  pose proof (saveState_current (fst (fst (fst last))) (snd (fst (fst last)))
                (snd (fst last)) (boardOf last) _ Hok0 Hend0) as (Hcur & Hlen).
  cbv zeta in Hend, Hcur, Hlen. rewrite <- Hma in Hok, Hend, Hcur, Hlen.
  assert (mkHistoryEntry (snd (fst (fst last))) (fst (fst (fst last)))
            (captureCurrentState (boardOf last)) (snd (fst last))
          = entryOf last) as Hentry
      by now destruct last as [[[now op] d] cm].
  rewrite Hentry in Hcur. rewrite Hlen0 in Hlen. unfold maxHistorySize in Hlen.
  assert (currentIndex (undoRedoManager a) = Z.of_nat K) as HiK
      by (subst K; lia).
  (* the undos *)
  assert (k = K + (k - K))%nat as Hsplit by (subst K; lia).
  destruct (undoTimes_succeed K a Hok) as (Hu & Hh1 & Hi1 & Hok1); [lia|].
  set (au := snd (undoTimes K a)) in *.
  assert (undoTimes (k - K) au = (repeat (Some false) (k - K), au)) as Hu2.
  { apply undoTimes_stuck. unfold canUndo. rewrite Hi1, Z.gtb_ltb.
    apply Z.ltb_ge. lia. }
  assert (undoTimes k a
          = (repeat (Some true) K ++ repeat (Some false) (k - K), au))
    as Hundo.
  { rewrite Hsplit at 1. rewrite undoTimes_add. fold au.
    now rewrite Hu2, Hu. }
  assert (a1 = au) as Ha1 by (subst a1; now rewrite Hundo).
  (* the redos *)
  destruct (redoTimes_succeed K au Hok1) as (Hr & Hh2 & Hi2 & Hok2 & Hlast).
  { rewrite Hi1, Hh1. lia. }
  set (ar := snd (redoTimes K au)) in *.
  assert (redoTimes (k - K) ar = (repeat (Some false) (k - K), ar)) as Hr2.
  { apply redoTimes_stuck. unfold canRedo. rewrite Hi2, Hh2, Hi1, Hh1.
    apply Z.ltb_ge. lia. }
  assert (redoTimes k au
          = (repeat (Some true) K ++ repeat (Some false) (k - K), ar))
    as Hredo.
  { rewrite Hsplit at 1. rewrite redoTimes_add. fold ar.
    now rewrite Hr2, Hr. }
  assert (a2 = ar) as Ha2 by (subst a2; now rewrite Ha1, Hredo).
  assert (currentIndex (undoRedoManager ar)
          = currentIndex (undoRedoManager a)) as Hidx
      by (rewrite Hi2, Hi1; lia).
  split; [now rewrite Hundo|]. split; [now rewrite Ha1, Hredo|].
  split.
  { rewrite length_app. cbn [List.length]. fold k. intros HN.
    assert (K = k) as HK by (subst K; lia).
    rewrite Hundo, Ha1, Hredo. cbn [fst]. rewrite HK, Nat.sub_diag.
    cbn [repeat]. now rewrite app_nil_r. }
  split; [now rewrite Ha2, Hidx, Hh2, Hh1|].
  assert (snapshotOk latest) as Hsnap by now apply captureCurrentState_ok.
  subst restored. rewrite Ha2.
  destruct (Nat.eq_dec K 0) as [HK0|HKpos].
  - assert (calls = []) as Hnil.
    { apply length_zero_iff_nil. fold k. subst K. lia. }
    subst ar au. rewrite HK0. cbn [undoTimes redoTimes snd].
    rewrite Ha. cbn [cardManager appSave appEdit with_undoRedoManager
                     with_cardManager].
    fold latest. repeat split; try reflexivity. intros Hne. now elim Hne.
  - destruct Hlast as (e & a0 & He & Har); [lia|].
    rewrite Hh1, <- Hi2, Hidx, Hcur in He. inversion He; subst e.
    rewrite Har, state_entryOf. fold latest.
    rewrite applyState_capture by exact Hsnap.
    cbn [snap_cards snap_selectedCards snap_activeCard].
    split; [reflexivity|]. split; [reflexivity|]. split; [|reflexivity].
    intros Hact. unfold restoredActive.
    destruct (snap_activeCard latest) as [act|]; [|reflexivity].
    now rewrite (Hact act eq_refl).
Qed.

(* ================================================================== *)
(** * Properties of the viewport                                     *)
(* ================================================================== *)










(* ================================================================== *)
(** * Properties of the import                                       *)
(* ================================================================== *)


(* ================================================================== *)
(** * Properties of the snap resolver                                *)
(* ================================================================== *)

Lemma Qltb_lt a b : Qltb a b = true <-> a < b.
Proof.
  unfold Qltb. rewrite negb_true_iff. split.
  - intros H. apply Qnot_le_lt. intros Hle.
    apply Qle_bool_iff in Hle. congruence.
  - intros H. destruct (Qle_bool b a) eqn:E; [|reflexivity].
    apply Qle_bool_iff in E. lra.
Qed.

Lemma Qltb_ge a b : Qltb a b = false <-> b <= a.
Proof.
  unfold Qltb. rewrite negb_false_iff. apply Qle_bool_iff.
Qed.

Lemma snapStep_state p seen st a :
  axisState p seen st -> axisState p (seen ++ [a]) (snapStep p st a).
Proof.
  intros [[Hnone ->]|(l1 & w & l2 & -> & Hw & Hbefore & Hafter & ->)];
    unfold snapStep; cbn [minDist]; fold (alignDist a).
  - destruct (Qltb (alignDist a) SNAP_DISTANCE) eqn:E1; cbn [andb].
    + apply Qltb_lt in E1.
      assert (Qltb (alignDist a) (SNAP_DISTANCE + 1) = true) as ->
          by (apply Qltb_lt; lra).
      right. exists seen, a, []. repeat split; try assumption.
      * intros b Hb. specialize (Hnone b Hb). lra.
      * intros b [].
    + apply Qltb_ge in E1. left. split; [|reflexivity].
      intros b Hb. apply in_app_or in Hb. destruct Hb as [Hb|[<-|[]]].
      * now apply Hnone.
      * lra.
  - destruct (Qltb (alignDist a) SNAP_DISTANCE
              && Qltb (alignDist a) (alignDist w)) eqn:E.
    + apply andb_true_iff in E. destruct E as [E1 E2].
      apply Qltb_lt in E1. apply Qltb_lt in E2.
      right. exists (l1 ++ w :: l2), a, []. repeat split; try assumption.
      * intros b Hb. apply in_app_or in Hb. destruct Hb as [Hb|[<-|Hb]].
        -- specialize (Hbefore b Hb). lra.
        -- exact E2.
        -- specialize (Hafter b Hb). lra.
      * intros b [].
    + right. exists l1, w, (l2 ++ [a]).
      rewrite <- app_assoc. cbn [app]. repeat split; try assumption.
      intros b Hb. apply in_app_or in Hb. destruct Hb as [Hb|[<-|[]]].
      * now apply Hafter.
      * apply andb_false_iff in E. destruct E as [E|E]; apply Qltb_ge in E; lra.
Qed.

Lemma snapFold_state p (todo : list Alignment) :
  forall seen st,
    axisState p seen st ->
    axisState p (seen ++ todo) (fold_left (snapStep p) todo st).
Proof.
  induction todo as [|a todo IH]; intros seen st Hst; cbn [fold_left].
  - now rewrite app_nil_r.
  - replace (seen ++ a :: todo) with ((seen ++ [a]) ++ todo)
      by now rewrite <- app_assoc.
    apply IH. now apply snapStep_state.
Qed.


(** The loop over the cards is, on each axis, one fold over that axis's
    candidates. *)
Lemma snapLoop_folds offsetHeight x y draggedCardData excludeCards entries :
  forall sx sy,
    snapLoop offsetHeight x y draggedCardData excludeCards entries sx sy
    = (fold_left (snapStep x)
         (xCandidates entries x draggedCardData excludeCards) sx,
       fold_left (snapStep y)
         (yCandidates offsetHeight entries y draggedCardData excludeCards)
         sy).
Proof.
  unfold xCandidates, yCandidates, stationaryCards.
  induction entries as [|[id cardData] entries IH]; intros sx sy;
    cbn [snapLoop filter flat_map fst snd].
  - reflexivity.
  - destruct (set_has excludeCards id); cbn [negb].
    + apply IH.
    + cbn [flat_map fst snd]. rewrite !fold_left_app. apply IH.
Qed.


(* ================================================================== *)
(** * Properties of the drag gesture                                 *)
(* ================================================================== *)

Section MapLemmas.
Context {V : Type}.
Implicit Types (m : list (positive * V)) (k : positive) (v : V).

Lemma map_get_set m k v k' :
  map_get (map_set m k v) k'
  = if Pos.eqb k' k then Some v else map_get m k'.
Proof.
  induction m as [|[k0 v0] m IH]; cbn [map_set map_get].
  - reflexivity.
  - destruct (Pos.eqb_spec k k0) as [->|Hne]; cbn [map_get].
    + destruct (Pos.eqb_spec k' k0); reflexivity.
    + destruct (Pos.eqb_spec k' k0) as [->|Hne'].
      * destruct (Pos.eqb_spec k0 k); [congruence|reflexivity].
      * exact IH.
Qed.

Lemma map_get_obj_set m k v k' :
  map_get (obj_set m k v) k'
  = if Pos.eqb k' k then Some v else map_get m k'.
Proof.
  induction m as [|[k0 v0] m IH]; cbn [obj_set map_get].
  - reflexivity.
  - destruct (Pos.compare_spec k k0) as [->|Hlt|Hgt]; cbn [map_get].
    + destruct (Pos.eqb_spec k' k0); reflexivity.
    + destruct (Pos.eqb_spec k' k); reflexivity.
    + destruct (Pos.eqb_spec k' k0) as [->|Hne'].
      * destruct (Pos.eqb_spec k0 k); [lia|reflexivity].
      * exact IH.
Qed.

Lemma map_set_keys m k v k' :
  In k' (map fst (map_set m k v)) <-> k' = k \/ In k' (map fst m).
Proof.
  induction m as [|[k0 v0] m IH]; cbn [map_set map fst In].
  - intuition congruence.
  - destruct (Pos.eqb_spec k k0) as [->|Hne]; cbn [map fst In].
    + intuition congruence.
    + rewrite IH. intuition congruence.
Qed.

Lemma map_set_NoDup m k v :
  NoDup (map fst m) -> NoDup (map fst (map_set m k v)).
Proof.
  induction m as [|[k0 v0] m IH]; cbn [map_set map fst]; intros Hnd.
  - repeat constructor. intros [].
  - inversion Hnd as [|? ? Hnotin Hnd']; subst.
    destruct (Pos.eqb_spec k k0) as [->|Hne]; cbn [map fst].
    + now constructor.
    + constructor; [|now apply IH].
      rewrite map_set_keys. intros [->|Hin]; [congruence|contradiction].
Qed.

Lemma map_get_notin m k : ~ In k (map fst m) -> map_get m k = None.
Proof.
  induction m as [|[k0 v0] m IH]; cbn [map fst In map_get]; intros Hn.
  - reflexivity.
  - destruct (Pos.eqb_spec k k0) as [->|Hne]; [tauto|].
    apply IH. tauto.
Qed.
End MapLemmas.

Lemma map_get_moveCard cs k nx ny k' :
  map_get (moveCard cs k nx ny) k'
  = if Pos.eqb k' k then option_map (placedAt nx ny) (map_get cs k)
    else map_get cs k'.
Proof.
  unfold moveCard. destruct (map_get cs k) as [c|] eqn:E.
  - rewrite map_get_set. destruct (Pos.eqb_spec k' k); reflexivity.
  - destruct (Pos.eqb_spec k' k) as [->|]; [exact E|reflexivity].
Qed.


Lemma dragEntries_fold cs mouse (ids : list positive) :
  forall (starts offs : list (positive * Point)) k,
    let result :=
      fold_left
        (fun (acc : list (positive * Point) * list (positive * Point))
             selectedId =>
           match map_get cs selectedId with
           | Some selectedCard =>
               (map_set (fst acc) selectedId (positionOf selectedCard),
                map_set (snd acc) selectedId
                  (mkPoint (pt_x mouse - card_x selectedCard)
                           (pt_y mouse - card_y selectedCard)))
           | None => acc
           end)
        ids (starts, offs) in
    map_get (fst result) k
    = (if set_has ids k
       then match map_get cs k with
            | Some c => Some (positionOf c)
            | None => map_get starts k
            end
       else map_get starts k)
    /\ map_get (snd result) k
       = (if set_has ids k
          then match map_get cs k with
               | Some c => Some (mkPoint (pt_x mouse - card_x c)
                                         (pt_y mouse - card_y c))
               | None => map_get offs k
               end
          else map_get offs k)
    /\ (NoDup (map fst offs) -> NoDup (map fst (snd result))).
Proof.
  induction ids as [|i ids IH]; intros starts offs k; cbv zeta;
    cbn [fold_left].
  - now repeat split.
  - unfold set_has. cbn [existsb]. fold (set_has ids k).
    destruct (map_get cs i) as [ci|] eqn:Ei.
    + destruct (IH (map_set starts i (positionOf ci))
                   (map_set offs i (mkPoint (pt_x mouse - card_x ci)
                                            (pt_y mouse - card_y ci))) k)
        as (H1 & H2 & H3).
      cbn [fst snd]. rewrite H1, H2, !map_get_set.
      split; [|split].
      * destruct (Pos.eqb_spec k i) as [->|]; cbn [orb];
          [rewrite Ei; now destruct (set_has ids i)|reflexivity].
      * destruct (Pos.eqb_spec k i) as [->|]; cbn [orb];
          [rewrite Ei; now destruct (set_has ids i)|reflexivity].
      * intros Hnd. apply H3. now apply map_set_NoDup.
    + destruct (IH starts offs k) as (H1 & H2 & H3).
      cbn [fst snd]. rewrite H1, H2.
      split; [|split; [|exact H3]].
      * destruct (Pos.eqb_spec k i) as [->|]; cbn [orb];
          [rewrite Ei; now destruct (set_has ids i)|reflexivity].
      * destruct (Pos.eqb_spec k i) as [->|]; cbn [orb];
          [rewrite Ei; now destruct (set_has ids i)|reflexivity].
Qed.

(** What [startDragging] records for card [k]. *)
Lemma dragEntries_spec cs mouse ids k :
  map_get (fst (dragEntries cs mouse ids)) k
  = (if set_has ids k then option_map positionOf (map_get cs k) else None)
  /\ map_get (snd (dragEntries cs mouse ids)) k
     = (if set_has ids k
        then option_map (fun c => mkPoint (pt_x mouse - card_x c)
                                          (pt_y mouse - card_y c))
                        (map_get cs k)
        else None)
  /\ NoDup (map fst (snd (dragEntries cs mouse ids))).
Proof.
  destruct (dragEntries_fold cs mouse ids [] [] k) as (H1 & H2 & H3).
  unfold dragEntries. rewrite H1, H2.
  split; [|split; [|apply H3; constructor]].
  - destruct (set_has ids k); [now destruct (map_get cs k)|reflexivity].
  - destruct (set_has ids k); [now destruct (map_get cs k)|reflexivity].
Qed.




Lemma Qneqb_true a b : Qneqb a b = true <-> ~ a == b.
Proof.
  unfold Qneqb. rewrite negb_true_iff. split.
  - intros Hf Heq. apply Qeq_bool_iff in Heq. congruence.
  - intros Hne. destruct (Qeq_bool a b) eqn:E; [|reflexivity].
    apply Qeq_bool_iff in E. contradiction.
Qed.

Lemma finalPositionsOf_fold cm (ids : list positive) :
  forall (o : list (positive * Point)) k,
    map_get
      (fold_left
         (fun o cardId =>
            match map_get (cards cm) cardId with
            | Some card =>
                obj_set o cardId (mkPoint (card_x card) (card_y card))
            | None => o
            end)
         ids o) k
    = if set_has ids k
      then match map_get (cards cm) k with
           | Some c => Some (positionOf c)
           | None => map_get o k
           end
      else map_get o k.
Proof.
  induction ids as [|i ids IH]; intros o k; cbn [fold_left].
  - reflexivity.
  - rewrite IH. unfold set_has. cbn [existsb]. fold (set_has ids k).
    destruct (map_get (cards cm) i) as [ci|] eqn:Ei.
    + rewrite map_get_obj_set.
      destruct (Pos.eqb_spec k i) as [->|]; cbn [orb];
        [rewrite Ei; now destruct (set_has ids i)|reflexivity].
    + destruct (Pos.eqb_spec k i) as [->|]; cbn [orb];
        [rewrite Ei; now destruct (set_has ids i)|reflexivity].
Qed.

Lemma finalPositionsOf_spec cm ids k :
  map_get (finalPositionsOf cm ids) k
  = if set_has ids k then option_map positionOf (map_get (cards cm) k)
    else None.
Proof.
  unfold finalPositionsOf. rewrite finalPositionsOf_fold.
  destruct (set_has ids k); [now destruct (map_get (cards cm) k)|reflexivity].
Qed.

Lemma hasChanged_iff ids startPositions finalPositions :
  hasChanged ids startPositions finalPositions = true
  <-> exists k start final,
        In k ids
        /\ map_get startPositions k = Some start
        /\ map_get finalPositions k = Some final
        /\ ~ (pt_x start == pt_x final /\ pt_y start == pt_y final).
Proof.
  unfold hasChanged. rewrite existsb_exists. split.
  - intros (k & Hin & Hk).
    destruct (map_get startPositions k) as [start|] eqn:Es; [|discriminate].
    destruct (map_get finalPositions k) as [final|] eqn:Ef; [|discriminate].
    exists k, start, final.
    split; [exact Hin|]. split; [exact Es|]. split; [exact Ef|].
    intros [Hx Hy]. apply orb_true_iff in Hk.
    destruct Hk as [Hk|Hk]; apply Qneqb_true in Hk; contradiction.
  - intros (k & start & final & Hin & Hs & Hf & Hne).
    exists k. split; [exact Hin|]. rewrite Hs, Hf.
    destruct (Qneqb (pt_x start) (pt_x final)) eqn:Ex; [reflexivity|].
    destruct (Qneqb (pt_y start) (pt_y final)) eqn:Ey; [reflexivity|].
    exfalso. apply Hne. unfold Qneqb in Ex, Ey.
    apply negb_false_iff in Ex, Ey. now split; apply Qeq_bool_iff.
Qed.

(** What a [saveState] that is not suppressed does to the list: the
    entries up to the current index are kept, the new one is appended, and
    at capacity the oldest is dropped. *)
Lemma saveState_history now op d cm m :
  historyOk m ->
  let m' := saveState now op d cm m in
  let e := mkHistoryEntry op now (captureCurrentState cm) d in
  let kept := firstn (Z.to_nat (currentIndex m + 1)) (history m) in
  (history m' = kept ++ [e]
   \/ (history m' = tl (kept ++ [e])
       /\ Z.of_nat (List.length kept) = maxHistorySize))
  /\ currentIndex m' = (Z.of_nat (List.length (history m')) - 1)%Z
  /\ pendingDragOperation m' = pendingDragOperation m
  /\ contentChangeTimeout m' = contentChangeTimeout m.
Proof.
  intros Hok. pose proof (saveState_at_end now op d cm m Hok) as (Hend & _).
  destruct Hok as (Hcap & Hidx & Hflag). cbv zeta.
  split; [|split; [exact Hend|]].
  - unfold saveState. rewrite Hflag.
    set (e := mkHistoryEntry _ _ _ _).
    set (h1 := if (_ <? _)%Z then _ else _).
    assert (h1 = firstn (Z.to_nat (currentIndex m + 1)) (history m)) as Hh1.
    { subst h1. destruct (Z.ltb_spec (currentIndex m)
                            (Z.of_nat (List.length (history m)) - 1)).
      - unfold slice0. destruct (Z.ltb_spec (currentIndex m + 1) 0); [lia|].
        reflexivity.
      - rewrite firstn_all2; [reflexivity|lia]. }
    rewrite <- Hh1.
    assert (Z.of_nat (List.length h1) = currentIndex m + 1)%Z as Hlen.
    { rewrite Hh1, length_firstn. lia. }
    rewrite length_app. cbn [List.length].
    destruct (Z.gtb_spec (Z.of_nat (List.length h1 + 1)) maxHistorySize);
      cbn [history].
    + right. split; [reflexivity|]. unfold maxHistorySize in *. lia.
    + now left.
  - unfold saveState. rewrite Hflag.
    destruct (_ >? _)%Z; split; reflexivity.
Qed.

Lemma updateCardDrag_frame offsetHeight e a :
  let a' := snd (updateCardDrag offsetHeight e a) in
  undoRedoManager a' = undoRedoManager a
  /\ draggedCard (cardManager a') = draggedCard (cardManager a).
Proof.
  cbv zeta. unfold updateCardDrag.
  destruct (draggedCard (cardManager a)) as [draggedCardId|] eqn:Ed;
    [|now split].
  destruct (multiDragOffsets (cardManager a)) as [|entry rest].
  - destruct (map_get (cards (cardManager a)) draggedCardId);
      [|destruct (applySnappingAt _ _ _ _ _ _)]; now split.
  - destruct (map_get (entry :: rest) draggedCardId); [|now split].
    destruct (applySnappingAt _ _ _ _ _ _); now split.
Qed.

Lemma dragMoves_frame offsetHeight (es : list MouseEvent) :
  forall a,
    let a' := snd (dragMoves offsetHeight es a) in
    undoRedoManager a' = undoRedoManager a
    /\ draggedCard (cardManager a') = draggedCard (cardManager a).
Proof.
  induction es as [|e es IH]; intros a; cbv zeta; cbn [dragMoves].
  - now split.
  - pose proof (updateCardDrag_frame offsetHeight e a) as [Hm Hd].
    cbv zeta in Hm, Hd.
    destruct (updateCardDrag offsetHeight e a) as [[u|] a1]; cbn [snd] in *.
    + destruct (IH a1) as [Hm' Hd']. cbv zeta in Hm', Hd'.
      split; congruence.
    + now split.
Qed.

Lemma startDragging_pending now cardId e a a1 :
  isPerformingUndoRedo (undoRedoManager a) = false ->
  startDragging now cardId e a = (Some tt, a1) ->
  exists startPositions,
    undoRedoManager a1
    = with_pending (undoRedoManager a)
        (Some (mkPendingDrag (dragTag (draggedIds (cardManager a) cardId))
                 (draggedIds (cardManager a) cardId) startPositions now))
    /\ draggedCard (cardManager a1) = Some cardId
    /\ forall k,
         map_get startPositions k
         = if set_has (draggedIds (cardManager a) cardId) k
           then option_map positionOf (map_get (cards (cardManager a)) k)
           else None.
Proof.
  intros Hflag Hstart. unfold startDragging, draggedIds in *.
  destruct (set_has (selectedCards (cardManager a)) cardId) eqn:Hsel.
  - destruct (dragEntries _ _ _) as [starts offsets] eqn:Eentries.
    inversion Hstart; subst a1. exists starts.
    cbn [undoRedoManager cardManager draggedCard with_drag].
    unfold saveDragState. rewrite Hflag. repeat split.
    intros k.
    destruct (dragEntries_spec (cards (cardManager a))
                (screenToWorld (world a) (clientX e) (clientY e))
                (selectedCards (cardManager a)) k) as (H1 & _ & _).
    now rewrite Eentries in H1.
  - destruct (map_get (cards (cardManager a)) cardId) as [cardData|] eqn:Ec;
      [|discriminate].
    inversion Hstart; subst a1. exists [(cardId, positionOf cardData)].
    cbn [undoRedoManager cardManager draggedCard with_drag].
    unfold saveDragState. rewrite Hflag. repeat split.
    intros k. unfold set_has. cbn [existsb map_get].
    rewrite orb_false_r.
    destruct (Pos.eqb_spec k cardId) as [->|]; [now rewrite Ec|reflexivity].
Qed.

(** C7.  A drag gesture on an application whose history is in order:
    startDragging, any pointer movements, endDragging.  Neither the start
    nor the movements touch the history.  If some dragged card ends away
    from where it started, the end writes exactly one entry: the entries
    up to the current index are kept, the new entry is appended (the
    oldest entry leaving when the 50 slots are full), it carries the tag
    card_move when one id is dragged and multi_card_move when several are,
    and it snapshots the board as the gesture left it.  If every dragged
    card ends where it started, history and index are what they were.  In
    both cases the pending drag record is cleared. *)
Theorem drag_gesture_writes_one_entry_iff_moved :
  forall (offsetHeight : positive -> Q) (now0 now1 : Z) (cardId : positive)
         (e0 : MouseEvent) (es : list MouseEvent) (a a1 : App),
    historyOk (undoRedoManager a) ->
    startDragging now0 cardId e0 a = (Some tt, a1) ->
    let a2 := snd (dragMoves offsetHeight es a1) in
    let a3 := endDragging now1 a2 in
    let ids := draggedIds (cardManager a) cardId in
    let m0 := undoRedoManager a in
    let m3 := undoRedoManager a3 in
    let kept := firstn (Z.to_nat (currentIndex m0 + 1)) (history m0) in
    let moved :=
      someCardMoved ids (cards (cardManager a)) (cards (cardManager a2)) in
    (history (undoRedoManager a1) = history m0
     /\ currentIndex (undoRedoManager a1) = currentIndex m0)
    /\ (history (undoRedoManager a2) = history m0
        /\ currentIndex (undoRedoManager a2) = currentIndex m0)
    /\ (moved ->
        exists e,
          operation e = dragTag ids
          /\ state e = captureCurrentState (cardManager a2)
          /\ (history m3 = kept ++ [e]
              \/ (history m3 = tl (kept ++ [e])
                  /\ Z.of_nat (List.length kept) = maxHistorySize))
          /\ currentIndex m3 = (Z.of_nat (List.length (history m3)) - 1)%Z)
    /\ (~ moved ->
        history m3 = history m0 /\ currentIndex m3 = currentIndex m0)
    /\ pendingDragOperation m3 = None.
Proof.
  intros offsetHeight now0 now1 cardId e0 es a a1 Hok Hstart a2 a3 ids m0 m3
         kept moved.
  destruct (startDragging_pending now0 cardId e0 a a1 (proj2 (proj2 Hok))
              Hstart) as (starts & Hm1 & Hd1 & Hstarts).
  fold ids in Hm1, Hstarts. fold m0 in Hm1.
  destruct (dragMoves_frame offsetHeight es a1) as [Hm2 Hd2].
  cbv zeta in Hm2, Hd2. fold a2 in Hm2, Hd2. rewrite Hm1 in Hm2.
  rewrite Hd1 in Hd2.
  split; [now rewrite Hm1|]. split; [now rewrite Hm2|].
  assert (m3 = finishDragOperation now1 (cardManager a2) (undoRedoManager a2))
    as Hm3.
  { subst m3 a3. unfold endDragging. rewrite Hd2. reflexivity. }
  rewrite Hm2 in Hm3. unfold finishDragOperation in Hm3.
  cbn [pendingDragOperation with_pending isPerformingUndoRedo pd_cardIds
       pd_startPositions pd_operation] in Hm3.
  assert (isPerformingUndoRedo m0 = false) as Hflag
      by exact (proj2 (proj2 Hok)).
  rewrite Hflag in Hm3.
  set (finals := finalPositionsOf (cardManager a2) ids) in Hm3.
  assert (hasChanged ids starts finals = true <-> moved) as Hmoved.
  { rewrite hasChanged_iff. subst moved. unfold someCardMoved.
    split.
    - intros (k & start & final & Hin & Hs & Hf & Hne).
      apply set_has_In in Hin. subst finals.
      rewrite Hstarts, Hin in Hs. rewrite finalPositionsOf_spec, Hin in Hf.
      destruct (map_get (cards (cardManager a)) k) as [c|] eqn:Ec;
        [|discriminate].
      destruct (map_get (cards (cardManager a2)) k) as [c'|] eqn:Ec';
        [|discriminate].
      cbn [option_map] in Hs, Hf. inversion Hs; inversion Hf; subst.
      exists k, c, c'. apply set_has_In in Hin.
      split; [exact Hin|].
      split; [first [exact Ec|reflexivity]|].
      split; [first [exact Ec'|reflexivity]|].
      exact Hne.
    - intros (k & c & c' & Hin & Hc & Hc' & Hne).
      exists k, (positionOf c), (positionOf c').
      pose proof Hin as Hin'. apply set_has_In in Hin'.
      subst finals. rewrite Hstarts, finalPositionsOf_spec, Hin', Hc, Hc'.
      now repeat split. }
  assert (historyOk (with_pending m0
                       (Some (mkPendingDrag (dragTag ids) ids starts now0))))
    as Hok' by exact Hok.
  split; [|split].
  - intros Hmv. apply Hmoved in Hmv. rewrite Hmv in Hm3.
    pose proof (saveState_history now1 (dragTag ids)
                  (data_drag ids starts finals) (cardManager a2) _ Hok')
      as (Hshape & Hidx & _).
    cbv zeta in Hshape, Hidx.
    cbn [history currentIndex with_pending] in Hshape.
    exists (mkHistoryEntry (dragTag ids) now1
              (captureCurrentState (cardManager a2))
              (data_drag ids starts finals)).
    rewrite Hm3. cbn [operation state history currentIndex with_pending].
    repeat split; assumption.
  - intros Hnot.
    destruct (hasChanged ids starts finals) eqn:E;
      [exfalso; apply Hnot; now apply Hmoved|].
    rewrite Hm3. now split.
  - rewrite Hm3. reflexivity.
Qed.

(* ================================================================== *)
(** * Further properties of the model                                *)
(* ================================================================== *)

(** Coordinate round trip: for a viewport whose scale is not zero,
    worldToScreen undoes screenToWorld and screenToWorld undoes
    worldToScreen, on both coordinates. *)
Theorem screen_world_round_trip :
  forall (w : World) (px py : Q),
    ~ scale w == 0 ->
    let there := screenToWorld w px py in
    let back := worldToScreen w px py in
    (pt_x (worldToScreen w (pt_x there) (pt_y there)) == px
     /\ pt_y (worldToScreen w (pt_x there) (pt_y there)) == py)
    /\ (pt_x (screenToWorld w (pt_x back) (pt_y back)) == px
        /\ pt_y (screenToWorld w (pt_x back) (pt_y back)) == py).
Proof.
  intros w px py Hs. cbv zeta. unfold screenToWorld, worldToScreen.
  cbn [pt_x pt_y]. repeat split; field; exact Hs.
Qed.

(** Easing: one animation frame leaves the targets alone and shrinks each
    of the three remaining distances (translate x, translate y, scale) to
    exactly four fifths of what it was, sign included, so the current
    values approach the targets monotonically. *)
Theorem animate_contracts_towards_target :
  forall w : World,
    let w' := animate w in
    (targetTX w' = targetTX w /\ targetTY w' = targetTY w
     /\ targetScale w' = targetScale w)
    /\ targetTX w' - translateX w' == (1 - DAMPING) * (targetTX w - translateX w)
    /\ targetTY w' - translateY w' == (1 - DAMPING) * (targetTY w - translateY w)
    /\ targetScale w' - scale w' == (1 - DAMPING) * (targetScale w - scale w).
Proof.
  intros w. cbv zeta. unfold animate.
  cbn [targetTX targetTY targetScale translateX translateY scale].
  split; [now repeat split|]. repeat split; ring.
Qed.

Lemma map_set_Forall {V : Type} (P : positive * V -> Prop)
  (m : list (positive * V)) k v :
  Forall P m -> P (k, v) -> Forall P (map_set m k v).
Proof.
  induction m as [|[k' v'] m IH]; intros Hm Hk; cbn [map_set].
  - now constructor.
  - inversion Hm; subst.
    destruct (Pos.eqb k k'); constructor; auto.
Qed.


Lemma map_get_In {V : Type} (m : list (positive * V)) k v :
  map_get m k = Some v -> In (k, v) m.
Proof.
  induction m as [|[k' v'] m IH]; cbn [map_get In]; [discriminate|].
  destruct (Pos.eqb_spec k k') as [->|Hne].
  - intros E. inversion E. now left.
  - intros E. right. now apply IH.
Qed.



(** The specification's second scenario: deleting the only card while it
    is active leaves no card, no selection and no active card, closes the
    editing panel and arms a save of the empty card list. *)
Example delete_only_active_card :
  let a := deleteCard 1 soloApp in
  cards (cardManager a) = []
  /\ selectedCards (cardManager a) = []
  /\ activeCard (cardManager a) = None
  /\ isOpen (sidebar a) = false
  /\ autoSaveTimeout (storage a) = Some [].
Proof. vm_compute. repeat split. Qed.

(* ================================================================== *)
(** * Properties of the card store                                   *)
(* ================================================================== *)

Section MoreMapLemmas.
Context {V : Type}.
Implicit Types (m : list (positive * V)) (k : positive) (v : V).

Lemma map_get_keys m k v : map_get m k = Some v -> In k (map fst m).
Proof.
  intros H. apply map_get_In in H. now apply (in_map fst) in H.
Qed.

Lemma map_get_none m k : map_get m k = None -> ~ In k (map fst m).
Proof.
  induction m as [|[k0 v0] m IH]; cbn [map_get map fst In]; [tauto|].
  destruct (Pos.eqb_spec k k0) as [->|Hne]; [discriminate|].
  intros H [E|Hin]; [congruence|]. now apply IH.
Qed.

Lemma map_set_fresh m k v :
  ~ In k (map fst m) -> map_set m k v = m ++ [(k, v)].
Proof.
  induction m as [|[k0 v0] m IH]; cbn [map_set map fst In app]; intros Hk.
  - reflexivity.
  - destruct (Pos.eqb_spec k k0) as [->|Hne]; [tauto|].
    rewrite IH; [reflexivity|tauto].
Qed.

Lemma map_set_same_keys m k v :
  In k (map fst m) -> map fst (map_set m k v) = map fst m.
Proof.
  induction m as [|[k0 v0] m IH]; cbn [map_set map fst In]; [tauto|].
  intros Hk. destruct (Pos.eqb_spec k k0) as [->|Hne]; cbn [map fst].
  - reflexivity.
  - rewrite IH; [reflexivity|]. destruct Hk; [congruence|assumption].
Qed.

Lemma map_delete_keys m k k' :
  In k' (map fst (map_delete m k)) -> In k' (map fst m).
Proof.
  induction m as [|[k0 v0] m IH]; cbn [map_delete map fst In]; [tauto|].
  destruct (Pos.eqb k k0); cbn [map fst In]; tauto.
Qed.

Lemma map_delete_NoDup m k :
  NoDup (map fst m) -> NoDup (map fst (map_delete m k)).
Proof.
  induction m as [|[k0 v0] m IH]; cbn [map_delete map fst]; intros Hnd.
  - constructor.
  - inversion Hnd as [|? ? Hnotin Hnd']; subst.
    destruct (Pos.eqb k k0); cbn [map fst]; [assumption|].
    constructor; [|now apply IH].
    intros Hin. apply Hnotin. now apply map_delete_keys in Hin.
Qed.

Lemma map_get_delete m k k' :
  NoDup (map fst m) ->
  map_get (map_delete m k) k'
  = if Pos.eqb k' k then None else map_get m k'.
Proof.
  induction m as [|[k0 v0] m IH]; cbn [map_delete map_get map fst];
    intros Hnd.
  - now destruct (Pos.eqb k' k).
  - inversion Hnd as [|? ? Hnotin Hnd']; subst.
    destruct (Pos.eqb_spec k k0) as [->|Hne]; cbn [map_get].
    + destruct (Pos.eqb_spec k' k0) as [E|Hne'].
      * rewrite E. now apply map_get_notin.
      * reflexivity.
    + destruct (Pos.eqb_spec k' k0) as [E|Hne'].
      * rewrite E. destruct (Pos.eqb_spec k0 k); [congruence|reflexivity].
      * now apply IH.
Qed.
End MoreMapLemmas.


Lemma storeOk_fresh cm : storeOk cm -> ~ In (nextId cm) (map fst (cards cm)).
Proof.
  intros (_ & _ & Hlt) Hin. apply in_map_iff in Hin as (entry & E & Hin).
  rewrite Forall_forall in Hlt. specialize (Hlt _ Hin). lia.
Qed.





(** What [createCard] leaves alone. *)
Lemma createCard_frame data cm :
  let cm' := snd (createCard data cm) in
  selectedCards cm' = selectedCards cm /\ activeCard cm' = activeCard cm.
Proof.
  cbv zeta. unfold createCard. destruct (data_id data); now cbn.
Qed.

Lemma createAll_frame (entries : list CardData) :
  forall cm,
    let cm' := fold_left (fun acc cardData => snd (createCard cardData acc))
                         entries cm in
    selectedCards cm' = selectedCards cm /\ activeCard cm' = activeCard cm.
Proof.
  induction entries as [|data entries IH]; intros cm; cbv zeta;
    cbn [fold_left].
  - now split.
  - destruct (IH (snd (createCard data cm))) as (Hs & Ha).
    destruct (createCard_frame data cm) as (Hs' & Ha').
    cbv zeta in *. rewrite Hs, Ha, Hs', Ha'. now split.
Qed.

(** [Sidebar.close] touches the card manager's active id only. *)
Lemma sidebarClose_store a :
  cards (cardManager (sidebarClose a)) = cards (cardManager a)
  /\ nextId (cardManager (sidebarClose a)) = nextId (cardManager a)
  /\ selectedCards (cardManager (sidebarClose a))
     = selectedCards (cardManager a)
  /\ activeCard (cardManager (sidebarClose a)) = None
  /\ isCtrlPressed (cardManager (sidebarClose a))
     = isCtrlPressed (cardManager a).
Proof.
  unfold sidebarClose. cbn [cardManager].
  destruct (activeCard (cardManager a)) eqn:E; cbn; now repeat split.
Qed.

Lemma sidebarOpenOn_manager c a :
  cardManager (snd (sidebarOpenOn c a)) = cardManager a.
Proof. now destruct c. Qed.

Lemma clearSelection_store a :
  cards (cardManager (clearSelection a)) = cards (cardManager a)
  /\ nextId (cardManager (clearSelection a)) = nextId (cardManager a)
  /\ selectedCards (cardManager (clearSelection a)) = []
  /\ activeCard (cardManager (clearSelection a)) = None
  /\ isCtrlPressed (cardManager (clearSelection a))
     = isCtrlPressed (cardManager a).
Proof.
  unfold clearSelection.
  destruct (sidebarClose_store
              (with_cardManager a
                 (with_activeCard (with_selectedCards (cardManager a) []) None)))
    as (Hc & Hn & Hs & Ha & Hp).
  rewrite Hc, Hn, Hs, Ha, Hp. now repeat split.
Qed.

Lemma selectCard_store cardId multi a :
  cards (cardManager (snd (selectCard cardId multi a))) = cards (cardManager a)
  /\ nextId (cardManager (snd (selectCard cardId multi a)))
     = nextId (cardManager a).
Proof.
  unfold selectCard.
  match goal with
  | |- context [match activeCard (cardManager ?x) with _ => _ end] =>
      set (a1 := x)
  end.
  assert (cards (cardManager a1) = cards (cardManager a)
          /\ nextId (cardManager a1) = nextId (cardManager a)) as [Hc Hn].
  { subst a1. destruct multi.
    - destruct (set_has _ cardId); [|now split].
      destruct (activeCard (cardManager a)) as [act|]; [|now split].
      destruct (Pos.eqb act cardId); now split.
    - destruct (clearSelection_store a) as (Hc & Hn & _).
      cbn [cardManager with_cardManager cards nextId with_activeCard
           with_selectedCards]. now split. }
  destruct (activeCard (cardManager a1)) as [act|]; cbn [snd].
  - rewrite sidebarOpenOn_manager. now split.
  - now split.
Qed.


Lemma storeOk_same cm cm' :
  cards cm' = cards cm -> nextId cm' = nextId cm -> storeOk cm -> storeOk cm'.
Proof. unfold storeOk. intros -> ->. tauto. Qed.


Lemma moveCard_storeOk cm k nx ny :
  storeOk cm -> storeOk (with_cards cm (moveCard (cards cm) k nx ny)).
Proof.
  intros (Hnd & Hid & Hlt). unfold moveCard.
  destruct (map_get (cards cm) k) as [c|] eqn:Ec;
    [|now repeat split].
  pose proof (map_get_In _ _ _ Ec) as Hin.
  repeat split; cbn [cards nextId with_cards].
  - now apply map_set_NoDup.
  - apply map_set_Forall; [exact Hid|].
    rewrite Forall_forall in Hid. exact (Hid _ Hin).
  - apply map_set_Forall; [exact Hlt|].
    rewrite Forall_forall in Hlt. exact (Hlt _ Hin).
Qed.

Lemma moveGroup_storeOk cm mouse dx dy (offsets : list (positive * Point)) :
  forall cs,
    storeOk (with_cards cm cs) ->
    storeOk (with_cards cm (moveGroup cs mouse dx dy offsets)).
Proof.
  unfold moveGroup.
  induction offsets as [|[k off] offsets IH]; intros cs Hok;
    cbn [fold_left].
  - exact Hok.
  - apply IH. exact (moveCard_storeOk (with_cards cm cs) k _ _ Hok).
Qed.

Lemma updateCardDrag_storeOk offsetHeight e a :
  storeOk (cardManager a) ->
  storeOk (cardManager (snd (updateCardDrag offsetHeight e a))).
Proof.
  intros Hok. unfold updateCardDrag.
  destruct (draggedCard (cardManager a)) as [d|]; [|exact Hok].
  destruct (multiDragOffsets (cardManager a)) as [|o os] eqn:Eo.
  - destruct (map_get (cards (cardManager a)) d) as [c|].
    + cbn [snd cardManager with_cardManager].
      eapply storeOk_same;
        [| |apply (moveCard_storeOk (cardManager a) d); exact Hok];
        reflexivity.
    + destruct (applySnappingAt _ _ _ _ _ _); exact Hok.
  - destruct (map_get (o :: os) d) as [off|]; [|exact Hok].
    destruct (applySnappingAt _ _ _ _ _ _) as [s|]; [|exact Hok].
    cbn [snd cardManager with_cardManager].
    eapply storeOk_same;
      [| |apply (moveGroup_storeOk (cardManager a));
          exact (storeOk_same (cardManager a) _ eq_refl eq_refl Hok)];
      reflexivity.
Qed.

Lemma deleteCard_fields id a :
  let cm := cardManager a in
  let cm' := cardManager (deleteCard id a) in
  cards cm' = map_delete (cards cm) id
  /\ nextId cm' = nextId cm
  /\ selectedCards cm' = set_delete (selectedCards cm) id
  /\ activeCard cm'
     = match activeCard cm with
       | Some act => if Pos.eqb act id then None else Some act
       | None => None
       end
  /\ world (deleteCard id a) = world a
  /\ autoSaveTimeout (storage (deleteCard id a))
     = Some (map snd (map_delete (cards cm) id)).
Proof.
  cbv zeta. unfold deleteCard.
  set (cm1 := with_selectedCards _ _).
  cbn [cardManager with_storage world storage autoSaveTimeout saveCards].
  change (activeCard cm1) with (activeCard (cardManager a)).
  destruct (activeCard (cardManager a)) as [act|] eqn:Ea;
    [destruct (Pos.eqb act id)|].
  - destruct (sidebarClose_store
                (with_cardManager (with_cardManager a cm1)
                                  (with_activeCard cm1 None)))
      as (Hc & Hn & Hs & Hact & _).
    unfold getAllCards. rewrite Hc, Hn, Hs, Hact. now repeat split.
  - cbn. rewrite Ea. now repeat split.
  - cbn. rewrite Ea. now repeat split.
Qed.










Lemma sidebarClose_manager a :
  let m := undoRedoManager a in
  let m' := undoRedoManager (sidebarClose a) in
  history m' = history m /\ currentIndex m' = currentIndex m
  /\ isPerformingUndoRedo m' = isPerformingUndoRedo m
  /\ pendingDragOperation m' = pendingDragOperation m.
Proof.
  cbv zeta. unfold sidebarClose. cbn [undoRedoManager].
  destruct (sidebarContentTimeout (sidebar a)); [|now repeat split].
  destruct (currentCard (sidebar a)) as [cur|]; [|now repeat split].
  destruct (negb _); [|now repeat split].
  unfold saveContentState.
  destruct (isPerformingUndoRedo (undoRedoManager a)) eqn:E; cbn;
    rewrite ?E; now repeat split.
Qed.

(** A single selection: the clicked card becomes the one selected and
    active card and the editing panel opens on it. *)
Lemma selectCard_single cardId a :
  let r := selectCard cardId false a in
  selectedCards (cardManager (snd r)) = [cardId]
  /\ activeCard (cardManager (snd r)) = Some cardId
  /\ world (snd r) = world a /\ storage (snd r) = storage a
  /\ (history (undoRedoManager (snd r)) = history (undoRedoManager a)
      /\ currentIndex (undoRedoManager (snd r))
         = currentIndex (undoRedoManager a)
      /\ isPerformingUndoRedo (undoRedoManager (snd r))
         = isPerformingUndoRedo (undoRedoManager a)
      /\ pendingDragOperation (undoRedoManager (snd r))
         = pendingDragOperation (undoRedoManager a))
  /\ match map_get (cards (cardManager a)) cardId with
     | Some c =>
         fst r = Some tt
         /\ sidebar (snd r) = mkSidebar true (Some c) (card_content c) false
     | None => fst r = None
     end.
Proof.
  cbv zeta. unfold selectCard.
  destruct (clearSelection_store a) as (Hc & _ & Hs & _).
  cbn [cardManager with_cardManager activeCard with_activeCard cards
       with_selectedCards].
  rewrite Hs, Hc. cbn [set_add set_has existsb app].
  assert (world (clearSelection a) = world a
          /\ storage (clearSelection a) = storage a
          /\ sidebar (clearSelection a) = mkSidebar false None "" false)
    as (Hw & Hst & Hsb) by now repeat split.
  pose proof (sidebarClose_manager
                (with_cardManager a
                   (with_activeCard
                      (with_selectedCards (cardManager a) []) None)))
    as Hm.
  cbv zeta in Hm. cbn [undoRedoManager with_cardManager] in Hm.
  fold (clearSelection a) in Hm.
  destruct (map_get (cards (cardManager a)) cardId) as [c|];
    cbn [sidebarOpenOn snd fst cardManager world storage sidebar
         undoRedoManager with_cardManager selectedCards activeCard
         with_activeCard with_selectedCards];
    rewrite ?Hw, ?Hst, ?Hsb; repeat split; try apply Hm.
Qed.


(** DeleteCard.  On a store with one entry per key, deleting id
    removes that card and no other, takes the id out of the selection,
    clears the active card exactly when it was the deleted one (closing
    the editing panel), leaves the viewport alone and schedules a save
    of the remaining cards. *)
Theorem delete_card_removes_only_that_card :
  forall (id : positive) (a : App),
    NoDup (map fst (cards (cardManager a))) ->
    let a' := deleteCard id a in
    (forall k, map_get (cards (cardManager a')) k
               = if Pos.eqb k id then None
                 else map_get (cards (cardManager a)) k)
    /\ selectedCards (cardManager a')
       = set_delete (selectedCards (cardManager a)) id
    /\ ~ In id (selectedCards (cardManager a'))
    /\ activeCard (cardManager a') <> Some id
    /\ (activeCard (cardManager a) <> Some id ->
        activeCard (cardManager a') = activeCard (cardManager a)
        /\ sidebar a' = sidebar a)
    /\ (activeCard (cardManager a) = Some id ->
        activeCard (cardManager a') = None /\ isOpen (sidebar a') = false)
    /\ world a' = world a
    /\ autoSaveTimeout (storage a') = Some (getAllCards (cardManager a')).
Proof.
  intros id a Hnd. cbv zeta.
  destruct (deleteCard_fields id a) as (Hc & _ & Hs & Ha & Hw & Hst).
  cbv zeta in *.
  split; [intros k; rewrite Hc; now apply map_get_delete|].
  split; [exact Hs|].
  split.
  { rewrite Hs. unfold set_delete. rewrite filter_In.
    intros [_ H]. now rewrite Pos.eqb_refl in H. }
  split.
  { rewrite Ha. destruct (activeCard (cardManager a)) as [act|];
      [|discriminate].
    destruct (Pos.eqb_spec act id); [discriminate|congruence]. }
  split.
  { intros Hne. unfold deleteCard. cbn [cardManager with_storage sidebar].
    set (cm1 := with_selectedCards _ _).
    change (activeCard cm1) with (activeCard (cardManager a)).
    destruct (activeCard (cardManager a)) as [act|] eqn:Ea.
    - destruct (Pos.eqb_spec act id) as [->|Hne']; [congruence|].
      cbn. now rewrite Ea.
    - cbn. now rewrite Ea. }
  split.
  { intros Heq. rewrite Ha, Heq, Pos.eqb_refl. split; [reflexivity|].
    unfold deleteCard. cbn [cardManager with_storage sidebar].
    set (cm1 := with_selectedCards _ _).
    change (activeCard cm1) with (activeCard (cardManager a)).
    now rewrite Heq, Pos.eqb_refl. }
  split; [exact Hw|].
  rewrite Hst. unfold getAllCards. now rewrite Hc.
Qed.



(** The view's bounds.  For a viewport whose scale is not zero, the
    world rectangle getVisibleBounds returns is the one the viewport
    shows: its corners go back to the viewport's corners under
    worldToScreen, and its width and height are the viewport's divided by
    the scale. *)
Theorem visible_bounds_match_viewport :
  forall (rect : Rect) (w : World),
    ~ scale w == 0 ->
    let b := getVisibleBounds rect w in
    (pt_x (worldToScreen w (bounds_left b) (bounds_top b)) == 0
     /\ pt_y (worldToScreen w (bounds_left b) (bounds_top b)) == 0)
    /\ (pt_x (worldToScreen w (bounds_right b) (bounds_bottom b))
          == rect_width rect
        /\ pt_y (worldToScreen w (bounds_right b) (bounds_bottom b))
             == rect_height rect)
    /\ bounds_width b * scale w == rect_width rect
    /\ bounds_height b * scale w == rect_height rect.
Proof.
  intros rect w Hs. cbv zeta.
  unfold getVisibleBounds, worldToScreen, screenToWorld.
  cbn [pt_x pt_y bounds_left bounds_top bounds_right bounds_bottom
       bounds_width bounds_height].
  repeat split; field; exact Hs.
Qed.

(* ================================================================== *)
(** * Properties of the selection                                    *)
(* ================================================================== *)

Lemma set_add_NoDup s k : NoDup s -> NoDup (set_add s k).
Proof.
  intros Hnd. unfold set_add. destruct (set_has s k) eqn:E; [exact Hnd|].
  apply NoDup_app; [exact Hnd|repeat constructor; intros []|].
  intros x Hx [<-|[]]. apply set_has_In in Hx. congruence.
Qed.

Lemma set_add_In s k x : In x (set_add s k) <-> x = k \/ In x s.
Proof.
  unfold set_add. destruct (set_has s k) eqn:E.
  - apply set_has_In in E. intuition congruence.
  - rewrite in_app_iff. cbn [In]. intuition congruence.
Qed.

Lemma set_add_fold_NoDup (ks : list positive) :
  forall s, NoDup s -> NoDup (fold_left set_add ks s).
Proof.
  induction ks as [|k ks IH]; intros s Hnd; cbn [fold_left];
    [exact Hnd|]. apply IH. now apply set_add_NoDup.
Qed.

Lemma set_add_fold_In (ks : list positive) :
  forall s x, In x (fold_left set_add ks s) <-> In x ks \/ In x s.
Proof.
  induction ks as [|k ks IH]; intros s x; cbn [fold_left In].
  - tauto.
  - rewrite IH, set_add_In. intuition congruence.
Qed.

Lemma set_delete_fresh s k : ~ In k s -> set_delete (s ++ [k]) k = s.
Proof.
  intros Hk. unfold set_delete. rewrite filter_app. cbn [filter].
  rewrite Pos.eqb_refl. cbn [negb]. rewrite app_nil_r.
  apply forallb_filter_id. apply forallb_forall. intros x Hx.
  destruct (Pos.eqb_spec k x); [congruence|reflexivity].
Qed.

(** What a Ctrl-click leaves in the selection. *)
Lemma selectCard_multi cardId a :
  let cm := cardManager a in
  let cm' := cardManager (snd (selectCard cardId true a)) in
  if set_has (selectedCards cm) cardId
  then selectedCards cm' = set_delete (selectedCards cm) cardId
       /\ activeCard cm'
          = match activeCard cm with
            | Some act =>
                if Pos.eqb act cardId
                then hd_error (set_delete (selectedCards cm) cardId)
                else Some act
            | None => None
            end
  else selectedCards cm' = set_add (selectedCards cm) cardId
       /\ activeCard cm' = Some cardId.
Proof.
  cbv zeta. unfold selectCard.
  destruct (set_has (selectedCards (cardManager a)) cardId).
  - destruct (activeCard (cardManager a)) as [act|] eqn:Ea.
    + destruct (Pos.eqb act cardId).
      * cbn [cardManager with_cardManager activeCard with_activeCard].
        destruct (set_delete (selectedCards (cardManager a)) cardId)
          as [|first rest] eqn:Er; cbn [snd].
        -- now cbn.
        -- rewrite sidebarOpenOn_manager. now cbn.
      * cbn [cardManager with_cardManager activeCard with_selectedCards].
        rewrite Ea, sidebarOpenOn_manager. cbn. now rewrite Ea.
    + cbn [cardManager with_cardManager activeCard with_selectedCards].
      rewrite Ea. cbn. now rewrite Ea.
  - cbn [cardManager with_cardManager activeCard with_activeCard].
    rewrite sidebarOpenOn_manager. now cbn.
Qed.

Lemma selectCard_selectionOk id multi a :
  selectionOk (cardManager a) ->
  selectionOk (cardManager (snd (selectCard id multi a))).
Proof.
  intros (Hnd & Hact). destruct multi.
  - pose proof (selectCard_multi id a) as H. cbv zeta in H.
    destruct (set_has (selectedCards (cardManager a)) id) eqn:E;
      destruct H as (Hs & Ha); unfold selectionOk; rewrite Hs, Ha.
    + split; [now apply NoDup_filter|].
      destruct (activeCard (cardManager a)) as [act|]; [|exact I].
      destruct (Pos.eqb_spec act id) as [->|Hne].
      * destruct (set_delete _ id) as [|first rest]; cbn; [exact I|].
        now left.
      * unfold set_delete. rewrite filter_In. split; [exact Hact|].
        destruct (Pos.eqb_spec id act); [congruence|reflexivity].
    + split; [now apply set_add_NoDup|]. apply set_add_In. now left.
  - destruct (selectCard_single id a) as (Hs & Ha & _). cbv zeta in *.
    unfold selectionOk. rewrite Hs, Ha. split; [|now left].
    repeat constructor. intros [].
Qed.

Lemma clearMultiSelection_selectionOk cm :
  selectionOk cm ->
  selectionOk (clearMultiSelection cm)
  /\ (List.length (selectedCards (clearMultiSelection cm)) <= 1)%nat.
Proof.
  intros (Hnd & Hact). unfold clearMultiSelection.
  destruct (Nat.ltb_spec 1 (List.length (selectedCards cm))).
  - unfold selectionOk. cbn [selectedCards activeCard with_selectedCards].
    destruct (activeCard cm) as [act|]; cbn.
    + repeat split; [repeat constructor; intros []|now left|lia].
    + repeat split; [constructor|lia].
  - split; [now split|assumption].
Qed.

Lemma applyState_selectionOk cm a :
  selectionOk cm ->
  selectionOk (cardManager (applyState (captureCurrentState cm) a)).
Proof.
  intros (Hnd & Hact). unfold applyState.
  cbn [cardManager with_undoRedoManager].
  unfold applyStateBody. cbn [cardManager with_storage].
  cbn [snap_selectedCards snap_activeCard captureCurrentState].
  rewrite (set_add_all (selectedCards cm) []) by exact Hnd. cbn [app].
  set (cm1 := fold_left _ _ _).
  set (cm2 := with_selectedCards cm1 (selectedCards cm)).
  destruct (activeCard cm) as [act|];
    [destruct (map_has (cards cm2) act)|].
  - split; [exact Hnd|exact Hact].
  - destruct (sidebarClose_store
                (with_cardManager
                   (with_cardManager
                      (with_undoRedoManager a
                         (with_flag (undoRedoManager a) true)) cm2)
                   (with_activeCard cm2 None))) as (_ & _ & Hs & Ha & _).
    unfold selectionOk. rewrite Hs, Ha. split; [exact Hnd|exact I].
  - destruct (sidebarClose_store
                (with_cardManager
                   (with_cardManager
                      (with_undoRedoManager a
                         (with_flag (undoRedoManager a) true)) cm2)
                   (with_activeCard cm2 None))) as (_ & _ & Hs & Ha & _).
    unfold selectionOk. rewrite Hs, Ha. split; [exact Hnd|exact I].
Qed.

Lemma selectAllCards_selectionOk a :
  selectionOk (cardManager a) ->
  selectionOk (cardManager (snd (selectAllCards a))).
Proof.
  intros Hok. unfold selectAllCards.
  destruct (negb (isCtrlPressed (cardManager a))); [exact Hok|].
  destruct (clearSelection_store a) as (Hc & _ & Hs & Ha & _).
  cbn [cards with_selectedCards]. rewrite Hs.
  destruct (map fst (cards (cardManager (clearSelection a))))
    as [|firstCardId rest] eqn:Ek; cbn [snd].
  - unfold selectionOk.
    cbn [cardManager with_cardManager selectedCards activeCard
         with_selectedCards fold_left].
    rewrite Ha. split; [constructor|exact I].
  - rewrite sidebarOpenOn_manager. unfold selectionOk.
    cbn [cardManager with_cardManager selectedCards activeCard
         with_selectedCards with_activeCard fold_left]. split.
    + apply set_add_fold_NoDup, set_add_NoDup. constructor.
    + apply set_add_fold_In. right. apply set_add_In. now left.
Qed.

(** The selection's invariant.  When the selection holds no id twice
    and the active card, if any, is one of the selected cards, this stays
    so under a click or Ctrl-click on a card, a click on empty space,
    releasing Ctrl or losing the window's focus (which moreover leave at
    most one card selected), deleting a card, select-all, closing the
    panel, duplicating a card, adding a card and restoring a snapshot of
    the board.  loadCards is the exception: it empties the selection and
    leaves the active id as it was. *)
Theorem selection_invariant_kept :
  forall a : App,
    selectionOk (cardManager a) ->
    (forall id multi,
        selectionOk (cardManager (snd (selectCard id multi a))))
    /\ selectionOk (cardManager (clearSelection a))
    /\ (forall ctrlOrMeta,
           selectionOk (onCtrlKeyUp ctrlOrMeta (cardManager a))
           /\ (ctrlOrMeta = false ->
               (List.length
                  (selectedCards (onCtrlKeyUp ctrlOrMeta (cardManager a)))
                <= 1)%nat))
    /\ (selectionOk (onWindowBlur (cardManager a))
        /\ (List.length (selectedCards (onWindowBlur (cardManager a)))
            <= 1)%nat)
    /\ (forall id, selectionOk (cardManager (deleteCard id a)))
    /\ selectionOk (cardManager (snd (selectAllCards a)))
    /\ selectionOk (cardManager (sidebarClose a))
    /\ (forall id, selectionOk (cardManager (snd (duplicateCard id a))))
    /\ (forall now rect,
           selectionOk (cardManager (snd (addNewCard now rect a))))
    /\ (forall a0,
           selectionOk
             (cardManager
                (applyState (captureCurrentState (cardManager a)) a0)))
    /\ (forall entries,
           selectedCards (loadCards entries (cardManager a)) = []
           /\ activeCard (loadCards entries (cardManager a))
              = activeCard (cardManager a)).
Proof.
  intros a Hok.
  split; [|split; [|split; [|split; [|split; [|split; [|split; [|split;
    [|split; [|split]]]]]]]]].
  - intros id multi. now apply selectCard_selectionOk.
  - destruct (clearSelection_store a) as (_ & _ & Hs & Ha & _).
    unfold selectionOk. rewrite Hs, Ha. split; [constructor|exact I].
  - intros ctrlOrMeta. unfold onCtrlKeyUp.
    destruct ctrlOrMeta; cbn [negb].
    + split; [exact Hok|discriminate].
    + destruct (clearMultiSelection_selectionOk
                  (with_isCtrlPressed (cardManager a) false) Hok)
        as (H1 & H2). split; [exact H1|intros _; exact H2].
  - exact (clearMultiSelection_selectionOk
             (with_isCtrlPressed (cardManager a) false) Hok).
  - intros id. destruct Hok as (Hnd & Hact).
    destruct (deleteCard_fields id a) as (_ & _ & Hs & Ha & _).
    cbv zeta in *. unfold selectionOk. rewrite Hs, Ha.
    split; [now apply NoDup_filter|].
    destruct (activeCard (cardManager a)) as [act|]; [|exact I].
    destruct (Pos.eqb_spec act id) as [->|Hne]; [exact I|].
    unfold set_delete. rewrite filter_In. split; [exact Hact|].
    destruct (Pos.eqb_spec id act); [congruence|reflexivity].
  - now apply selectAllCards_selectionOk.
  - destruct (sidebarClose_store a) as (_ & _ & Hs & Ha & _).
    unfold selectionOk. rewrite Hs, Ha. split; [apply Hok|exact I].
  - intros id. unfold duplicateCard.
    destruct (map_get (cards (cardManager a)) id) as [c|]; [|exact Hok].
    destruct (createCard _ _) as [newCard cm1].
    match goal with
    | |- context [selectCard ?i false ?x] =>
        destruct (selectCard_single i x) as (Hs & Ha & _);
        destruct (selectCard i false x) as [[u|] a2]
    end; cbn [snd] in *; unfold selectionOk; rewrite Hs, Ha;
      (split; [repeat constructor; intros []|now left]).
  - intros now rect. unfold addNewCard.
    destruct (createCard _ _) as [newCard cm1].
    match goal with
    | |- context [selectCard ?i false ?x] =>
        destruct (selectCard_single i x) as (Hs & Ha & _);
        destruct (selectCard i false x) as [[u|] a2]
    end; cbn [snd] in *; unfold selectionOk; rewrite Hs, Ha;
      (split; [repeat constructor; intros []|now left]).
  - intros a0. now apply applyState_selectionOk.
  - intros entries. unfold loadCards.
    destruct (createAll_frame entries
                (with_selectedCards (with_cards (cardManager a) []) []))
      as (Hs & Ha). cbv zeta in *. now rewrite Hs, Ha.
Qed.

(** Ctrl-click twice.  Ctrl-clicking a card that is not selected and
    then Ctrl-clicking it again gives the selection back as it was, in
    the same order; the active card, though, is afterwards the first
    card of that selection (none when the selection is empty), whichever
    card was active before. *)
Theorem ctrl_click_twice_restores_selection :
  forall (id : positive) (a : App),
    ~ In id (selectedCards (cardManager a)) ->
    let a1 := snd (selectCard id true a) in
    let a2 := snd (selectCard id true a1) in
    (selectedCards (cardManager a1) = selectedCards (cardManager a) ++ [id]
     /\ activeCard (cardManager a1) = Some id)
    /\ selectedCards (cardManager a2) = selectedCards (cardManager a)
    /\ activeCard (cardManager a2) = hd_error (selectedCards (cardManager a))
    /\ cards (cardManager a2) = cards (cardManager a).
Proof.
  intros id a Hnot. cbv zeta.
  assert (set_has (selectedCards (cardManager a)) id = false) as E.
  { destruct (set_has _ id) eqn:E; [|reflexivity].
    apply set_has_In in E. contradiction. }
  pose proof (selectCard_multi id a) as H1. cbv zeta in H1.
  rewrite E in H1. destruct H1 as (Hs1 & Ha1).
  unfold set_add in Hs1. rewrite E in Hs1.
  set (a1 := snd (selectCard id true a)) in *.
  pose proof (selectCard_multi id a1) as H2. cbv zeta in H2.
  assert (set_has (selectedCards (cardManager a1)) id = true) as E1.
  { apply set_has_In. rewrite Hs1. apply in_or_app. right. now left. }
  rewrite E1 in H2. destruct H2 as (Hs2 & Ha2).
  rewrite Hs1, set_delete_fresh in Hs2 by exact Hnot.
  rewrite Ha1, Pos.eqb_refl, Hs1, set_delete_fresh in Ha2 by exact Hnot.
  split; [now split|]. split; [exact Hs2|]. split; [exact Ha2|].
  destruct (selectCard_store id true a1) as (Hc2 & _).
  destruct (selectCard_store id true a) as (Hc1 & _).
  fold a1 in Hc1. now rewrite Hc2, Hc1.
Qed.

(* ================================================================== *)
(** * Properties of editing operations                               *)
(* ================================================================== *)

(** A [saveState] that is not suppressed leaves its entry as the current
    one, with nothing to redo. *)
Lemma saveState_written now op d cm m :
  historyOk m ->
  let m' := saveState now op d cm m in
  js_nth (history m') (currentIndex m')
  = Some (mkHistoryEntry op now (captureCurrentState cm) d)
  /\ canRedo m' = false
  /\ historyOk m'.
Proof.
  intros Hok. cbv zeta.
  destruct (saveState_history now op d cm m Hok) as (Hh & Hi & _).
  cbv zeta in *.
  set (e := mkHistoryEntry op now (captureCurrentState cm) d) in *.
  set (kept := firstn _ (history m)) in *.
  split; [|split; [|now apply saveState_ok]].
  - rewrite Hi. destruct Hh as [-> | (-> & Hlen)].
    + rewrite length_app. cbn [List.length].
      replace (Z.of_nat (List.length kept + 1) - 1)%Z
        with (Z.of_nat (List.length kept)) by lia.
      apply js_nth_last.
    + destruct kept as [|k0 kt]; cbn [List.length] in Hlen;
        [unfold maxHistorySize in Hlen; lia|].
      cbn [app tl]. rewrite length_app. cbn [List.length].
      replace (Z.of_nat (List.length kt + 1) - 1)%Z
        with (Z.of_nat (List.length kt)) by lia.
      apply js_nth_last.
  - unfold canRedo. rewrite Hi. apply Z.ltb_irrefl.
Qed.



(** AddNewCard.  On a well-formed store and a viewport whose scale is
    not zero, the new card takes the id nextId, is 300 wide with height
    auto, and lies so that the point 150 to the right of and 75 below its
    corner is the centre of the viewport.  It is appended to the cards,
    becomes the one selected and active card with the editing panel open
    on it.  The history's current entry afterwards is the create_card
    entry, and its snapshot is the board as it was before the card was
    added. *)
Theorem add_new_card_outcome :
  forall (now : Z) (rect : Rect) (a : App),
    storeOk (cardManager a) ->
    historyOk (undoRedoManager a) ->
    ~ scale (world a) == 0 ->
    let a' := snd (addNewCard now rect a) in
    exists c,
      fst (addNewCard now rect a) = Some c
      /\ (card_id c = nextId (cardManager a) /\ card_width c = 300
          /\ card_height c = auto /\ card_content c = newCardContent)
      /\ (pt_x (worldToScreen (world a) (card_x c + 150) (card_y c + 75))
            == rect_width rect / 2
          /\ pt_y (worldToScreen (world a) (card_x c + 150) (card_y c + 75))
               == rect_height rect / 2)
      /\ cards (cardManager a')
         = cards (cardManager a) ++ [(nextId (cardManager a), c)]
      /\ selectedCards (cardManager a') = [nextId (cardManager a)]
      /\ activeCard (cardManager a') = Some (nextId (cardManager a))
      /\ sidebar a' = mkSidebar true (Some c) newCardContent false
      /\ js_nth (history (undoRedoManager a'))
                (currentIndex (undoRedoManager a'))
         = Some (mkHistoryEntry "create_card" now
                   (captureCurrentState (cardManager a)) data_none).
Proof.
  intros now rect a Hok Hhist Hscale. cbv zeta.
  pose proof (storeOk_fresh _ Hok) as Hfresh.
  unfold addNewCard.
  set (b := getVisibleBounds rect (world a)).
  set (x := bounds_left b + bounds_width b / 2 - 150).
  set (y := bounds_top b + bounds_height b / 2 - 75).
  set (n := nextId (cardManager a)) in *.
  set (c := mkCard n x y 300 auto newCardContent).
  assert (createCard (mkCardData None (Some x) (Some y) (Some 300)
                                 (Some auto) (Some newCardContent))
                     (cardManager a)
          = (c, with_nextId
                  (with_cards (cardManager a)
                              (cards (cardManager a) ++ [(n, c)]))
                  (Pos.succ n))) as ->.
  { unfold createCard, spread.
    cbn [data_id data_x data_y data_width data_height data_content
         card_id].
    rewrite (map_set_fresh _ n) by exact Hfresh. fold n.
    destruct (Pos.leb_spec (Pos.succ n) n); [lia|]. reflexivity. }
  set (cm1 := with_nextId _ (Pos.succ n)).
  set (m1 := saveState now "create_card" data_none (cardManager a)
                       (undoRedoManager a)).
  set (a1 := mkApp _ cm1 _ _ m1).
  destruct (selectCard_single (card_id c) a1)
    as (Hs & Ha & _ & _ & (Hh & Hi & _) & Hopen).
  destruct (selectCard_store (card_id c) false a1) as (Hc & _).
  cbv zeta in *.
  assert (map_get (cards (cardManager a1)) (card_id c) = Some c) as Eget.
  { cbn [cardManager a1 cm1 cards with_nextId with_cards card_id c].
    rewrite <- (map_set_fresh _ n c) by exact Hfresh.
    rewrite map_get_set. now rewrite Pos.eqb_refl. }
  rewrite Eget in Hopen. destruct Hopen as (Hres & Hsb).
  destruct (selectCard (card_id c) false a1) as [[u|] a2];
    cbn [fst snd] in *; [|discriminate].
  exists c. split; [reflexivity|]. split; [now repeat split|].
  split.
  { clear - Hscale. subst c x y b.
    unfold getVisibleBounds, worldToScreen, screenToWorld.
    cbn [pt_x pt_y bounds_left bounds_top bounds_width bounds_height
         card_x card_y].
    split; field; exact Hscale. }
  rewrite Hc, Hs, Ha, Hsb, Hh, Hi.
  repeat split.
  exact (proj1 (saveState_written now "create_card" data_none
                  (cardManager a) (undoRedoManager a) Hhist)).
Qed.

(** Pressing on a selected card starts a drag of the whole selection. *)
Lemma startDragging_selected now cardId e a :
  set_has (selectedCards (cardManager a)) cardId = true ->
  isPerformingUndoRedo (undoRedoManager a) = false ->
  let r := startDragging now cardId e a in
  let sel := selectedCards (cardManager a) in
  fst r = Some tt
  /\ selectedCards (cardManager (snd r)) = sel
  /\ cards (cardManager (snd r)) = cards (cardManager a)
  /\ draggedCard (cardManager (snd r)) = Some cardId
  /\ isDraggingCard (cardManager (snd r)) = true
  /\ exists startPositions,
       pendingDragOperation (undoRedoManager (snd r))
       = Some (mkPendingDrag (dragTag sel) sel startPositions now).
Proof.
  intros Hsel Hflag. cbv zeta. unfold startDragging. rewrite Hsel.
  destruct (dragEntries _ _ _) as [startPositions offsets].
  cbn [fst snd cardManager undoRedoManager selectedCards cards draggedCard
       isDraggingCard with_drag].
  repeat split. exists startPositions.
  unfold saveDragState. rewrite Hflag. reflexivity.
Qed.

(** Pressing on a card.  A left-button press on an existing card's
    handle or body always starts a drag of the current selection with the
    pressed card in it: a card that was not selected is first selected
    (alone, or added to the selection while Ctrl is held), so the pending
    drag operation names exactly the selected cards and the pressed card
    is never dragged outside the selection. *)
Theorem card_press_drags_the_selection :
  forall (now : Z) (cardId : positive) (e : MouseEvent) (a : App) (c : Card),
    map_get (cards (cardManager a)) cardId = Some c ->
    isPerformingUndoRedo (undoRedoManager a) = false ->
    let r := onCardMouseDown now cardId e a in
    let sel := selectedCards (cardManager a) in
    let sel' := selectedCards (cardManager (snd r)) in
    fst r = Some tt
    /\ In cardId sel'
    /\ sel' = (if set_has sel cardId then sel
               else if isCtrlPressed (cardManager a) then sel ++ [cardId]
                    else [cardId])
    /\ draggedCard (cardManager (snd r)) = Some cardId
    /\ isDraggingCard (cardManager (snd r)) = true
    /\ exists startPositions,
         pendingDragOperation (undoRedoManager (snd r))
         = Some (mkPendingDrag (dragTag sel') sel' startPositions now).
Proof.
  intros now cardId e a c Ec Hflag. cbv zeta. unfold onCardMouseDown.
  destruct (set_has (selectedCards (cardManager a)) cardId) eqn:Esel;
    cbn [negb].
  - destruct (startDragging_selected now cardId e a Esel Hflag)
      as (Hr & Hs & _ & Hd & Hi & Hp). cbv zeta in *.
    rewrite Hs. split; [exact Hr|]. split; [now apply set_has_In|].
    now repeat split.
  - set (ctrl := isCtrlPressed (cardManager a)).
    assert (fst (selectCard cardId ctrl a) = Some tt
            /\ selectedCards (cardManager (snd (selectCard cardId ctrl a)))
               = (if ctrl then selectedCards (cardManager a) ++ [cardId]
                  else [cardId])
            /\ isPerformingUndoRedo
                 (undoRedoManager (snd (selectCard cardId ctrl a))) = false)
      as (Hr1 & Hs1 & Hf1).
    { destruct ctrl.
      - pose proof (selectCard_multi cardId a) as H. cbv zeta in H.
        rewrite Esel in H. destruct H as (Hs & _).
        unfold set_add in Hs. rewrite Esel in Hs.
        split; [|split; [exact Hs|]].
        + unfold selectCard. rewrite Esel.
          cbn [cardManager with_cardManager activeCard with_activeCard
               cards with_selectedCards]. now rewrite Ec.
        + unfold selectCard. rewrite Esel.
          cbn [cardManager with_cardManager activeCard with_activeCard
               cards with_selectedCards]. now rewrite Ec.
      - destruct (selectCard_single cardId a)
          as (Hs & _ & _ & _ & (_ & _ & Hf & _) & Hopen).
        cbv zeta in *. rewrite Ec in Hopen.
        split; [apply Hopen|]. split; [exact Hs|]. now rewrite Hf. }
    destruct (selectCard cardId ctrl a) as [[u|] a1]; cbn [fst snd] in *;
      [|discriminate].
    assert (set_has (selectedCards (cardManager a1)) cardId = true) as Esel1.
    { apply set_has_In. rewrite Hs1. destruct ctrl.
      - apply in_or_app. right. now left.
      - now left. }
    destruct (startDragging_selected now cardId e a1 Esel1 Hf1)
      as (Hr & Hs & _ & Hd & Hi & Hp). cbv zeta in *.
    rewrite Hs. split; [exact Hr|]. split; [now apply set_has_In|].
    split; [exact Hs1|]. now repeat split.
Qed.

Lemma deleteCard_manager id a :
  history (undoRedoManager (deleteCard id a)) = history (undoRedoManager a)
  /\ currentIndex (undoRedoManager (deleteCard id a))
     = currentIndex (undoRedoManager a).
Proof.
  unfold deleteCard. cbn [undoRedoManager with_storage].
  set (cm1 := with_selectedCards _ _).
  destruct (activeCard cm1) as [act|]; [destruct (Pos.eqb act id)|];
    try (now split).
  destruct (sidebarClose_manager
              (with_cardManager (with_cardManager a cm1)
                                (with_activeCard cm1 None)))
    as (Hh & Hi & _).
  cbv zeta in *. now split.
Qed.

Lemma set_has_cons k0 ks k :
  set_has (k0 :: ks) k = Pos.eqb k k0 || set_has ks k.
Proof. reflexivity. Qed.

Lemma filter_set_delete ids id (l : list positive) :
  filter (fun k => negb (set_has ids k)) (set_delete l id)
  = filter (fun k => negb (set_has (id :: ids) k)) l.
Proof.
  unfold set_delete. induction l as [|s ss IH]; [reflexivity|].
  cbn [filter]. rewrite set_has_cons, (Pos.eqb_sym s id).
  destruct (Pos.eqb id s); cbn [negb orb filter].
  - exact IH.
  - destruct (set_has ids s); cbn [negb]; [exact IH|]. now rewrite IH.
Qed.

(** Deleting several cards in a row. *)
Lemma deleteCards_fields (ids : list positive) :
  forall a,
    NoDup (map fst (cards (cardManager a))) ->
    let a' := deleteCards ids a in
    NoDup (map fst (cards (cardManager a')))
    /\ (forall k, map_get (cards (cardManager a')) k
                  = if set_has ids k then None
                    else map_get (cards (cardManager a)) k)
    /\ selectedCards (cardManager a')
       = filter (fun k => negb (set_has ids k))
                (selectedCards (cardManager a))
    /\ activeCard (cardManager a')
       = match activeCard (cardManager a) with
         | Some act => if set_has ids act then None else Some act
         | None => None
         end
    /\ world a' = world a
    /\ history (undoRedoManager a') = history (undoRedoManager a)
    /\ currentIndex (undoRedoManager a') = currentIndex (undoRedoManager a).
Proof.
  induction ids as [|id ids IH]; intros a Hnd; cbv zeta;
    unfold deleteCards; cbn [fold_left].
  - split; [exact Hnd|]. split; [reflexivity|].
    split.
    { symmetry. apply forallb_filter_id. apply forallb_forall.
      reflexivity. }
    split; [now destruct (activeCard (cardManager a))|]. now repeat split.
  - fold (deleteCards ids (deleteCard id a)).
    destruct (deleteCard_fields id a) as (Hc & _ & Hs & Ha & Hw & _).
    destruct (deleteCard_manager id a) as (Hh & Hi).
    cbv zeta in *.
    assert (NoDup (map fst (cards (cardManager (deleteCard id a)))))
      as Hnd1 by (rewrite Hc; now apply map_delete_NoDup).
    destruct (IH (deleteCard id a) Hnd1)
      as (IHnd & IHc & IHs & IHa & IHw & IHh & IHi).
    cbv zeta in *.
    split; [exact IHnd|]. split.
    { intros k. rewrite IHc, Hc, map_get_delete by exact Hnd.
      rewrite set_has_cons.
      destruct (Pos.eqb k id), (set_has ids k); reflexivity. }
    split.
    { rewrite IHs, Hs. apply filter_set_delete. }
    split.
    { rewrite IHa, Ha.
      destruct (activeCard (cardManager a)) as [act|]; [|reflexivity].
      rewrite set_has_cons. destruct (Pos.eqb act id); [reflexivity|].
      reflexivity. }
    split; [now rewrite IHw|]. split; [now rewrite IHh|now rewrite IHi].
Qed.

(** The Delete key.  With the panel closed, a non-empty selection and
    the confirmation given, on a store with one entry per key: exactly the
    selected cards are removed (every other card stays as it was), the
    selection ends up empty, the active card is cleared if it was among
    them, and the history's current entry is the delete_cards entry whose
    snapshot is the board as it was before the deletion.  Without the
    confirmation, or with the panel open, nothing changes. *)
Theorem delete_key_removes_the_selection :
  forall (now : Z) (a : App),
    NoDup (map fst (cards (cardManager a))) ->
    historyOk (undoRedoManager a) ->
    let sel := selectedCards (cardManager a) in
    (isOpen (sidebar a) = false -> sel <> [] ->
     let a' := onDeleteKey now true a in
     (forall k, map_get (cards (cardManager a')) k
                = if set_has sel k then None
                  else map_get (cards (cardManager a)) k)
     /\ selectedCards (cardManager a') = []
     /\ activeCard (cardManager a')
        = match activeCard (cardManager a) with
          | Some act => if set_has sel act then None else Some act
          | None => None
          end
     /\ world a' = world a
     /\ js_nth (history (undoRedoManager a'))
               (currentIndex (undoRedoManager a'))
        = Some (mkHistoryEntry "delete_cards" now
                  (captureCurrentState (cardManager a)) (data_cardIds sel)))
    /\ onDeleteKey now false a = a
    /\ (isOpen (sidebar a) = true ->
        forall confirmed, onDeleteKey now confirmed a = a).
Proof.
  intros now a Hnd Hok. cbv zeta. split; [|split].
  - intros Hclosed Hsel. unfold onDeleteKey. rewrite Hclosed. cbn [negb].
    destruct (selectedCards (cardManager a)) as [|s0 ss] eqn:Es;
      [congruence|].
    cbn [List.length Nat.ltb Nat.leb]. rewrite <- Es in *.
    set (m1 := saveState now "delete_cards" _ _ _).
    destruct (deleteCards_fields (selectedCards (cardManager a))
                (with_undoRedoManager a m1) Hnd)
      as (_ & Hc & Hs & Ha & Hw & Hh & Hi).
    cbv zeta in *.
    cbn [cardManager with_undoRedoManager world undoRedoManager] in *.
    split; [exact Hc|]. split.
    { rewrite Hs.
      assert (forall l : list positive,
                 (forall k, In k l ->
                            set_has (selectedCards (cardManager a)) k = true)
                 -> filter (fun k =>
                              negb (set_has (selectedCards (cardManager a))
                                            k)) l = []) as Hall.
      { induction l as [|k l IHl]; intros Hin; [reflexivity|].
        cbn [filter]. rewrite (Hin k) by now left. cbn [negb].
        apply IHl. intros k' Hk'. apply Hin. now right. }
      apply Hall. intros k Hk. now apply set_has_In. }
    split; [exact Ha|]. split; [exact Hw|].
    rewrite Hh, Hi.
    exact (proj1 (saveState_written now "delete_cards"
                    (data_cardIds (selectedCards (cardManager a)))
                    (cardManager a) (undoRedoManager a) Hok)).
  - unfold onDeleteKey. destruct (negb _); [|reflexivity].
    now destruct (0 <? _)%nat.
  - intros Hopen confirmed. unfold onDeleteKey. now rewrite Hopen.
Qed.

(* ================================================================== *)
(** * Properties of the history queries and of typing                *)
(* ================================================================== *)


Lemma updateCard_content nowW nowH id content a :
  let a' :=
    updateCard nowW nowH id
               (mkCardData None None None None None (Some content)) a in
  undoRedoManager a' = undoRedoManager a /\ sidebar a' = sidebar a
  /\ world a' = world a
  /\ map_get (cards (cardManager a')) id
     = option_map
         (fun c => mkCard (card_id c) (card_x c) (card_y c) (card_width c)
                          (card_height c) content)
         (map_get (cards (cardManager a)) id).
Proof.
  cbv zeta. unfold updateCard.
  destruct (map_get (cards (cardManager a)) id) as [old|] eqn:E.
  - cbn [undoRedoManager sidebar world cardManager cards with_cards
         data_width data_height option_map].
    repeat split. rewrite map_get_set. now rewrite Pos.eqb_refl.
  - rewrite E. now repeat split.
Qed.

Lemma onTextChange_fields nowW nowH content a cur :
  currentCard (sidebar a) = Some cur ->
  let a' := onTextChange nowW nowH content a in
  currentCard (sidebar a')
  = Some (mkCard (card_id cur) (card_x cur) (card_y cur) (card_width cur)
                 (card_height cur) content)
  /\ lastSavedContent (sidebar a') = lastSavedContent (sidebar a)
  /\ undoRedoManager a' = undoRedoManager a
  /\ world a' = world a
  /\ option_map card_content (map_get (cards (cardManager a')) (card_id cur))
     = option_map (fun _ => content)
                  (map_get (cards (cardManager a)) (card_id cur)).
Proof.
  intros Ecur. cbv zeta. unfold onTextChange. rewrite Ecur.
  destruct (updateCard_content nowW nowH (card_id cur) content a)
    as (Hm & Hsb & Hw & Hc).
  cbv zeta in *.
  cbn [sidebar currentCard lastSavedContent undoRedoManager world
       cardManager].
  rewrite Hm, Hsb, Hw, Hc.
  repeat split. now destruct (map_get (cards (cardManager a)) (card_id cur)).
Qed.

Lemma last_after {A : Type} (l : list A) (x d : A) :
  last l x = last (x :: l) d.
Proof.
  revert x d. induction l as [|y l IH]; intros x d; [reflexivity|].
  change (last (x :: y :: l) d) with (last (y :: l) d).
  now rewrite <- (IH y x), <- (IH y d).
Qed.

Lemma typeAll_fields nowW nowH (contents : list string) :
  forall a cur,
    currentCard (sidebar a) = Some cur ->
    let a' := typeAll nowW nowH contents a in
    exists cur',
      currentCard (sidebar a') = Some cur'
      /\ card_id cur' = card_id cur
      /\ card_content cur' = last contents (card_content cur)
      /\ lastSavedContent (sidebar a') = lastSavedContent (sidebar a)
      /\ undoRedoManager a' = undoRedoManager a
      /\ world a' = world a
      /\ option_map card_content
           (map_get (cards (cardManager a')) (card_id cur))
         = option_map (fun c => last contents (card_content c))
                      (map_get (cards (cardManager a)) (card_id cur)).
Proof.
  unfold typeAll.
  induction contents as [|content contents IH]; intros a cur Ecur;
    cbv zeta; cbn [fold_left].
  - exists cur. repeat split; assumption.
  - destruct (onTextChange_fields nowW nowH content a cur Ecur)
      as (Hcur & Hl & Hm & Hw & Hc).
    cbv zeta in *.
    destruct (IH (onTextChange nowW nowH content a) _ Hcur)
      as (cur' & Hcur' & Hid & Hcont & Hl' & Hm' & Hw' & Hc').
    cbv zeta in *. cbn [card_id card_content] in *.
    exists cur'. split; [exact Hcur'|]. split; [exact Hid|].
    split.
    { rewrite Hcont. apply last_after. }
    split; [now rewrite Hl'|]. split; [now rewrite Hm'|].
    split; [now rewrite Hw'|].
    rewrite Hc'.
    destruct (map_get (cards (cardManager (onTextChange nowW nowH content a)))
                      (card_id cur)) as [c1|] eqn:E1;
      destruct (map_get (cards (cardManager a)) (card_id cur)) as [c0|]
        eqn:E0; cbn [option_map] in *; try discriminate; [|reflexivity].
    inversion Hc as [Hc1]. rewrite Hc1. f_equal. apply last_after.
Qed.

(** Typing.  With the editing panel open on a card and no earlier edit
    pending, a burst of edits typed into the editor writes nothing to the
    history by itself.  Once the panel's timer and then the history's
    timer have fired, the history holds exactly one new entry if the last
    typed content differs from the content the panel had saved as its
    baseline: a content_change entry carrying that baseline and the last
    content, with the board as it is after the edits as its snapshot,
    appended after the current entry (the oldest entry being dropped at
    capacity).  If the last content equals the baseline the history is
    left as it was.  On the board the card's content is the last one
    typed. *)
Theorem typing_burst_writes_one_entry :
  forall (nowW nowH now : Z) (contents : list string) (final : string)
         (cur : Card) (a : App),
    currentCard (sidebar a) = Some cur ->
    historyOk (undoRedoManager a) ->
    contentChangeTimeout (undoRedoManager a) = None ->
    let base := lastSavedContent (sidebar a) in
    let a1 := typeAll nowW nowH (contents ++ [final]) a in
    let a3 := historyTimeoutFires now (sidebarTimeoutFires a1) in
    let m0 := undoRedoManager a in
    let m3 := undoRedoManager a3 in
    let kept := firstn (Z.to_nat (currentIndex m0 + 1)) (history m0) in
    let e :=
      mkHistoryEntry "content_change" now
        (captureCurrentState (cardManager a1))
        (data_contentChange (card_id cur) base final) in
    undoRedoManager a1 = m0
    /\ cardManager a3 = cardManager a1
    /\ (forall c, map_get (cards (cardManager a)) (card_id cur) = Some c ->
                  option_map card_content
                    (map_get (cards (cardManager a3)) (card_id cur))
                  = Some final)
    /\ (base = final -> m3 = m0)
    /\ (base <> final ->
        (history m3 = kept ++ [e]
         \/ (history m3 = tl (kept ++ [e])
             /\ Z.of_nat (List.length kept) = maxHistorySize))
        /\ currentIndex m3 = (Z.of_nat (List.length (history m3)) - 1)%Z
        /\ contentChangeTimeout m3 = None
        /\ lastSavedContent (sidebar a3) = final).
Proof.
  intros nowW nowH now contents final cur a Ecur Hok Hnone. cbv zeta.
  destruct (typeAll_fields nowW nowH (contents ++ [final]) a cur Ecur)
    as (cur' & Hcur' & Hid & Hcont & Hl & Hm & _ & Hc).
  cbv zeta in *. rewrite last_last in Hcont.
  set (a1 := typeAll nowW nowH (contents ++ [final]) a) in *.
  assert (cardManager (historyTimeoutFires now (sidebarTimeoutFires a1))
          = cardManager a1) as Hcm.
  { unfold historyTimeoutFires, sidebarTimeoutFires.
    cbn [cardManager with_undoRedoManager]. rewrite Hcur'.
    now destruct (negb _). }
  split; [exact Hm|]. split; [exact Hcm|]. split.
  { intros c Ec. rewrite Hcm, Hc, Ec. cbn [option_map].
    now rewrite last_last. }
  unfold historyTimeoutFires, sidebarTimeoutFires.
  rewrite Hcur', Hl, Hcont, <- Hid.
  split.
  - intros Heq. rewrite Heq, String.eqb_refl. cbn [negb].
    cbn [undoRedoManager with_undoRedoManager]. rewrite Hm.
    unfold contentTimeoutFires. now rewrite Hnone.
  - intros Hne. apply String.eqb_neq in Hne. rewrite Hne. cbn [negb].
    cbn [undoRedoManager with_undoRedoManager cardManager sidebar
         lastSavedContent].
    rewrite Hm. unfold saveContentState.
    rewrite (proj2 (proj2 Hok)).
    unfold contentTimeoutFires.
    cbn [contentChangeTimeout with_contentTimeout]. rewrite Hne.
    set (m2 := with_contentTimeout (undoRedoManager a) _).
    assert (historyOk m2) as Hok2 by exact Hok.
    destruct (saveState_history now "content_change"
                (data_contentChange (card_id cur')
                   (lastSavedContent (sidebar a)) final)
                (cardManager a1) m2 Hok2) as (Hh & Hi & _).
    cbv zeta in *.
    cbn [history currentIndex contentChangeTimeout with_contentTimeout].
    split; [exact Hh|]. split; [exact Hi|]. now split.
Qed.

(* ================================================================== *)
(** * Properties of the grid and of the animation loop               *)
(* ================================================================== *)




Lemma animate_distances w :
  Qabs (targetTX (animate w) - translateX (animate w))
  == (4 # 5) * Qabs (targetTX w - translateX w)
  /\ Qabs (targetTY (animate w) - translateY (animate w))
     == (4 # 5) * Qabs (targetTY w - translateY w)
  /\ Qabs (targetScale (animate w) - scale (animate w))
     == (4 # 5) * Qabs (targetScale w - scale w).
Proof.
  unfold animate, DAMPING.
  cbn [targetTX targetTY targetScale translateX translateY scale].
  assert (forall t c : Q,
             Qabs (t - (c + (t - c) * (2 # 10))) == (4 # 5) * Qabs (t - c))
    as H.
  { intros t c.
    assert (t - (c + (t - c) * (2 # 10)) == (4 # 5) * (t - c)) as ->
        by ring.
    rewrite Qabs_Qmult. now rewrite (Qabs_pos (4 # 5)) by lra. }
  repeat split; apply H.
Qed.

Lemma animate_rafId w : rafId (animate w) = false <-> settled (animate w).
Proof.
  unfold settled. unfold animate at 1.
  cbn [rafId]. rewrite negb_false_iff, !andb_true_iff, !Qltb_lt.
  unfold animate.
  cbn [targetTX targetTY targetScale translateX translateY scale]. tauto.
Qed.

Lemma animate_targets w :
  targetTX (animate w) = targetTX w /\ targetTY (animate w) = targetTY w
  /\ targetScale (animate w) = targetScale w.
Proof. now repeat split. Qed.

(** The sum of the three remaining distances. *)
Lemma runAnimation_rests (n : nat) :
  forall (w : World) (B : Q),
    Qabs (targetTX (animate w) - translateX (animate w))
    + Qabs (targetTY (animate w) - translateY (animate w))
    + Qabs (targetScale (animate w) - scale (animate w)) <= B ->
    Nat.iter n (Qmult (4 # 5)) B < 1 # 10000 ->
    let w' := runAnimation (S n) w in
    rafId w' = false /\ settled w'
    /\ (targetTX w' = targetTX w /\ targetTY w' = targetTY w
        /\ targetScale w' = targetScale w).
Proof.
  induction n as [|n IH]; intros w B HB Hsmall; cbv zeta.
  - change (B < 1 # 10000) in Hsmall.
    pose proof (Qabs_nonneg (targetTX (animate w) - translateX (animate w))).
    pose proof (Qabs_nonneg (targetTY (animate w) - translateY (animate w))).
    pose proof (Qabs_nonneg (targetScale (animate w) - scale (animate w))).
    assert (settled (animate w)) as Hs by (unfold settled; repeat split; lra).
    cbn [runAnimation].
    assert (rafId (animate w) = false) as Hr by now apply animate_rafId.
    rewrite Hr. split; [exact Hr|]. split; [exact Hs|].
    apply animate_targets.
  - change (runAnimation (S (S n)) w)
      with (if rafId (animate w) then runAnimation (S n) (animate w)
            else animate w).
    destruct (rafId (animate w)) eqn:Er.
    + destruct (animate_distances (animate w)) as (Dx & Dy & Ds).
      destruct (IH (animate w) ((4 # 5) * B)) as (Hr & Hs & Ht).
      * rewrite Dx, Dy, Ds. lra.
      * rewrite Nat.iter_swap. exact Hsmall.
      * split; [exact Hr|]. split; [exact Hs|].
        destruct Ht as (-> & -> & ->). apply animate_targets.
    + split; [exact Er|]. split; [now apply animate_rafId|].
      apply animate_targets.
Qed.

Lemma contraction_bound (n : nat) (B : Q) :
  0 <= B ->
  0 <= Nat.iter n (Qmult (4 # 5)) B
  /\ Nat.iter n (Qmult (4 # 5)) B * (4 + inject_Z (Z.of_nat n)) <= 4 * B.
Proof.
  intros HB. induction n as [|n (IH0 & IH)].
  - change (Nat.iter 0 (Qmult (4 # 5)) B) with B.
    change (inject_Z (Z.of_nat 0)) with 0. split; lra.
  - change (Nat.iter (S n) (Qmult (4 # 5)) B)
      with ((4 # 5) * Nat.iter n (Qmult (4 # 5)) B).
    set (x := Nat.iter n (Qmult (4 # 5)) B) in *.
    rewrite Nat2Z.inj_succ. unfold Z.succ. rewrite inject_Z_plus.
    change (inject_Z 1) with 1.
    set (k := inject_Z (Z.of_nat n)) in *.
    assert (0 <= k) as Hk.
    { unfold k. change 0 with (inject_Z 0). rewrite <- Zle_Qle. lia. }
    split; [lra|].
    assert (0 <= x * k) by (apply Qmult_le_0_compat; assumption).
    lra.
Qed.

Lemma contraction_small (B : Q) :
  0 <= B -> exists n, Nat.iter n (Qmult (4 # 5)) B < 1 # 10000.
Proof.
  intros HB.
  exists (Z.to_nat (Qceiling (40000 * B))).
  destruct (contraction_bound (Z.to_nat (Qceiling (40000 * B))) B HB)
    as (H0 & H).
  set (x := Nat.iter _ (Qmult (4 # 5)) B) in *.
  pose proof (Qle_ceiling (40000 * B)) as Hc.
  assert (0 <= Qceiling (40000 * B))%Z as Hz.
  { change 0%Z with (Qceiling 0). apply Qceiling_resp_le. lra. }
  rewrite Z2Nat.id in H by exact Hz.
  set (k := inject_Z (Qceiling (40000 * B))) in *.
  assert (0 <= k) as Hk.
  { unfold k. change 0 with (inject_Z 0). now rewrite <- Zle_Qle. }
  destruct (Qlt_le_dec x (1 # 10000)) as [Hlt|Hge]; [exact Hlt|].
  exfalso.
  assert ((1 # 10000) * (4 + k) <= x * (4 + k))
    by (apply Qmult_le_compat_r; lra).
  lra.
Qed.

Lemma runAnimation_stable (n : nat) :
  forall w k,
    rafId (runAnimation (S n) w) = false ->
    runAnimation (S n + k) w = runAnimation (S n) w.
Proof.
  induction n as [|n IH]; intros w k Hr.
  - change (runAnimation 1 w)
      with (if rafId (animate w) then animate w else animate w) in Hr.
    assert (rafId (animate w) = false) as Hr'
        by (destruct (rafId (animate w)) eqn:E; congruence).
    cbn [Nat.add runAnimation]. now rewrite Hr'.
  - change (runAnimation (S (S n)) w)
      with (if rafId (animate w) then runAnimation (S n) (animate w)
            else animate w) in *.
    change (runAnimation (S (S n) + k) w)
      with (if rafId (animate w)
            then runAnimation (S n + k) (animate w)
            else animate w).
    destruct (rafId (animate w)); [|reflexivity].
    now apply IH.
Qed.

(** The animation stops.  From any viewport state the animation loop
    comes to rest after finitely many frames: the frame request is
    dropped, each remaining distance to the target is under its threshold
    (0.01 for the translation, 0.0001 for the scale), the targets are
    the ones it started with, and running it for more frames changes
    nothing further. *)
Theorem animation_comes_to_rest :
  forall w : World,
    exists frames : nat,
      let w' := runAnimation frames w in
      rafId w' = false
      /\ settled w'
      /\ (targetTX w' = targetTX w /\ targetTY w' = targetTY w
          /\ targetScale w' = targetScale w)
      /\ forall more, runAnimation (frames + more) w = w'.
Proof.
  intros w.
  set (B := Qabs (targetTX (animate w) - translateX (animate w))
            + Qabs (targetTY (animate w) - translateY (animate w))
            + Qabs (targetScale (animate w) - scale (animate w))).
  assert (0 <= B) as HB.
  { pose proof (Qabs_nonneg (targetTX (animate w) - translateX (animate w))).
    pose proof (Qabs_nonneg (targetTY (animate w) - translateY (animate w))).
    pose proof (Qabs_nonneg (targetScale (animate w) - scale (animate w))).
    unfold B. lra. }
  destruct (contraction_small B HB) as [n Hn].
  exists (S n). cbv zeta.
  destruct (runAnimation_rests n w B (Qle_refl _) Hn) as (Hr & Hs & Ht).
  cbv zeta in *.
  split; [exact Hr|]. split; [exact Hs|]. split; [exact Ht|].
  intros more. now apply runAnimation_stable.
Qed.

(* ================================================================== *)
(** * The two variants of the snap resolver                          *)
(* ================================================================== *)

Lemma single_snapLoop_agrees offsetHeight x y draggedCardData
      (entries : list (positive * Card)) :
  Forall keyedById entries ->
  forall sx sy,
    SingleSelect.snapLoop (fun k => Some (offsetHeight k)) x y
      draggedCardData entries sx sy
    = snapLoop offsetHeight x y draggedCardData [card_id draggedCardData]
               entries sx sy.
Proof.
  induction 1 as [|[id cardData] entries Hid _ IH]; intros sx sy;
    cbn [SingleSelect.snapLoop snapLoop]; [reflexivity|].
  unfold keyedById in Hid. cbn [fst snd] in Hid.
  cbn [set_has existsb]. rewrite orb_false_r.
  destruct (Pos.eqb id (card_id draggedCardData)); [apply IH|].
  rewrite IH. unfold SingleSelect.getCardActualHeight, resolveHeight.
  now rewrite Hid.
Qed.

(** The two snap resolvers.  On a board whose cards sit under their
    own ids and all have their element, the snap resolver of the
    single-selection variant of the card manager (which skips the dragged
    card and falls back to a height of 100 only for a card without an
    element) returns what the resolver of the multi-selection variant
    returns when the dragged card is the one excluded card. *)
Theorem single_select_snapping_agrees :
  forall (offsetHeight : positive -> Q) (cm : CardManager) (x y : Q)
         (draggedCardData : Card),
    Forall keyedById (cards cm) ->
    SingleSelect.applySnapping (fun k => Some (offsetHeight k)) cm x y
                               draggedCardData
    = applySnapping offsetHeight cm x y draggedCardData
                    [card_id draggedCardData].
Proof.
  intros offsetHeight cm x y draggedCardData Hid.
  unfold SingleSelect.applySnapping, applySnapping.
  now rewrite single_snapLoop_agrees.
Qed.

(* ================================================================== *)
(** * Properties of the sidebar's width                              *)
(* ================================================================== *)

Lemma clamp_widthOk (v : Q) :
  minWidth <= Qmax minWidth (Qmin maxWidth v)
  /\ Qmax minWidth (Qmin maxWidth v) <= maxWidth.
Proof.
  split; [apply Q.le_max_l|].
  apply Q.max_lub; [unfold minWidth, maxWidth; lra|apply Q.le_min_l].
Qed.

Lemma clamp_inside (v : Q) :
  minWidth <= v -> v <= maxWidth -> Qmax minWidth (Qmin maxWidth v) == v.
Proof.
  intros Hlo Hhi. rewrite (Q.min_r maxWidth v) by exact Hhi.
  now apply Q.max_r.
Qed.

Lemma truncate_in_bounds (v : Q) :
  minWidth <= v -> v <= maxWidth ->
  minWidth <= inject_Z (Qtruncate v) /\ inject_Z (Qtruncate v) <= maxWidth
  /\ inject_Z (Qtruncate v) <= v /\ v < inject_Z (Qtruncate v) + 1.
Proof.
  intros Hlo Hhi. unfold Qtruncate.
  assert (Qle_bool 0 v = true) as ->.
  { apply Qle_bool_iff. unfold minWidth in Hlo. lra. }
  pose proof (Qfloor_le v) as Hfl.
  pose proof (Qlt_floor v) as Hlt.
  rewrite inject_Z_plus in Hlt. change (inject_Z 1) with 1 in Hlt.
  split; [|split; [lra|split; assumption]].
  change minWidth with (inject_Z 300). rewrite <- Zle_Qle.
  rewrite <- (Qfloor_Z 300). now apply Qfloor_resp_le.
Qed.

Lemma resizeStep_widthOk p ev :
  widthOk p ->
  (forall v, storedSidebarWidth p = Some v -> minWidth <= v /\ v <= maxWidth) ->
  widthOk (resizeStep p ev)
  /\ (forall v, storedSidebarWidth (resizeStep p ev) = Some v ->
                minWidth <= v /\ v <= maxWidth).
Proof.
  intros Hw Hst. destruct ev as [e|e|writable|]; cbn [resizeStep].
  - destruct (button e =? 0)%Z; now split.
  - destruct (isResizing p); [|now split]. split; [|exact Hst].
    unfold widthOk. cbn [panel_width]. apply clamp_widthOk.
  - destruct (isResizing p); [|now split].
    destruct writable; cbn [saveSidebarWidth]; [|now split].
    split; [exact Hw|].
    cbn [storedSidebarWidth panel_width]. intros v Hv.
    inversion Hv; subst. exact Hw.
  - unfold loadSidebarWidth. cbn [storedSidebarWidth].
    destruct (storedSidebarWidth p) as [v|].
    + split; [|cbn [storedSidebarWidth]; exact Hst].
      unfold widthOk. cbn [panel_width]. apply clamp_widthOk.
    + split; [|cbn [storedSidebarWidth]; exact Hst].
      unfold widthOk, defaultWidth, minWidth, maxWidth. cbn [panel_width].
      lra.
Qed.

(** The sidebar's width.  From a first page with nothing stored, through
    any sequence of presses on the resize handle, pointer movements,
    releases (whether or not the storage accepts the write) and page
    reloads, the sidebar's width stays between minWidth = 300 and
    maxWidth = 800, and so does every width left in storage.  While no
    resize is in progress a pointer movement does not change the width.
    A release that ends a resize and is stored survives a reload up to
    the fraction of a pixel that parseInt drops: the reloaded width is at
    most the released one and more than it less 1. *)
Theorem sidebar_width_stays_in_bounds :
  forall evs : list ResizeEvent,
    let p := runResize evs newSidebarPanel in
    widthOk p
    /\ (forall v, storedSidebarWidth p = Some v ->
                  minWidth <= v /\ v <= maxWidth)
    /\ (isResizing p = false ->
        forall e, resizeStep p (documentMouseMove e) = p)
    /\ (isResizing p = true ->
        let p' := runResize [documentMouseUp true; pageReload] p in
        panel_width p' <= panel_width p
        /\ panel_width p < panel_width p' + 1).
Proof.
  intros evs. cbv zeta.
  assert (widthOk (runResize evs newSidebarPanel)
          /\ (forall v,
                 storedSidebarWidth (runResize evs newSidebarPanel) = Some v ->
                 minWidth <= v /\ v <= maxWidth)) as (Hw & Hst).
  { unfold runResize.
    assert (widthOk newSidebarPanel
            /\ (forall v, storedSidebarWidth newSidebarPanel = Some v ->
                          minWidth <= v /\ v <= maxWidth)) as H0.
    { split; [|discriminate].
      unfold widthOk, newSidebarPanel, defaultWidth, minWidth, maxWidth.
      cbn [panel_width]. lra. }
    revert H0. generalize newSidebarPanel.
    induction evs as [|ev evs IH]; intros p (Hw & Hst); cbn [fold_left].
    - now split.
    - apply IH. now apply resizeStep_widthOk. }
  split; [exact Hw|]. split; [exact Hst|]. split.
  - intros Hno e. cbn [resizeStep]. now rewrite Hno.
  - remember (runResize evs newSidebarPanel) as p eqn:Ep. clear Ep Hst.
    intros Hyes. unfold runResize. cbn [fold_left resizeStep].
    rewrite Hyes.
    cbn [saveSidebarWidth loadSidebarWidth storedSidebarWidth panel_width].
    destruct Hw as (Hlo & Hhi).
    destruct (truncate_in_bounds _ Hlo Hhi) as (Tlo & Thi & Tle & Tlt).
    rewrite (clamp_inside _ Tlo Thi). now split.
Qed.

(* ================================================================== *)
(** * Properties of persistence, start-up and reset                  *)
(* ================================================================== *)

Lemma world_state_rt (w w0 : World) :
  let w' := applyWorldState (getWorldState w) w0 in
  (translateX w' = translateX w /\ translateY w' = translateY w
   /\ scale w' = scale w)
  /\ (atRest w -> sameTransform w' w).
Proof.
  cbv zeta. unfold applyWorldState, getWorldState.
  cbn [ws_translateX ws_translateY ws_scale ws_targetTX ws_targetTY
       ws_targetScale translateX translateY scale targetTX targetTY
       targetScale js_or].
  split; [now repeat split|].
  intros (Hx & Hy & Hs). unfold sameTransform.
  cbn [translateX translateY scale targetTX targetTY targetScale].
  assert (forall t c : Q, c == t -> (if truthyQ t then t else c) == t) as H'.
  { intros t c Hc. destruct (truthyQ t); [reflexivity|exact Hc]. }
  repeat split; try reflexivity; now apply H'.
Qed.

(** Saving and restoring the viewport.  Applying the world state read
    off a viewport gives that viewport's translation and scale back
    exactly.  A target is given back when it is not zero; a target that
    is zero is replaced by the corresponding current value.  So a
    viewport at rest is restored with all six numbers. *)
Theorem world_state_round_trip :
  forall w w0 : World,
    let w' := applyWorldState (getWorldState w) w0 in
    (translateX w' = translateX w /\ translateY w' = translateY w
     /\ scale w' = scale w)
    /\ ((~ targetTX w == 0 -> targetTX w' = targetTX w)
        /\ (~ targetTY w == 0 -> targetTY w' = targetTY w)
        /\ (~ targetScale w == 0 -> targetScale w' = targetScale w))
    /\ ((targetTX w == 0 -> targetTX w' = translateX w)
        /\ (targetTY w == 0 -> targetTY w' = translateY w)
        /\ (targetScale w == 0 -> targetScale w' = scale w))
    /\ (atRest w -> sameTransform w' w)
    /\ (isDragging w' = isDragging w0 /\ rafId w' = rafId w0).
Proof.
  intros w w0. cbv zeta. unfold applyWorldState, getWorldState.
  cbn [ws_translateX ws_translateY ws_scale ws_targetTX ws_targetTY
       ws_targetScale translateX translateY scale targetTX targetTY
       targetScale isDragging rafId js_or].
  assert (forall t c : Q,
             (~ t == 0 -> (if truthyQ t then t else c) = t)
             /\ (t == 0 -> (if truthyQ t then t else c) = c)) as H.
  { intros t c. unfold truthyQ.
    destruct (Qeq_bool t 0) eqn:E; cbn [negb].
    - apply Qeq_bool_iff in E. tauto.
    - split; [reflexivity|]. intros H. apply Qeq_bool_iff in H. congruence. }
  split; [now repeat split|].
  split; [repeat split; apply H|].
  split; [repeat split; apply H|].
  split; [|now split].
  intros (Hx & Hy & Hs). unfold sameTransform.
  cbn [translateX translateY scale targetTX targetTY targetScale].
  assert (forall t c : Q, c == t -> (if truthyQ t then t else c) == t) as H'.
  { intros t c Hc. destruct (truthyQ t); [reflexivity|exact Hc]. }
  repeat split; try reflexivity; now apply H'.
Qed.

Lemma reload_fold (o2 : list (positive * Card)) :
  forall (o1 : list (positive * Card)) (cm : CardManager),
    NoDup (map fst (o1 ++ o2)) -> Forall keyedById o2 -> cards cm = o1 ->
    cards (fold_left (fun acc cardData => snd (createCard cardData acc))
                     (map dataOfCard (map snd o2)) cm)
    = o1 ++ o2.
Proof.
  induction o2 as [|[k c] o2 IH]; intros o1 cm Hnd Hid Hcm;
    cbn [map fold_left snd].
  - now rewrite app_nil_r.
  - inversion Hid as [|? ? Hk Hid']; subst. unfold keyedById in Hk.
    cbn [fst snd] in Hk. subst k.
    destruct (createCard_stored c cm) as (Hc & _). cbv zeta in Hc.
    rewrite (IH (cards cm ++ [(card_id c, c)])).
    + now rewrite <- app_assoc.
    + now rewrite <- app_assoc.
    + exact Hid'.
    + rewrite Hc. apply map_set_fresh.
      rewrite map_app in Hnd. cbn [map fst] in Hnd.
      apply NoDup_remove_2 in Hnd. intros Hin. apply Hnd.
      apply in_or_app. now left.
Qed.

(** Saving and reloading the board.  When a well-formed, non-empty
    board is saved at once (Ctrl+S or on unload) and the stored document
    is loaded at start-up, whatever the application then holds, the cards
    come back as they were, field by field and in the same order, with an
    empty selection, and the viewport gets the stored translation and
    scale.  A saved empty board is not reloaded as empty: start-up then
    centres the view and creates the default card. *)
Theorem saved_board_reloads :
  forall (now : Z) (rect : Rect) (a a0 : App),
    storeOk (cardManager a) ->
    let stored := storage (onSaveKey now true a) in
    let a' := loadApplicationState true rect (with_storage a0 stored) in
    (cards (cardManager a) <> [] ->
     cards (cardManager a') = cards (cardManager a)
     /\ selectedCards (cardManager a') = []
     /\ (translateX (world a') = translateX (world a)
         /\ translateY (world a') = translateY (world a)
         /\ scale (world a') = scale (world a))
     /\ (atRest (world a) -> sameTransform (world a') (world a)))
    /\ (cards (cardManager a) = [] ->
        cards (cardManager a')
        = map_set (cards (cardManager a0)) 1 defaultCard
        /\ world a' = centerView rect (world a0)).
Proof.
  intros now rect a a0 (Hnd & Hid & _). cbv zeta.
  unfold loadApplicationState, onSaveKey, loadData, saveData.
  cbn [storage with_storage localStorage saved_cards saved_worldState].
  unfold getAllCards. rewrite !length_map. split.
  - intros Hne.
    destruct (cards (cardManager a)) as [|entry rest] eqn:Ec; [congruence|].
    cbn [List.length Nat.ltb Nat.leb]. rewrite <- Ec in *.
    cbn [cardManager world].
    split.
    { unfold loadCards. apply (reload_fold _ []); [exact Hnd|exact Hid|].
      reflexivity. }
    split.
    { unfold loadCards.
      destruct (createAll_frame
                  (map dataOfCard (map snd (cards (cardManager a))))
                  (with_selectedCards
                     (with_cards (cardManager (with_storage a0
                        (mkStorage
                           (Some (mkPersisted
                                    (map dataOfCard
                                       (map snd (cards (cardManager a))))
                                    (getWorldState (world a)) "1.0" now))
                           (autoSaveTimeout (storage a))))) []) []))
        as (Hs & _). exact Hs. }
    pose proof (world_state_rt (world a) (world a0)) as (H1 & H2).
    split; [exact H1|exact H2].
  - intros Hemp. rewrite Hemp. cbn [List.length Nat.ltb Nat.leb].
    unfold createDefaultCards, getDefaultCards.
    cbn [cardManager world with_world fold_left].
    split; [|reflexivity].
    exact (proj1 (createCard_stored defaultCard (cardManager a0))).
Qed.

(** Reset.  After a confirmed reset whose removal of the stored
    document succeeds, while no restore is in progress: the board holds
    exactly the default card under id 1, nothing is selected, the
    viewport is centred at scale 1, the stored document is gone and a
    save of the default card is scheduled, and the history consists of
    the single initial_state entry of that board, with nothing to undo or
    redo and no pending drag or content change.  What reset does not
    touch: the active card id and the editing panel stay as they were,
    and nextId is not lowered.  A declined reset changes nothing. *)
Theorem reset_outcome :
  forall (now : Z) (readable : bool) (rect : Rect) (a : App),
    isPerformingUndoRedo (undoRedoManager a) = false ->
    let a' := snd (appReset now true true readable rect a) in
    (cards (cardManager a') = [(1%positive, defaultCard)]
     /\ selectedCards (cardManager a') = []
     /\ activeCard (cardManager a') = activeCard (cardManager a)
     /\ nextId (cardManager a')
        = (if Pos.leb (nextId (cardManager a)) 1 then 2%positive
           else nextId (cardManager a))
     /\ sidebar a' = sidebar a)
    /\ (translateX (world a') = rect_width rect / 2
        /\ translateY (world a') = rect_height rect / 2
        /\ scale (world a') = 1 /\ targetScale (world a') = 1)
    /\ (localStorage (storage a') = None
        /\ autoSaveTimeout (storage a') = Some [defaultCard]
        /\ fst (appReset now true true readable rect a) = None)
    /\ (history (undoRedoManager a')
        = [mkHistoryEntry "initial_state" now
             (mkSnapshot [(1%positive, defaultCard)] []
                         (activeCard (cardManager a)))
             data_none]
        /\ currentIndex (undoRedoManager a') = 0%Z
        /\ canUndo (undoRedoManager a') = false
        /\ canRedo (undoRedoManager a') = false
        /\ pendingDragOperation (undoRedoManager a') = None
        /\ contentChangeTimeout (undoRedoManager a') = None)
    /\ (forall removable,
           appReset now false removable readable rect a = (None, a)).
Proof.
  intros now readable rect a Hflag. cbv zeta.
  unfold appReset, storageInitialize, clearData, loadData.
  cbn [snd storage localStorage].
  assert ((if readable then @None Persisted else None) = None) as ->
      by now destruct readable.
  unfold createDefaultCards, getDefaultCards.
  cbn [fold_left cardManager world sidebar storage undoRedoManager fst snd
       with_undoRedoManager].
  destruct (createCard_stored defaultCard (loadCards [] (cardManager a)))
    as (Hc & Hs & Ha).
  cbv zeta in *.
  set (cm' := snd (createCard (dataOfCard defaultCard)
                              (loadCards [] (cardManager a)))) in *.
  assert (cards cm' = [(1%positive, defaultCard)]) as Hc' by exact Hc.
  assert (selectedCards cm' = []) as Hs' by exact Hs.
  assert (activeCard cm' = activeCard (cardManager a)) as Ha' by exact Ha.
  split.
  { split; [exact Hc'|]. split; [exact Hs'|]. split; [exact Ha'|].
    split; [|reflexivity].
    subst cm'. unfold createCard, dataOfCard.
    cbn [data_id snd nextId with_nextId with_cards loadCards fold_left
         with_selectedCards card_id defaultCard].
    reflexivity. }
  split; [now repeat split|].
  split; [now repeat split|].
  split; [|reflexivity].
  unfold initialize, clearHistory, saveState.
  cbn [isPerformingUndoRedo history currentIndex]. rewrite Hflag.
  cbn [List.length app Z.of_nat Z.ltb Z.compare Z.sub Z.add Z.opp
       Z.pos_sub Pos.pred_double Z.gtb maxHistorySize Pos.compare
       Pos.compare_cont history currentIndex pendingDragOperation
       contentChangeTimeout].
  unfold captureCurrentState. rewrite Hc', Hs', Ha'.
  cbn [fold_left obj_set]. unfold defaultCard at 2 3 4 5 6 7.
  cbn [card_id card_x card_y card_width card_height card_content].
  now repeat split.
Qed.

(* ================================================================== *)
(** * How adding a card composes with undo and redo                  *)
(* ================================================================== *)

Lemma capture_fold_get (cs : list (positive * Card)) :
  forall o k,
    NoDup (map fst cs) ->
    map_get (fold_left captureStep cs o) k
    = match map_get cs k with
      | Some c => Some c
      | None => map_get o k
      end.
Proof.
  induction cs as [|[k0 c0] cs IH]; intros o k Hnd; cbn [fold_left map_get].
  - reflexivity.
  - cbn [map fst] in Hnd. inversion Hnd as [|? ? Hnotin Hnd']; subst.
    rewrite IH by exact Hnd'. unfold captureStep.
    rewrite map_get_obj_set, card_eta.
    destruct (Pos.eqb_spec k k0) as [->|Hne]; [|reflexivity].
    now rewrite (map_get_notin cs k0 Hnotin).
Qed.

Lemma manager_after_restore (m : UndoRedoManager) (i : Z) :
  history (with_flag (with_index m i) false) = history m
  /\ currentIndex (with_flag (with_index m i) false) = i
  /\ isPerformingUndoRedo (with_flag (with_index m i) false) = false.
Proof. repeat split. Qed.

(** The board and the history [addNewCard] leaves behind. *)
Lemma add_new_card_core now rect a :
  storeOk (cardManager a) ->
  historyOk (undoRedoManager a) ->
  let a' := snd (addNewCard now rect a) in
  let m1 := saveState now "create_card" data_none (cardManager a)
                      (undoRedoManager a) in
  exists c,
    cards (cardManager a')
    = cards (cardManager a) ++ [(nextId (cardManager a), c)]
    /\ history (undoRedoManager a') = history m1
    /\ currentIndex (undoRedoManager a') = currentIndex m1
    /\ isPerformingUndoRedo (undoRedoManager a') = isPerformingUndoRedo m1.
Proof.
  intros Hok Hhist. cbv zeta.
  pose proof (storeOk_fresh _ Hok) as Hfresh.
  unfold addNewCard.
  set (b := getVisibleBounds rect (world a)).
  set (x := bounds_left b + bounds_width b / 2 - 150).
  set (y := bounds_top b + bounds_height b / 2 - 75).
  set (n := nextId (cardManager a)) in *.
  set (c := mkCard n x y 300 auto newCardContent).
  assert (createCard (mkCardData None (Some x) (Some y) (Some 300)
                                 (Some auto) (Some newCardContent))
                     (cardManager a)
          = (c, with_nextId
                  (with_cards (cardManager a)
                              (cards (cardManager a) ++ [(n, c)]))
                  (Pos.succ n))) as ->.
  { unfold createCard, spread.
    cbn [data_id data_x data_y data_width data_height data_content
         card_id].
    rewrite (map_set_fresh _ n) by exact Hfresh. fold n.
    destruct (Pos.leb_spec (Pos.succ n) n); [lia|]. reflexivity. }
  set (cm1 := with_nextId _ (Pos.succ n)).
  set (m1 := saveState now "create_card" data_none (cardManager a)
                       (undoRedoManager a)).
  set (a1 := mkApp _ cm1 _ _ m1).
  destruct (selectCard_single (card_id c) a1)
    as (_ & _ & _ & _ & (Hh & Hi & Hf & _) & _).
  destruct (selectCard_store (card_id c) false a1) as (Hc & _).
  cbv zeta in *.
  destruct (selectCard (card_id c) false a1) as [[u|] a2];
    cbn [fst snd] in *; exists c; rewrite Hc, Hh, Hi, Hf; now repeat split.
Qed.

(** Undo and redo after adding a card.  addNewCard writes its history
    entry before it creates the card, so the entry holds the board
    without the card.  On a well-formed board with a valid, non-negative
    history index and a viewport scale that is not zero: after addNewCard
    the new card is on the board; the undo that follows succeeds, and so
    does the redo after it; but that redo restores the create_card
    entry's snapshot, so the new card is not on the board afterwards,
    while every card that was there before the addition is back as it
    was; and no further redo is available. *)
Theorem redo_does_not_bring_back_an_added_card :
  forall (now : Z) (rect : Rect) (a : App),
    storeOk (cardManager a) ->
    NoDup (selectedCards (cardManager a)) ->
    historyOk (undoRedoManager a) ->
    (0 <= currentIndex (undoRedoManager a))%Z ->
    ~ scale (world a) == 0 ->
    let newId := nextId (cardManager a) in
    let a1 := snd (addNewCard now rect a) in
    let a2 := snd (undo a1) in
    let a3 := snd (redo a2) in
    map_has (cards (cardManager a1)) newId = true
    /\ fst (undo a1) = Some true
    /\ fst (redo a2) = Some true
    /\ map_has (cards (cardManager a3)) newId = false
    /\ (forall k, k <> newId ->
                  map_get (cards (cardManager a3)) k
                  = map_get (cards (cardManager a)) k)
    /\ canRedo (undoRedoManager a3) = false.
Proof.
  intros now rect a Hstore Hsel Hok Hnonneg Hscale. cbv zeta.
  pose proof (storeOk_fresh _ Hstore) as Hfresh.
  destruct (add_new_card_core now rect a Hstore Hok)
    as (c & Hcards & Hh & Hi & Hf).
  destruct (saveState_written now "create_card" data_none (cardManager a)
              (undoRedoManager a) Hok) as (Hcur & _ & Hok1).
  destruct (saveState_history now "create_card" data_none (cardManager a)
              (undoRedoManager a) Hok) as (Hhist & Hidx & _).
  cbv zeta in Hcards, Hh, Hi, Hf, Hcur, Hok1, Hhist, Hidx.
  assert (2 <= Z.of_nat
                 (List.length
                    (history (saveState now "create_card" data_none
                                (cardManager a) (undoRedoManager a)))))%Z
    as Hlen.
  { assert (Z.of_nat
              (List.length
                 (firstn (Z.to_nat (currentIndex (undoRedoManager a) + 1))
                         (history (undoRedoManager a))))
            = currentIndex (undoRedoManager a) + 1)%Z as Hk.
    { rewrite length_firstn. destruct Hok as (_ & Hrange & _). lia. }
    destruct Hhist as [-> | (-> & Hfull)].
    - rewrite length_app. cbn [List.length]. lia.
    - destruct (firstn _ (history (undoRedoManager a))) as [|k0 kt];
        cbn [List.length] in *; [lia|].
      cbn [app tl]. rewrite length_app. cbn [List.length].
      unfold maxHistorySize in Hfull. lia. }
  clear Hhist.
  remember (saveState now "create_card" data_none (cardManager a)
                      (undoRedoManager a)) as m1 eqn:Em1.
  clear Em1.
  remember (snd (addNewCard now rect a)) as a1 eqn:Ea1. clear Ea1.
  assert (historyOk (undoRedoManager a1)) as Hoka1.
  { destruct Hok1 as (H1 & H2 & H3). unfold historyOk.
    rewrite Hh, Hi, Hf. repeat split; assumption || lia. }
  assert (0 < currentIndex (undoRedoManager a1))%Z as Hpos
      by (rewrite Hi, Hidx; lia).
  destruct (undo_success a1 Hoka1 Hpos) as (e0 & _ & Hundo).
  rewrite Hundo. cbn [fst snd].
  pose proof (applyState_manager (state e0)
                (with_undoRedoManager a1
                   (with_index (undoRedoManager a1)
                               (currentIndex (undoRedoManager a1) - 1))))
    as Hm2.
  cbn [undoRedoManager with_undoRedoManager] in Hm2.
  remember (applyState (state e0)
              (with_undoRedoManager a1
                 (with_index (undoRedoManager a1)
                             (currentIndex (undoRedoManager a1) - 1))))
    as a2 eqn:Ea2.
  clear Ea2 Hundo.
  assert (history (undoRedoManager a2) = history m1
          /\ currentIndex (undoRedoManager a2) = (currentIndex m1 - 1)%Z
          /\ isPerformingUndoRedo (undoRedoManager a2) = false)
    as (Hh2 & Hi2 & Hf2).
  { destruct (manager_after_restore (undoRedoManager a1)
                (currentIndex (undoRedoManager a1) - 1)) as (E1 & E2 & E3).
    rewrite Hm2, E1, E2, E3, Hh, Hi.
    split; [reflexivity|split; reflexivity]. }
  clear Hm2.
  assert (historyOk (undoRedoManager a2)) as Hoka2.
  { destruct Hok1 as (H1 & H2 & H3). unfold historyOk.
    rewrite Hh2, Hi2, Hf2. repeat split; assumption || lia. }
  assert (currentIndex (undoRedoManager a2)
          < Z.of_nat (List.length (history (undoRedoManager a2))) - 1)%Z
    as Hroom by (rewrite Hh2, Hi2, Hidx; lia).
  destruct (redo_success a2 Hoka2 Hroom) as (e1 & He1 & Hredo2).
  rewrite Hredo2. cbn [fst snd].
  assert (state e1 = captureCurrentState (cardManager a)) as He1'.
  { rewrite Hh2, Hi2 in He1.
    replace (currentIndex m1 - 1 + 1)%Z with (currentIndex m1) in He1
      by lia.
    rewrite Hcur in He1. inversion He1. reflexivity. }
  rewrite He1'.
  assert (snapshotOk (captureCurrentState (cardManager a))) as Hsnap.
  { apply captureCurrentState_ok. split; [apply Hstore|exact Hsel]. }
  pose proof (applyState_manager (captureCurrentState (cardManager a))
                (with_undoRedoManager a2
                   (with_index (undoRedoManager a2)
                               (currentIndex (undoRedoManager a2) + 1))))
    as Hm3.
  cbn [undoRedoManager with_undoRedoManager] in Hm3.
  pose proof (proj1 (applyState_board
                       (captureCurrentState (cardManager a))
                       (with_undoRedoManager a2
                          (with_index (undoRedoManager a2)
                             (currentIndex (undoRedoManager a2) + 1)))
                       Hsnap)) as Hc3.
  remember (applyState (captureCurrentState (cardManager a))
              (with_undoRedoManager a2
                 (with_index (undoRedoManager a2)
                             (currentIndex (undoRedoManager a2) + 1))))
    as a3 eqn:Ea3.
  clear Ea3 Hredo2.
  assert (forall k,
             map_get (cards (cardManager a3)) k
             = map_get (cards (cardManager a)) k) as Hget.
  { intros k. rewrite Hc3, captureCurrentState_unfold. cbn [snap_cards].
    rewrite capture_fold_get by apply Hstore.
    destruct (map_get (cards (cardManager a)) k); reflexivity. }
  split.
  { unfold map_has. rewrite Hcards.
    rewrite <- (map_set_fresh _ _ c) by exact Hfresh.
    rewrite map_get_set, Pos.eqb_refl. reflexivity. }
  split; [reflexivity|]. split; [reflexivity|].
  split.
  { unfold map_has. rewrite Hget.
    rewrite (map_get_notin _ _ Hfresh). reflexivity. }
  split; [intros k _; apply Hget|].
  destruct (manager_after_restore (undoRedoManager a2)
              (currentIndex (undoRedoManager a2) + 1)) as (E1 & E2 & _).
  rewrite Hm3. unfold canRedo. rewrite E1, E2, Hh2, Hi2, Hidx.
  apply Z.ltb_ge. lia.
Qed.

(* ================================================================== *)
(** * Duplicating the selection                                      *)
(* ================================================================== *)




(* ================================================================== *)
(** * How a drag composes with undo and redo                         *)
(* ================================================================== *)

Lemma js_nth_app_l {A : Type} (l r : list A) (i : Z) :
  (0 <= i < Z.of_nat (List.length l))%Z -> js_nth (l ++ r) i = js_nth l i.
Proof.
  intros Hi. unfold js_nth. destruct (Z.ltb_spec i 0); [lia|].
  apply nth_error_app1. lia.
Qed.

Lemma js_nth_firstn {A : Type} (l : list A) (n : nat) (i : Z) :
  (0 <= i < Z.of_nat n)%Z -> js_nth (firstn n l) i = js_nth l i.
Proof.
  intros Hi. unfold js_nth. destruct (Z.ltb_spec i 0); [lia|].
  rewrite nth_error_firstn.
  destruct (Nat.ltb_spec (Z.to_nat i) n); [reflexivity|lia].
Qed.

Lemma js_nth_tl {A : Type} (l : list A) (i : Z) :
  (0 <= i)%Z -> js_nth (tl l) i = js_nth l (i + 1).
Proof.
  intros Hi. unfold js_nth.
  destruct (Z.ltb_spec i 0); [lia|]. destruct (Z.ltb_spec (i + 1) 0); [lia|].
  replace (Z.to_nat (i + 1)) with (S (Z.to_nat i)) by lia.
  destruct l; [now destruct (Z.to_nat i)|reflexivity].
Qed.

(** After a [saveState] the entry that was current is the one before the
    new current entry. *)
Lemma saveState_previous now op d cm m e0 :
  historyOk m ->
  (0 <= currentIndex m)%Z ->
  js_nth (history m) (currentIndex m) = Some e0 ->
  let m' := saveState now op d cm m in
  js_nth (history m') (currentIndex m' - 1) = Some e0
  /\ (0 < currentIndex m')%Z.
Proof.
  intros Hok Hnonneg He0. cbv zeta.
  destruct (saveState_history now op d cm m Hok) as (Hh & Hi & _).
  cbv zeta in Hh, Hi.
  pose proof (js_nth_bound _ _ _ He0) as Hb.
  assert (Z.of_nat (List.length
                      (firstn (Z.to_nat (currentIndex m + 1)) (history m)))
          = currentIndex m + 1)%Z as Hk by (rewrite length_firstn; lia).
  assert (js_nth (firstn (Z.to_nat (currentIndex m + 1)) (history m))
                 (currentIndex m) = Some e0) as Hkept
      by (rewrite js_nth_firstn by lia; exact He0).
  remember (firstn (Z.to_nat (currentIndex m + 1)) (history m)) as kept
    eqn:Ek.
  clear Ek.
  remember (saveState now op d cm m) as m' eqn:Em'. clear Em'.
  remember (mkHistoryEntry op now (captureCurrentState cm) d) as e eqn:Ee.
  clear Ee.
  rewrite Hi. destruct Hh as [Hh | (Hh & Hfull)]; rewrite Hh.
  - rewrite length_app. cbn [List.length].
    replace (Z.of_nat (List.length kept + 1) - 1 - 1)%Z
      with (currentIndex m) by lia.
    split; [|lia]. rewrite js_nth_app_l by lia. exact Hkept.
  - unfold maxHistorySize in Hfull.
    assert (Z.of_nat (List.length (tl (kept ++ [e]))) = 50%Z) as Hlen.
    { destruct kept as [|k0 kt]; cbn [List.length] in *; [lia|].
      cbn [app tl]. rewrite length_app. cbn [List.length]. lia. }
    rewrite Hlen. split; [|lia].
    rewrite js_nth_tl by lia.
    replace (50 - 1 - 1 + 1)%Z with (currentIndex m) by lia.
    rewrite js_nth_app_l by lia. exact Hkept.
Qed.

Lemma startDragging_board now cardId e a :
  cards (cardManager (snd (startDragging now cardId e a)))
  = cards (cardManager a)
  /\ nextId (cardManager (snd (startDragging now cardId e a)))
     = nextId (cardManager a)
  /\ selectedCards (cardManager (snd (startDragging now cardId e a)))
     = selectedCards (cardManager a).
Proof.
  unfold startDragging.
  destruct (set_has (selectedCards (cardManager a)) cardId).
  - destruct (dragEntries _ _ _). now repeat split.
  - destruct (map_get (cards (cardManager a)) cardId); now repeat split.
Qed.

Lemma updateCardDrag_selected offsetHeight e a :
  selectedCards (cardManager (snd (updateCardDrag offsetHeight e a)))
  = selectedCards (cardManager a).
Proof.
  unfold updateCardDrag.
  destruct (draggedCard (cardManager a)) as [d|]; [|reflexivity].
  destruct (multiDragOffsets (cardManager a)) as [|o os].
  - destruct (map_get (cards (cardManager a)) d);
      [|destruct (applySnappingAt _ _ _ _ _ _)]; reflexivity.
  - destruct (map_get (o :: os) d); [|reflexivity].
    destruct (applySnappingAt _ _ _ _ _ _); reflexivity.
Qed.

Lemma dragMoves_board offsetHeight (es : list MouseEvent) :
  forall a,
    storeOk (cardManager a) ->
    storeOk (cardManager (snd (dragMoves offsetHeight es a)))
    /\ selectedCards (cardManager (snd (dragMoves offsetHeight es a)))
       = selectedCards (cardManager a).
Proof.
  induction es as [|e es IH]; intros a Hok; cbn [dragMoves].
  - now split.
  - pose proof (updateCardDrag_storeOk offsetHeight e a Hok) as Hok1.
    pose proof (updateCardDrag_selected offsetHeight e a) as Hs1.
    destruct (updateCardDrag offsetHeight e a) as [[u|] a1]; cbn [snd] in *.
    + destruct (IH a1 Hok1) as (Hok2 & Hs2). split; [exact Hok2|].
      now rewrite Hs2.
    + now split.
Qed.

(** The history a drag gesture leaves when some card has moved. *)
Lemma drag_gesture_entry offsetHeight now0 now1 cardId e0 es a a1 :
  historyOk (undoRedoManager a) ->
  startDragging now0 cardId e0 a = (Some tt, a1) ->
  let a2 := snd (dragMoves offsetHeight es a1) in
  let a3 := endDragging now1 a2 in
  someCardMoved (draggedIds (cardManager a) cardId)
                (cards (cardManager a)) (cards (cardManager a2)) ->
  exists d m0',
    history m0' = history (undoRedoManager a)
    /\ currentIndex m0' = currentIndex (undoRedoManager a)
    /\ isPerformingUndoRedo m0' = false
    /\ undoRedoManager a3
       = with_pending
           (saveState now1 (dragTag (draggedIds (cardManager a) cardId)) d
                      (cardManager a2) m0')
           None
    /\ cards (cardManager a3) = cards (cardManager a2).
Proof.
  intros Hok Hstart a2 a3 Hmoved.
  destruct (startDragging_pending now0 cardId e0 a a1 (proj2 (proj2 Hok))
              Hstart) as (starts & Hm1 & Hd1 & Hstarts).
  set (ids := draggedIds (cardManager a) cardId) in *.
  destruct (dragMoves_frame offsetHeight es a1) as [Hm2 Hd2].
  cbv zeta in Hm2, Hd2. fold a2 in Hm2, Hd2. rewrite Hm1 in Hm2.
  rewrite Hd1 in Hd2.
  assert (undoRedoManager a3
          = finishDragOperation now1 (cardManager a2) (undoRedoManager a2)
          /\ cards (cardManager a3) = cards (cardManager a2)) as (Hm3 & Hc3).
  { subst a3. unfold endDragging. rewrite Hd2. now split. }
  rewrite Hm2 in Hm3. unfold finishDragOperation in Hm3.
  cbn [pendingDragOperation with_pending isPerformingUndoRedo pd_cardIds
       pd_startPositions pd_operation] in Hm3.
  rewrite (proj2 (proj2 Hok)) in Hm3.
  set (finals := finalPositionsOf (cardManager a2) ids) in Hm3.
  assert (hasChanged ids starts finals = true) as Hch.
  { apply hasChanged_iff.
    destruct Hmoved as (k & c & c' & Hin & Hc & Hc' & Hne).
    exists k, (positionOf c), (positionOf c').
    pose proof Hin as Hin'. apply set_has_In in Hin'.
    subst finals. rewrite Hstarts, finalPositionsOf_spec, Hin', Hc, Hc'.
    now repeat split. }
  rewrite Hch in Hm3.
  exists (data_drag ids starts finals),
         (with_pending (undoRedoManager a)
            (Some (mkPendingDrag (dragTag ids) ids starts now0))).
  split; [reflexivity|]. split; [reflexivity|].
  split; [exact (proj2 (proj2 Hok))|]. split; [exact Hm3|exact Hc3].
Qed.

(** Undo and redo of a drag.  On a well-formed board whose history is in
    step with it (the current entry's snapshot is the board as the drag
    finds it): after a drag gesture in which some card moved, undo
    succeeds and puts every card back where it was when the drag began;
    the redo after it succeeds and puts every card where the drag left
    it. *)
Theorem undo_of_a_drag_restores_the_start_positions :
  forall (offsetHeight : positive -> Q) (now0 now1 : Z) (cardId : positive)
         (e0 : MouseEvent) (es : list MouseEvent) (a a1 : App)
         (current : HistoryEntry),
    storeOk (cardManager a) ->
    NoDup (selectedCards (cardManager a)) ->
    historyOk (undoRedoManager a) ->
    js_nth (history (undoRedoManager a)) (currentIndex (undoRedoManager a))
    = Some current ->
    state current = captureCurrentState (cardManager a) ->
    startDragging now0 cardId e0 a = (Some tt, a1) ->
    let a2 := snd (dragMoves offsetHeight es a1) in
    let a3 := endDragging now1 a2 in
    someCardMoved (draggedIds (cardManager a) cardId)
                  (cards (cardManager a)) (cards (cardManager a2)) ->
    let a4 := snd (undo a3) in
    let a5 := snd (redo a4) in
    fst (undo a3) = Some true
    /\ (forall k, map_get (cards (cardManager a4)) k
                  = map_get (cards (cardManager a)) k)
    /\ fst (redo a4) = Some true
    /\ (forall k, map_get (cards (cardManager a5)) k
                  = map_get (cards (cardManager a2)) k).
Proof.
  intros offsetHeight now0 now1 cardId e0 es a a1 current Hstore Hsel Hok
         Hcur Hstate Hstart a2 a3 Hmoved.
  destruct (drag_gesture_entry offsetHeight now0 now1 cardId e0 es a a1
              Hok Hstart Hmoved) as (d & m0' & Hh0 & Hi0 & Hf0 & Hm3 & Hc3).
  fold a2 a3 in Hm3, Hc3.
  pose proof (js_nth_bound _ _ _ Hcur) as Hb.
  assert (historyOk m0') as Hok0.
  { destruct Hok as (H1 & H2 & H3). unfold historyOk.
    rewrite Hh0, Hi0, Hf0. now repeat split. }
  assert (storeOk (cardManager a2)
          /\ selectedCards (cardManager a2) = selectedCards (cardManager a))
    as (Hstore2 & Hsel2).
  { destruct (startDragging_board now0 cardId e0 a) as (Hc1 & Hn1 & Hs1).
    rewrite Hstart in Hc1, Hn1, Hs1. cbn [snd] in Hc1, Hn1, Hs1.
    destruct (dragMoves_board offsetHeight es a1
                (storeOk_same _ _ Hc1 Hn1 Hstore)) as (H1 & H2).
    split; [exact H1|]. subst a2. now rewrite H2. }
  assert (snapshotOk (captureCurrentState (cardManager a))) as Hsnap
      by (apply captureCurrentState_ok; split; [apply Hstore|exact Hsel]).
  assert (snapshotOk (captureCurrentState (cardManager a2))) as Hsnap2.
  { apply captureCurrentState_ok. split; [apply Hstore2|].
    now rewrite Hsel2. }
  assert (js_nth (history m0') (currentIndex m0') = Some current) as Hcur0
      by (rewrite Hh0, Hi0; exact Hcur).
  assert (0 <= currentIndex m0')%Z as Hnonneg by (rewrite Hi0; lia).
  destruct (saveState_written now1
              (dragTag (draggedIds (cardManager a) cardId)) d
              (cardManager a2) m0' Hok0) as (Hnew & _ & Hok1).
  destruct (saveState_previous now1
              (dragTag (draggedIds (cardManager a) cardId)) d
              (cardManager a2) m0' current Hok0 Hnonneg Hcur0)
    as (Hprev & Hpos).
  cbv zeta in Hnew, Hok1, Hprev, Hpos.
  pose proof (js_nth_bound _ _ _ Hnew) as Hbn.
  remember (saveState now1 (dragTag (draggedIds (cardManager a) cardId)) d
                      (cardManager a2) m0') as m1 eqn:Em1.
  clear Em1.
  assert (history (undoRedoManager a3) = history m1
          /\ currentIndex (undoRedoManager a3) = currentIndex m1
          /\ isPerformingUndoRedo (undoRedoManager a3)
             = isPerformingUndoRedo m1) as (Hh3 & Hi3 & Hf3)
      by (rewrite Hm3; now repeat split).
  clear Hm3.
  remember a3 as b3 eqn:Eb3. clear Eb3 a3.
  remember a2 as b2 eqn:Eb2. clear Eb2 a2 Hmoved.
  assert (historyOk (undoRedoManager b3)) as Hok3.
  { destruct Hok1 as (H1 & H2 & H3). unfold historyOk.
    rewrite Hh3, Hi3, Hf3. now repeat split. }
  assert (0 < currentIndex (undoRedoManager b3))%Z as Hpos3
      by (rewrite Hi3; exact Hpos).
  destruct (undo_success b3 Hok3 Hpos3) as (e1 & He1 & Hundo).
  cbv zeta. rewrite Hundo. cbn [fst snd].
  assert (state e1 = captureCurrentState (cardManager a)) as He1'.
  { rewrite Hh3, Hi3, Hprev in He1. inversion He1 as [E]. rewrite <- E.
    exact Hstate. }
  rewrite He1'.
  pose proof (applyState_manager (captureCurrentState (cardManager a))
                (with_undoRedoManager b3
                   (with_index (undoRedoManager b3)
                               (currentIndex (undoRedoManager b3) - 1))))
    as Hm4.
  cbn [undoRedoManager with_undoRedoManager] in Hm4.
  pose proof (proj1 (applyState_board
                       (captureCurrentState (cardManager a))
                       (with_undoRedoManager b3
                          (with_index (undoRedoManager b3)
                             (currentIndex (undoRedoManager b3) - 1)))
                       Hsnap)) as Hc4.
  remember (applyState (captureCurrentState (cardManager a))
              (with_undoRedoManager b3
                 (with_index (undoRedoManager b3)
                             (currentIndex (undoRedoManager b3) - 1))))
    as b4 eqn:Eb4.
  clear Eb4 Hundo.
  assert (history (undoRedoManager b4) = history m1
          /\ currentIndex (undoRedoManager b4) = (currentIndex m1 - 1)%Z
          /\ isPerformingUndoRedo (undoRedoManager b4) = false)
    as (Hh4 & Hi4 & Hf4).
  { destruct (manager_after_restore (undoRedoManager b3)
                (currentIndex (undoRedoManager b3) - 1)) as (E1 & E2 & E3).
    rewrite Hm4, E1, E2, E3, Hh3, Hi3.
    split; [reflexivity|split; reflexivity]. }
  clear Hm4.
  assert (historyOk (undoRedoManager b4)) as Hok4.
  { destruct Hok1 as (H1 & H2 & H3). unfold historyOk.
    rewrite Hh4, Hi4, Hf4. repeat split; assumption || lia. }
  assert (currentIndex (undoRedoManager b4)
          < Z.of_nat (List.length (history (undoRedoManager b4))) - 1)%Z
    as Hroom by (rewrite Hh4, Hi4; lia).
  destruct (redo_success b4 Hok4 Hroom) as (e2 & He2 & Hredo).
  rewrite Hredo. cbn [fst snd].
  assert (state e2 = captureCurrentState (cardManager b2)) as He2'.
  { rewrite Hh4, Hi4 in He2.
    replace (currentIndex m1 - 1 + 1)%Z with (currentIndex m1) in He2
      by lia.
    rewrite Hnew in He2. inversion He2. reflexivity. }
  rewrite He2'.
  pose proof (proj1 (applyState_board
                       (captureCurrentState (cardManager b2))
                       (with_undoRedoManager b4
                          (with_index (undoRedoManager b4)
                             (currentIndex (undoRedoManager b4) + 1)))
                       Hsnap2)) as Hc5.
  remember (applyState (captureCurrentState (cardManager b2))
              (with_undoRedoManager b4
                 (with_index (undoRedoManager b4)
                             (currentIndex (undoRedoManager b4) + 1))))
    as b5 eqn:Eb5.
  clear Eb5 Hredo.
  split; [reflexivity|]. split.
  { intros k. rewrite Hc4, captureCurrentState_unfold. cbn [snap_cards].
    rewrite capture_fold_get by apply Hstore.
    destruct (map_get (cards (cardManager a)) k); reflexivity. }
  split; [reflexivity|].
  intros k. rewrite Hc5, captureCurrentState_unfold. cbn [snap_cards].
  rewrite capture_fold_get by apply Hstore2.
  destruct (map_get (cards (cardManager b2)) k); reflexivity.
Qed.

(* ================================================================== *)
(** * Further properties of snapping and dragging                    *)
(* ================================================================== *)

Lemma axisState_bound p seen st :
  axisState p seen st ->
  Qabs (snapped st - p) < SNAP_DISTANCE
  /\ (line st = None -> snapped st = p)
  /\ (forall l, line st = Some l ->
        exists w, In w seen /\ l = snapLine w
                  /\ snapped st == p + (targetPos w - draggedPos w)).
Proof.
  intros [[Hnone ->]|(l1 & w & l2 & -> & Hw & _ & _ & ->)];
    cbn [snapped line].
  - split; [|split; [reflexivity|discriminate]].
    assert (p - p == 0) as -> by ring. unfold SNAP_DISTANCE. cbn. lra.
  - split; [|split; [discriminate|]].
    + assert (p + (targetPos w - draggedPos w) - p
              == - (draggedPos w - targetPos w)) as -> by ring.
      rewrite Qabs_opp. exact Hw.
    + intros l Hl. inversion Hl; subst. exists w.
      split; [apply in_or_app; right; now left|]. now split.
Qed.

Lemma xCandidates_edges entries x draggedCardData excludeCards w :
  In w (xCandidates entries x draggedCardData excludeCards) ->
  snapLine w = targetPos w
  /\ (draggedPos w = x \/ draggedPos w = x + card_width draggedCardData).
Proof.
  unfold xCandidates. rewrite in_flat_map. intros (entry & _ & Hin).
  unfold xAlignments in Hin. cbn [In] in Hin.
  destruct Hin as [<-|[<-|[<-|[<-|[]]]]]; cbn; tauto.
Qed.

Lemma yCandidates_edges offsetHeight entries y draggedCardData excludeCards
      w :
  In w (yCandidates offsetHeight entries y draggedCardData excludeCards) ->
  snapLine w = targetPos w
  /\ (draggedPos w = y
      \/ draggedPos w
         = y + resolveHeight offsetHeight (card_id draggedCardData)
                             (card_height draggedCardData)).
Proof.
  unfold yCandidates. rewrite in_flat_map. intros (entry & _ & Hin).
  unfold yAlignments in Hin. cbn [In] in Hin.
  destruct Hin as [<-|[<-|[<-|[<-|[]]]]]; cbn; tauto.
Qed.

(** Snapping is a small correction onto a real edge.  On each axis the
    snapped coordinate differs from the input by less than SNAP_DISTANCE;
    with no snap line on an axis the coordinate is the input itself; and a
    snap line is reported only where an edge of the card at its snapped
    position lies: its left or right edge for the vertical line, its top
    or bottom edge (with the height the resolver uses) for the horizontal
    line. *)
Theorem snapping_moves_less_than_the_threshold :
  forall (offsetHeight : positive -> Q) (cm : CardManager) (x y : Q)
         (draggedCardData : Card) (excludeCards : list positive),
    let result := applySnapping offsetHeight cm x y draggedCardData
                                excludeCards in
    let draggedHeight :=
      resolveHeight offsetHeight (card_id draggedCardData)
                    (card_height draggedCardData) in
    (Qabs (snap_x result - x) < SNAP_DISTANCE
     /\ Qabs (snap_y result - y) < SNAP_DISTANCE)
    /\ ((snapLineX result = None -> snap_x result = x)
        /\ (snapLineY result = None -> snap_y result = y))
    /\ (forall l, snapLineX result = Some l ->
          snap_x result == l
          \/ snap_x result + card_width draggedCardData == l)
    /\ (forall l, snapLineY result = Some l ->
          snap_y result == l \/ snap_y result + draggedHeight == l).
Proof.
  intros offsetHeight cm x y draggedCardData excludeCards. cbv zeta.
  unfold applySnapping. rewrite snapLoop_folds.
  cbn [snap_x snap_y snapLineX snapLineY].
  set (xs := xCandidates (cards cm) x draggedCardData excludeCards).
  set (ys := yCandidates offsetHeight (cards cm) y draggedCardData
                         excludeCards).
  assert (axisState x xs
            (fold_left (snapStep x) xs
                       (mkAxisSnap (SNAP_DISTANCE + 1) x None))) as Hx.
  { apply (snapFold_state x xs [] _). left.
    split; [intros a []|reflexivity]. }
  assert (axisState y ys
            (fold_left (snapStep y) ys
                       (mkAxisSnap (SNAP_DISTANCE + 1) y None))) as Hy.
  { apply (snapFold_state y ys [] _). left.
    split; [intros a []|reflexivity]. }
  destruct (axisState_bound _ _ _ Hx) as (Bx & Nx & Lx).
  destruct (axisState_bound _ _ _ Hy) as (By & Ny & Ly).
  split; [now split|]. split; [now split|]. split.
  - intros l Hl. destruct (Lx l Hl) as (w & Hin & -> & Hout).
    destruct (xCandidates_edges _ _ _ _ _ Hin) as (Hline & [Hd|Hd]);
      rewrite Hline, Hout, Hd; [left|right]; ring.
  - intros l Hl. destruct (Ly l Hl) as (w & Hin & -> & Hout).
    destruct (yCandidates_edges _ _ _ _ _ _ Hin) as (Hline & [Hd|Hd]);
      rewrite Hline, Hout, Hd; [left|right]; ring.
Qed.

Lemma moveCard_effect cs k nx ny :
  map fst (moveCard cs k nx ny) = map fst cs
  /\ (forall k', k' <> k -> map_get (moveCard cs k nx ny) k' = map_get cs k')
  /\ (forall k', option_map cardShape (map_get (moveCard cs k nx ny) k')
                 = option_map cardShape (map_get cs k')).
Proof.
  split; [|split].
  - unfold moveCard. destruct (map_get cs k) as [c|] eqn:E; [|reflexivity].
    apply map_set_same_keys. now apply map_get_keys in E.
  - intros k' Hne. rewrite map_get_moveCard.
    destruct (Pos.eqb_spec k' k); [contradiction|reflexivity].
  - intros k'. rewrite map_get_moveCard.
    destruct (Pos.eqb_spec k' k) as [->|]; [|reflexivity].
    now destruct (map_get cs k).
Qed.

Lemma moveGroup_effect mouse dx dy (offsets : list (positive * Point)) :
  forall cs,
    map fst (moveGroup cs mouse dx dy offsets) = map fst cs
    /\ (forall k', ~ In k' (map fst offsets) ->
                   map_get (moveGroup cs mouse dx dy offsets) k'
                   = map_get cs k')
    /\ (forall k', option_map cardShape
                     (map_get (moveGroup cs mouse dx dy offsets) k')
                   = option_map cardShape (map_get cs k')).
Proof.
  unfold moveGroup.
  induction offsets as [|[k off] offsets IH]; intros cs; cbn [fold_left].
  - now repeat split.
  - destruct (IH (moveCard cs k (pt_x mouse - pt_x off + dx)
                           (pt_y mouse - pt_y off + dy)))
      as (Hk & Ho & Hs).
    destruct (moveCard_effect cs k (pt_x mouse - pt_x off + dx)
                              (pt_y mouse - pt_y off + dy))
      as (Hk1 & Ho1 & Hs1).
    split; [now rewrite Hk|]. split.
    + intros k' Hnot. cbn [map fst In] in Hnot.
      rewrite Ho by tauto. apply Ho1. intros ->. tauto.
    + intros k'. now rewrite Hs.
Qed.

(** What one pointer movement of a drag can change. *)
Lemma updateCardDrag_effect offsetHeight e a (ids : list positive) :
  (forall d, draggedCard (cardManager a) = Some d -> In d ids) ->
  (forall k, In k (map fst (multiDragOffsets (cardManager a))) -> In k ids) ->
  let a' := snd (updateCardDrag offsetHeight e a) in
  (map fst (cards (cardManager a')) = map fst (cards (cardManager a))
   /\ (forall k, ~ In k ids ->
                 map_get (cards (cardManager a')) k
                 = map_get (cards (cardManager a)) k)
   /\ (forall k, option_map cardShape (map_get (cards (cardManager a')) k)
                 = option_map cardShape (map_get (cards (cardManager a)) k)))
  /\ (draggedCard (cardManager a') = draggedCard (cardManager a)
      /\ multiDragOffsets (cardManager a') = multiDragOffsets (cardManager a)
      /\ selectedCards (cardManager a') = selectedCards (cardManager a)
      /\ activeCard (cardManager a') = activeCard (cardManager a)
      /\ nextId (cardManager a') = nextId (cardManager a))
  /\ (world a' = world a /\ sidebar a' = sidebar a
      /\ storage a' = storage a
      /\ undoRedoManager a' = undoRedoManager a).
Proof.
  intros Hd Hoffs. cbv zeta. unfold updateCardDrag.
  destruct (draggedCard (cardManager a)) as [d|] eqn:Ed;
    [|now repeat split].
  specialize (Hd d eq_refl).
  destruct (multiDragOffsets (cardManager a)) as [|o os] eqn:Eo.
  - destruct (map_get (cards (cardManager a)) d) as [c|].
    + cbn [snd cardManager with_cardManager cards with_snapIndicators
           with_cards].
      match goal with
      | |- context [moveCard ?cs ?k ?nx ?ny] =>
          destruct (moveCard_effect cs k nx ny) as (Hk & Ho & Hs)
      end.
      split; [|now repeat split].
      split; [exact Hk|]. split; [|exact Hs].
      intros k Hnot. apply Ho. intros ->. contradiction.
    + destruct (applySnappingAt _ _ _ _ _ _); cbn [snd];
        now repeat split.
  - destruct (map_get (o :: os) d) as [off|]; [|now repeat split].
    destruct (applySnappingAt _ _ _ _ _ _) as [s|]; [|now repeat split].
    cbn [snd cardManager with_cardManager cards with_snapIndicators
         with_cards].
    match goal with
    | |- context [moveGroup ?cs ?m ?dx ?dy ?offs] =>
        destruct (moveGroup_effect m dx dy offs cs) as (Hk & Ho & Hs)
    end.
    split; [|now repeat split].
    split; [exact Hk|]. split; [|exact Hs].
    intros k Hnot. apply Ho. intros Hin. apply Hnot, Hoffs. exact Hin.
Qed.

Lemma dragMoves_effect offsetHeight (ids : list positive)
      (es : list MouseEvent) :
  forall a,
    (forall d, draggedCard (cardManager a) = Some d -> In d ids) ->
    (forall k, In k (map fst (multiDragOffsets (cardManager a))) ->
               In k ids) ->
    let a' := snd (dragMoves offsetHeight es a) in
    (map fst (cards (cardManager a')) = map fst (cards (cardManager a))
     /\ (forall k, ~ In k ids ->
                   map_get (cards (cardManager a')) k
                   = map_get (cards (cardManager a)) k)
     /\ (forall k, option_map cardShape (map_get (cards (cardManager a')) k)
                   = option_map cardShape
                       (map_get (cards (cardManager a)) k)))
    /\ (selectedCards (cardManager a') = selectedCards (cardManager a)
        /\ activeCard (cardManager a') = activeCard (cardManager a)
        /\ nextId (cardManager a') = nextId (cardManager a))
    /\ (world a' = world a /\ sidebar a' = sidebar a
        /\ storage a' = storage a).
Proof.
  induction es as [|e es IH]; intros a Hd Hoffs; cbv zeta; cbn [dragMoves].
  - now repeat split.
  - destruct (updateCardDrag_effect offsetHeight e a ids Hd Hoffs)
      as ((Hk & Ho & Hs) & (Hdc & Hmo & Hsel & Hact & Hn)
          & (Hw & Hsb & Hst & _)).
    cbv zeta in *.
    destruct (updateCardDrag offsetHeight e a) as [[u|] a1]; cbn [snd] in *.
    + destruct (IH a1) as ((Hk' & Ho' & Hs') & (Hsel' & Hact' & Hn')
                           & (Hw' & Hsb' & Hst')).
      * now rewrite Hdc.
      * now rewrite Hmo.
      * cbv zeta in *.
        split; [split; [congruence|split]|].
        -- intros k Hnot. rewrite Ho' by exact Hnot. now apply Ho.
        -- intros k. now rewrite Hs'.
        -- split; [repeat split; congruence|repeat split; congruence].
    + split; [now repeat split|]. split; now repeat split.
Qed.

(** A drag moves the dragged cards and nothing else.  From the press on a
    card through any run of pointer movements: the cards not among the
    dragged ones (the selection, or the one pressed card) are exactly as
    they were; of every card only the position can have changed (id,
    width, height and content are kept); no card appears or disappears
    and the order of the cards is kept; the selection, the active card,
    nextId, the viewport, the editing panel and the storage are
    untouched. *)
Theorem drag_moves_only_the_dragged_cards :
  forall (offsetHeight : positive -> Q) (now : Z) (cardId : positive)
         (e0 : MouseEvent) (es : list MouseEvent) (a a1 : App),
    startDragging now cardId e0 a = (Some tt, a1) ->
    let a2 := snd (dragMoves offsetHeight es a1) in
    (forall k, ~ In k (draggedIds (cardManager a) cardId) ->
               map_get (cards (cardManager a2)) k
               = map_get (cards (cardManager a)) k)
    /\ (forall k, option_map cardShape (map_get (cards (cardManager a2)) k)
                  = option_map cardShape (map_get (cards (cardManager a)) k))
    /\ map fst (cards (cardManager a2)) = map fst (cards (cardManager a))
    /\ (selectedCards (cardManager a2) = selectedCards (cardManager a)
        /\ activeCard (cardManager a2) = activeCard (cardManager a)
        /\ nextId (cardManager a2) = nextId (cardManager a))
    /\ (world a2 = world a /\ sidebar a2 = sidebar a
        /\ storage a2 = storage a).
Proof.
  intros offsetHeight now cardId e0 es a a1 Hstart. cbv zeta.
  assert ((forall d, draggedCard (cardManager a1) = Some d ->
                     In d (draggedIds (cardManager a) cardId))
          /\ (forall k, In k (map fst (multiDragOffsets (cardManager a1))) ->
                        In k (draggedIds (cardManager a) cardId))
          /\ cards (cardManager a1) = cards (cardManager a)
          /\ (selectedCards (cardManager a1) = selectedCards (cardManager a)
              /\ activeCard (cardManager a1) = activeCard (cardManager a)
              /\ nextId (cardManager a1) = nextId (cardManager a))
          /\ (world a1 = world a /\ sidebar a1 = sidebar a
              /\ storage a1 = storage a))
    as (Hd & Hoffs & Hc1 & (Hs1 & Ha1 & Hn1) & (Hw1 & Hsb1 & Hst1)).
  { unfold startDragging, draggedIds in *.
    destruct (set_has (selectedCards (cardManager a)) cardId) eqn:Esel.
    - destruct (dragEntries _ _ _) as [starts offsets] eqn:Ee.
      inversion Hstart; subst a1; clear Hstart.
      cbn [cardManager draggedCard multiDragOffsets with_drag cards
           selectedCards activeCard nextId world sidebar storage].
      split.
      { intros d Hdd. inversion Hdd; subst. now apply set_has_In. }
      split; [|now repeat split].
      intros k Hin. apply set_has_In.
      destruct (dragEntries_spec (cards (cardManager a))
                  (screenToWorld (world a) (clientX e0) (clientY e0))
                  (selectedCards (cardManager a)) k) as (_ & H2 & _).
      rewrite Ee in H2. cbn [snd] in H2.
      destruct (set_has (selectedCards (cardManager a)) k); [reflexivity|].
      exfalso. exact (map_get_none _ _ H2 Hin).
    - destruct (map_get (cards (cardManager a)) cardId) as [c|];
        [|discriminate].
      inversion Hstart; subst a1; clear Hstart.
      cbn [cardManager draggedCard multiDragOffsets with_drag cards
           selectedCards activeCard nextId world sidebar storage map In].
      split.
      { intros d Hdd. inversion Hdd; subst. now left. }
      split; [intros k []|now repeat split]. }
  destruct (dragMoves_effect offsetHeight _ es a1 Hd Hoffs)
    as ((Hk & Ho & Hs) & (Hsel & Hact & Hn) & (Hw & Hsb & Hst)).
  cbv zeta in *.
  split; [intros k Hnot; rewrite Ho by exact Hnot; now rewrite Hc1|].
  split; [intros k; now rewrite Hs, Hc1|].
  split; [now rewrite Hk, Hc1|].
  split; [repeat split; congruence|repeat split; congruence].
Qed.

(* ================================================================== *)
(** * Export and import                                              *)
(* ================================================================== *)

(** Export then import.  When a well-formed board has been saved at once
    and exported, importing the exported file into the application in any
    state resolves and brings the cards back field by field and in the
    same order (also when there are none), with an empty selection; the
    viewport gets the exported translation and scale, and entirely the
    exported transform when that viewport was at rest; if the storage
    accepts the write, the stored document holds the same cards and world
    state again. *)
Theorem exported_board_imports_back :
  forall (now now' : Z) (writable : bool) (a a0 : App),
    storeOk (cardManager a) ->
    exists file,
      exportData true (storage (onSaveKey now true a)) = Some file
      /\ validDocument file = true
      /\ let r := importData now' writable file a0 in
         fst r = resolved
         /\ cards (cardManager (snd r)) = cards (cardManager a)
         /\ selectedCards (cardManager (snd r)) = []
         /\ (translateX (world (snd r)) = translateX (world a)
             /\ translateY (world (snd r)) = translateY (world a)
             /\ scale (world (snd r)) = scale (world a))
         /\ (atRest (world a) -> sameTransform (world (snd r)) (world a))
         /\ (writable = true ->
             option_map saved_cards (localStorage (storage (snd r)))
             = Some (map dataOfCard (getAllCards (cardManager a)))
             /\ option_map saved_worldState (localStorage (storage (snd r)))
                = Some (getWorldState (world a))).
Proof.
  intros now now' writable a a0 (Hnd & Hid & _).
  unfold exportData, onSaveKey, loadData, saveData.
  cbn [storage with_storage localStorage saved_cards saved_worldState].
  eexists. split; [reflexivity|]. split; [reflexivity|].
  cbv zeta. unfold importData.
  cbn [fst snd cardManager world storage].
  split; [reflexivity|]. split.
  { unfold loadCards, getAllCards.
    apply (reload_fold _ []); [exact Hnd|exact Hid|reflexivity]. }
  split.
  { unfold loadCards.
    match goal with
    | |- selectedCards (fold_left _ ?l ?c) = _ =>
        destruct (createAll_frame l c) as (Hs & _); exact Hs
    end. }
  pose proof (world_state_rt (world a) (world a0)) as (H1 & H2).
  split; [exact H1|]. split; [exact H2|].
  intros ->. unfold saveData. now split.
Qed.
(* ================================================================== *)
(** * Concrete runs                                                  *)
(* ================================================================== *)

Lemma demoBoard_ok : boardOk demoBoard.
Proof.
  split.
  - repeat constructor.
  - repeat constructor; cbn; intuition discriminate.
Defined.

(** C1, a run: two saves, one undo, one redo. *)
Lemma undo_redo_round_trip_run :
  boardOk (boardOf lastCall)
  /\ fst (undoTimes 1 (saveAll ([firstCall] ++ [lastCall]) newApp))
     = [Some true]
  /\ snap_activeCard
       (captureCurrentState
          (cardManager
             (snd (redoTimes 1
                     (snd (undoTimes 1
                             (saveAll ([firstCall] ++ [lastCall]) newApp)))))))
     = Some 2%positive.
Proof.
  split; [exact demoBoard_ok|].
  pose proof (undo_redo_round_trip [firstCall] lastCall demoBoard_ok) as Hall.
  cbv zeta in Hall.
  destruct Hall as (Hundo & _ & _ & _ & _ & _ & Hactive & _).
  split; [exact Hundo|].
  apply Hactive. intros act Hact. inversion Hact. reflexivity.
Defined.

(** C1 as stated fails twice.  After 51 saves the history holds 50 entries,
    so the 50th undo answers false.  And after two saves on a board whose
    active id names no card, undo and redo both answer true, yet the
    restored board has no active card while the latest snapshot records
    active id 7. *)
Lemma undo_redo_round_trip_as_stated_fails :
  (nth_error
     (fst (undoTimes 50 (saveAll (repeat lastCall 51) newApp))) 49
   = Some (Some false)
   /\ List.length
        (history (undoRedoManager (saveAll (repeat lastCall 51) newApp)))
      = 50%nat)
  /\ (let a := saveAll [firstCall; staleCall] newApp in
      let a1 := snd (undoTimes 1 a) in
      let a2 := snd (redoTimes 1 a1) in
      fst (undoTimes 1 a) = [Some true]
      /\ fst (redoTimes 1 a1) = [Some true]
      /\ snap_activeCard (captureCurrentState (cardManager a2)) = None
      /\ snap_activeCard (captureCurrentState (boardOf staleCall))
         = Some 7%positive).
Proof. vm_compute. repeat split. Qed.


(** C3, a run: the 51st save on a full history. *)
Lemma history_bounded_and_index_valid_run :
  currentIndex (undoRedoManager (runHistory fullHistoryOps newApp)) = 49%Z
  /\ currentIndex
       (saveState 1 "delete_cards" data_none demoBoard
          (undoRedoManager (runHistory fullHistoryOps newApp)))
     = (49 + 1 - 1)%Z.
Proof.
  assert (currentIndex (undoRedoManager (runHistory fullHistoryOps newApp))
          = 49%Z) as H49 by (vm_compute; reflexivity).
  split; [exact H49|].
  pose proof (history_bounded_and_index_valid fullHistoryOps) as Hall.
  cbv zeta in Hall. destruct Hall as (_ & _ & _ & _ & Hevict).
  exact (proj2 (Hevict 1%Z "delete_cards"%string data_none demoBoard H49)).
Defined.



(** The specification's first snap scenario: B released at (302, 2) next to
    A at (0, 0, 300) snaps its left edge onto A's right edge at 300 and its
    top onto A's top; C is too far away on both axes. *)
Example snap_scenario_left_to_right :
  let r := applySnapping flatLayout demoBoard 302 2 cardB [2%positive] in
  Qeq_bool (snap_x r) 300 = true
  /\ snapLineX r = Some (0 + 300)
  /\ Qeq_bool (snap_y r) 0 = true
  /\ snapLineY r = Some 0.
Proof. vm_compute. repeat split. Qed.

(** A snapping tie.  With A alone on the board and a card 6 wide at x = 297,
    left-to-right (297 against 300) and right-to-right (303 against 300)
    are both 3 away; left-to-right is listed first and wins, so the card
    goes to 300 and not to 294. *)
Example snap_tie_first_candidate_wins :
  let board := with_cards demoBoard [(1%positive, cardA)] in
  let moving := mkCard 9 297 50 6 (px 10) "" in
  let r := applySnapping flatLayout board 297 50 moving [9%positive] in
  Qeq_bool (alignDist (mkAlignment 297 300 300)) 3 = true
  /\ Qeq_bool (alignDist (mkAlignment (297 + 6) 300 300)) 3 = true
  /\ Qeq_bool (snap_x r) 300 = true
  /\ snapLineX r = Some (0 + 300).
Proof. vm_compute. repeat split. Qed.


(** C7, a run: the same gesture writes one multi_card_move entry. *)
Lemma drag_gesture_writes_one_entry_iff_moved_run :
  (historyOk (undoRedoManager demoApp)
   /\ startDragging 5 2 pressB demoApp = (Some tt, afterPress))
  /\ history (undoRedoManager afterMoves) = history (undoRedoManager demoApp)
  /\ map operation
         (history (undoRedoManager (endDragging 6 afterMoves)))
     = ["multi_card_move"%string].
Proof.
  assert (historyOk (undoRedoManager demoApp)) as Hok
      by (unfold historyOk, maxHistorySize; cbn; repeat split; lia).
  assert (startDragging 5 2 pressB demoApp = (Some tt, afterPress)) as Hstart
      by (vm_compute; reflexivity).
  split; [split; [exact Hok|exact Hstart]|].
  split; [|vm_compute; reflexivity].
  exact (proj1 (proj1 (proj2 (drag_gesture_writes_one_entry_iff_moved
                                flatLayout 5 6 2 pressB dragEvents
                                demoApp afterPress Hok Hstart)))).
Defined.





(** The coordinate round trip, a run on a panned and zoomed viewport. *)
Lemma screen_world_round_trip_run :
  (~ scale pannedWorld == 0)
  /\ pt_x (worldToScreen pannedWorld
             (pt_x (screenToWorld pannedWorld 400 300))
             (pt_y (screenToWorld pannedWorld 400 300))) == 400.
Proof.
  assert (~ scale pannedWorld == 0) as Hs by (cbn; lra).
  split; [exact Hs|].
  exact (proj1 (proj1 (screen_world_round_trip pannedWorld 400 300 Hs))).
Defined.


(** The demo board is a well-formed store with a well-formed selection. *)
Lemma demoBoard_storeOk : storeOk demoBoard.
Proof.
  unfold storeOk. cbn [cards nextId demoBoard map fst].
  split; [|split].
  - repeat constructor; cbn [In]; intuition discriminate.
  - repeat constructor.
  - repeat constructor.
Defined.

Lemma demoBoard_selectionOk : selectionOk demoBoard.
Proof.
  unfold selectionOk. cbn [selectedCards activeCard demoBoard].
  split; [|right; left; reflexivity].
  repeat constructor; cbn [In]; intuition discriminate.
Defined.



(** deleteCard, a run: B leaves the demo board, A stays. *)
Lemma delete_card_removes_only_that_card_run :
  NoDup (map fst (cards (cardManager demoApp)))
  /\ map_get (cards (cardManager (deleteCard 2 demoApp))) 1 = Some cardA.
Proof.
  split; [exact (proj1 demoBoard_storeOk)|].
  destruct (delete_card_removes_only_that_card 2 demoApp
              (proj1 demoBoard_storeOk)) as (H & _).
  exact (H 1%positive).
Defined.


(** The visible bounds, a run on the panned and zoomed viewport. *)
Lemma visible_bounds_match_viewport_run :
  (~ scale pannedWorld == 0)
  /\ bounds_width (getVisibleBounds viewportRect pannedWorld)
     * scale pannedWorld == rect_width viewportRect.
Proof.
  assert (~ scale pannedWorld == 0) as Hs by (cbn; lra).
  split; [exact Hs|].
  destruct (visible_bounds_match_viewport viewportRect pannedWorld Hs)
    as (_ & _ & H & _).
  exact H.
Defined.

(** The selection invariant, a run: a plain click on C. *)
Lemma selection_invariant_kept_run :
  selectionOk (cardManager demoApp)
  /\ selectionOk (cardManager (snd (selectCard 3 false demoApp))).
Proof.
  split; [exact demoBoard_selectionOk|].
  destruct (selection_invariant_kept demoApp demoBoard_selectionOk)
    as (H & _).
  exact (H 3%positive false).
Defined.

(** Ctrl-click twice, a run: C is added to A and B and taken out again;
    the active card moves from B to A. *)
Lemma ctrl_click_twice_restores_selection_run :
  (~ In 3%positive (selectedCards (cardManager demoApp)))
  /\ activeCard
       (cardManager
          (snd (selectCard 3 true (snd (selectCard 3 true demoApp)))))
     = Some 1%positive.
Proof.
  assert (~ In 3%positive (selectedCards (cardManager demoApp))) as Hn
      by (cbn; intuition discriminate).
  split; [exact Hn|].
  destruct (ctrl_click_twice_restores_selection 3 demoApp Hn)
    as (_ & _ & H & _).
  exact H.
Defined.


(** addNewCard, a run on the demo board. *)
Lemma add_new_card_outcome_run :
  (storeOk (cardManager demoApp) /\ historyOk (undoRedoManager demoApp)
   /\ ~ scale (world demoApp) == 0)
  /\ selectedCards (cardManager (snd (addNewCard 7 viewportRect demoApp)))
     = [4%positive].
Proof.
  assert (~ scale (world demoApp) == 0) as Hs by (cbn; lra).
  split; [split; [exact demoBoard_storeOk|split; [exact newApp_ok|exact Hs]]|].
  destruct (add_new_card_outcome 7 viewportRect demoApp demoBoard_storeOk
              newApp_ok Hs) as (c & _ & _ & _ & _ & H & _).
  exact H.
Defined.

(** Pressing on the unselected card C of the demo board. *)
Lemma card_press_drags_the_selection_run :
  (map_get (cards (cardManager demoApp)) 3 = Some cardC
   /\ isPerformingUndoRedo (undoRedoManager demoApp) = false)
  /\ draggedCard
       (cardManager (snd (onCardMouseDown 5 3 pressB demoApp)))
     = Some 3%positive.
Proof.
  split; [split; reflexivity|].
  destruct (card_press_drags_the_selection 5 3 pressB demoApp cardC
              eq_refl eq_refl) as (_ & _ & _ & H & _).
  exact H.
Defined.

(** The Delete key, a run: a declined confirmation on the demo board. *)
Lemma delete_key_removes_the_selection_run :
  (NoDup (map fst (cards (cardManager demoApp)))
   /\ historyOk (undoRedoManager demoApp))
  /\ onDeleteKey 3 false demoApp = demoApp.
Proof.
  split; [split; [exact (proj1 demoBoard_storeOk)|exact newApp_ok]|].
  destruct (delete_key_removes_the_selection 3 demoApp
              (proj1 demoBoard_storeOk) newApp_ok) as (_ & H & _).
  exact H.
Defined.


(** Typing, a run: two edits of card A in the open panel. *)
Lemma typing_burst_writes_one_entry_run :
  (currentCard (sidebar soloApp) = Some cardA
   /\ historyOk (undoRedoManager soloApp)
   /\ contentChangeTimeout (undoRedoManager soloApp) = None)
  /\ undoRedoManager (typeAll 1 2 (["<p>a</p>"%string] ++ ["<p>ab</p>"%string])
                              soloApp)
     = undoRedoManager soloApp.
Proof.
  split; [split; [reflexivity|split; [exact newApp_ok|reflexivity]]|].
  destruct (typing_burst_writes_one_entry 1 2 3 ["<p>a</p>"%string]
              "<p>ab</p>"%string cardA soloApp eq_refl newApp_ok eq_refl)
    as (H & _).
  exact H.
Defined.

(** The two snap resolvers, a run on the demo board. *)
Lemma single_select_snapping_agrees_run :
  Forall keyedById (cards demoBoard)
  /\ SingleSelect.applySnapping (fun k => Some (flatLayout k)) demoBoard
                                302 2 cardB
     = applySnapping flatLayout demoBoard 302 2 cardB [card_id cardB].
Proof.
  split; [exact (proj1 (proj2 demoBoard_storeOk))|].
  exact (single_select_snapping_agrees flatLayout demoBoard 302 2 cardB
           (proj1 (proj2 demoBoard_storeOk))).
Defined.

(** Saving and reloading, a run: the demo board comes back in a fresh
    application. *)
Lemma saved_board_reloads_run :
  storeOk (cardManager demoApp)
  /\ cards (cardManager
              (loadApplicationState true viewportRect
                 (with_storage newApp (storage (onSaveKey 9 true demoApp)))))
     = cards (cardManager demoApp).
Proof.
  split; [exact demoBoard_storeOk|].
  destruct (saved_board_reloads 9 viewportRect demoApp newApp
              demoBoard_storeOk) as (H & _).
  assert (cards (cardManager demoApp) <> []) as Hne by discriminate.
  exact (proj1 (H Hne)).
Defined.

(** Reset, a run on the demo application. *)
Lemma reset_outcome_run :
  isPerformingUndoRedo (undoRedoManager demoApp) = false
  /\ currentIndex
       (undoRedoManager (snd (appReset 4 true true true viewportRect demoApp)))
     = 0%Z.
Proof.
  split; [reflexivity|].
  destruct (reset_outcome 4 true viewportRect demoApp eq_refl)
    as (_ & _ & _ & (_ & H & _) & _).
  exact H.
Defined.

(** Undo and redo after adding a card, a run: the demo application after
    its initial save. *)
Lemma redo_does_not_bring_back_an_added_card_run :
  (storeOk (cardManager afterFirstSave)
   /\ NoDup (selectedCards (cardManager afterFirstSave))
   /\ historyOk (undoRedoManager afterFirstSave)
   /\ (0 <= currentIndex (undoRedoManager afterFirstSave))%Z
   /\ ~ scale (world afterFirstSave) == 0)
  /\ map_has
       (cards
          (cardManager
             (snd (redo (snd (undo (snd (addNewCard 7 viewportRect
                                                    afterFirstSave))))))))
       4
     = false.
Proof.
  assert (historyOk (undoRedoManager afterFirstSave)) as Hh
      by exact (saveState_ok 0 "initial_state" data_none demoBoard
                             newUndoRedoManager newApp_ok).
  assert (0 <= currentIndex (undoRedoManager afterFirstSave))%Z as Hi
      by (vm_compute; discriminate).
  assert (~ scale (world afterFirstSave) == 0) as Hs by (cbn; lra).
  split.
  { split; [exact demoBoard_storeOk|]. split; [exact (proj1 demoBoard_selectionOk)|].
    split; [exact Hh|]. split; [exact Hi|exact Hs]. }
  destruct (redo_does_not_bring_back_an_added_card 7 viewportRect
              afterFirstSave demoBoard_storeOk (proj1 demoBoard_selectionOk)
              Hh Hi Hs) as (_ & _ & _ & H & _).
  exact H.
Defined.


(** Undo of a drag, a run: B is dragged on the demo board after its
    initial save; undo puts it back. *)
Lemma undo_of_a_drag_restores_the_start_positions_run :
  (storeOk (cardManager afterFirstSave)
   /\ historyOk (undoRedoManager afterFirstSave)
   /\ startDragging 5 2 pressB afterFirstSave = (Some tt, savedPress))
  /\ map_get (cards (cardManager (snd (undo (endDragging 6 savedMoves))))) 2
     = map_get (cards (cardManager afterFirstSave)) 2.
Proof.
  assert (historyOk (undoRedoManager afterFirstSave)) as Hh
      by exact (saveState_ok 0 "initial_state" data_none demoBoard
                             newUndoRedoManager newApp_ok).
  assert (startDragging 5 2 pressB afterFirstSave = (Some tt, savedPress))
    as Hstart by (vm_compute; reflexivity).
  split; [split; [exact demoBoard_storeOk|split; [exact Hh|exact Hstart]]|].
  assert (someCardMoved (draggedIds (cardManager afterFirstSave) 2)
            (cards (cardManager afterFirstSave))
            (cards (cardManager savedMoves))) as Hmoved.
  { exists 2%positive, cardB, (cardAt savedMoves 2).
    split; [cbn; tauto|]. split; [reflexivity|].
    split; [vm_compute; reflexivity|].
    intros [Hx _]. vm_compute in Hx. discriminate. }
  destruct (undo_of_a_drag_restores_the_start_positions
              flatLayout 5 6 2 pressB dragEvents afterFirstSave savedPress
              (mkHistoryEntry "initial_state" 0
                 (captureCurrentState demoBoard) data_none)
              demoBoard_storeOk (proj1 demoBoard_selectionOk) Hh
              eq_refl eq_refl Hstart Hmoved) as (_ & H & _).
  exact (H 2%positive).
Defined.

(** A drag moves only the dragged cards, a run: B is dragged on the demo
    board; the keys of the store are as before. *)
Lemma drag_moves_only_the_dragged_cards_run :
  startDragging 5 2 pressB afterFirstSave = (Some tt, savedPress)
  /\ map fst (cards (cardManager savedMoves))
     = map fst (cards (cardManager afterFirstSave)).
Proof.
  assert (startDragging 5 2 pressB afterFirstSave = (Some tt, savedPress))
    as Hstart by (vm_compute; reflexivity).
  split; [exact Hstart|].
  destruct (drag_moves_only_the_dragged_cards
              flatLayout 5 2 pressB dragEvents afterFirstSave savedPress
              Hstart) as (_ & _ & H & _).
  exact H.
Defined.

(** Export then import, a run: the demo board is saved, exported and
    imported into the fresh application. *)
Lemma exported_board_imports_back_run :
  storeOk (cardManager demoApp)
  /\ cards (cardManager
              (snd (importData 10 true
                      (json_document
                         (cards_array (map dataOfCard (getAllCards demoBoard)))
                         (Some (getWorldState (world demoApp))))
                      newApp)))
     = cards (cardManager demoApp).
Proof.
  split; [exact demoBoard_storeOk|].
  destruct (exported_board_imports_back 9 10 true demoApp newApp
              demoBoard_storeOk) as (file & He & _ & _ & Hc & _).
  assert (exportData true (storage (onSaveKey 9 true demoApp))
          = Some (json_document
                    (cards_array (map dataOfCard (getAllCards demoBoard)))
                    (Some (getWorldState (world demoApp))))) as Hf
      by reflexivity.
  rewrite Hf in He. injection He as <-. exact Hc.
Defined.
